(** * gemini-business: the signup orchestration, checked against its code

    A shallow embedding of [src/core/register_service.py] and
    [src/util/gemini_auth_utils.py].

    Conventions of the embedding.
    - A Python [str] is a [string]; mail bodies and page texts are taken to
      be ASCII, and the character classes below are the ASCII restrictions
      of Python's.  The Chinese messages of the code are kept as they are.
    - A Python [int] is a [Z].
    - An instance of [Exception] is an [exn]: its class and its message.
    - Code that talks to the browser, to the mail relay or to the clock is a
      state-and-exception computation over an abstract world; the primitive
      calls are the fields of an interface record, and a concrete stub
      implements it for the closed examples. *)

From Stdlib Require Import ZArith String Ascii List Bool Lia.
From stdpp Require Import base gmap strings list.
Import ListNotations.
Local Open Scope string_scope.
Local Open Scope Z_scope.

(** ** Python values shared by both files *)

(** An exception instance: [TimeoutException] is the class declared in
    register_service.py, every other class is kept by name. *)
Inductive exn : Type :=
| TimeoutException (msg : string)
| PyException (cls : string) (msg : string).

(** [str(e)] *)
Definition str_exn (e : exn) : string :=
  match e with
  | TimeoutException m => m
  | PyException _ m => m
  end.

(** Decimal rendering of an [int], as an f-string does it. *)
Fixpoint digits_of_pos (fuel : nat) (n : Z) (acc : string) : string :=
  match fuel with
  | O => acc
  | S fuel' =>
      let d := String (ascii_of_nat (Z.to_nat (48 + n mod 10))) acc in
      if n <? 10 then d else digits_of_pos fuel' (n / 10) d
  end.

Definition str_int (n : Z) : string :=
  if n <? 0 then "-" +:+ digits_of_pos (Z.to_nat (Z.log2 (- n)) + 1) (- n) EmptyString
  else digits_of_pos (Z.to_nat (Z.log2 n) + 1) n EmptyString.

(** ** Python text: [str] methods and the [re] patterns of the code *)

Module PyStr.

Definition in_range (lo hi : nat) (c : ascii) : bool :=
  ((lo <=? nat_of_ascii c) && (nat_of_ascii c <=? hi))%nat.

Definition is_digit (c : ascii) : bool := in_range 48 57 c.
Definition is_upper (c : ascii) : bool := in_range 65 90 c.
Definition is_lower (c : ascii) : bool := in_range 97 122 c.

(** [[A-Za-z0-9]] *)
Definition is_alnum (c : ascii) : bool := is_upper c || is_lower c || is_digit c.
(** [[A-Z0-9]] *)
Definition is_upper_digit (c : ascii) : bool := is_upper c || is_digit c.
(** [\w] on ASCII text. *)
Definition is_word (c : ascii) : bool := is_alnum c || Ascii.eqb c "_".
(** [str.isspace] and [\s] on ASCII text: TAB..CR, FS..US and the space. *)
Definition is_space (c : ascii) : bool := in_range 9 13 c || in_range 28 32 c.

(** [bool(s)] *)
Definition truthy (s : string) : bool :=
  match s with EmptyString => false | String _ _ => true end.

Definition lower_char (c : ascii) : ascii :=
  if is_upper c then ascii_of_nat (nat_of_ascii c + 32) else c.

(** [s.lower()] *)
Fixpoint lower (s : string) : string :=
  match s with
  | EmptyString => EmptyString
  | String c s' => String (lower_char c) (lower s')
  end.

Fixpoint lstrip (s : string) : string :=
  match s with
  | EmptyString => EmptyString
  | String c s' => if is_space c then lstrip s' else s
  end.

Fixpoint rstrip (s : string) : string :=
  match s with
  | EmptyString => EmptyString
  | String c s' =>
      match rstrip s' with
      | EmptyString => if is_space c then EmptyString else String c EmptyString
      | r => String c r
      end
  end.

(** [s.strip()] *)
Definition strip (s : string) : string := rstrip (lstrip s).

(** [sub in s] *)
Fixpoint contains (sub s : string) : bool :=
  String.prefix sub s ||
  match s with
  | EmptyString => false
  | String _ s' => contains sub s'
  end.

(** [sep.join(parts)] *)
Fixpoint join (sep : string) (parts : list string) : string :=
  match parts with
  | [] => EmptyString
  | [p] => p
  | p :: ps => p +:+ sep +:+ join sep ps
  end.

(** Every character of [s] satisfies [p]. *)
Fixpoint all_chars (p : ascii -> bool) (s : string) : bool :=
  match s with
  | EmptyString => true
  | String c s' => p c && all_chars p s'
  end.

End PyStr.

(** The fragment of Python's [re] syntax that the patterns of
    [_extract_code_from_html] use, with a backtracking matcher that tries
    alternatives in the order [re] does (left alternative first, longest
    repetition first, leftmost start first). *)
Module Re.
Import PyStr.

Inductive regex : Type :=
| Lit (s : string)                      (* literal text *)
| Times (n : nat) (p : ascii -> bool)   (* [class]{n} *)
| Plus (p : ascii -> bool)              (* [class]+ *)
| Cat (r1 r2 : regex)
| Alt (r1 r2 : regex)                   (* r1|r2 *)
| Group (r : regex)                     (* ( r ), the group numbered 1 *)
| WordBoundary                          (* \b *)
| Bol                                   (* ^ *)
| Eol.                                  (* $ *)

(** A successful match, as far as the code reads it: [group(1)], which is
    [None] when the pattern has no group that took part. *)
Definition match_object : Type := option string.

(** The matcher runs at a position of the subject: [prev] is the character
    before it ([None] at the start of the subject) and [rest] the text from
    it on; [cap] is the text of group 1 so far; [k] continues the match. *)
Definition cont : Type :=
  option ascii -> string -> option string -> option match_object.

Fixpoint lit (s : string) (prev : option ascii) (rest : string)
    (k : option ascii -> string -> option match_object) : option match_object :=
  match s with
  | EmptyString => k prev rest
  | String c s' =>
      match rest with
      | String d rest' => if Ascii.eqb c d then lit s' (Some d) rest' k else None
      | EmptyString => None
      end
  end.

Fixpoint times (n : nat) (p : ascii -> bool) (prev : option ascii) (rest : string)
    (k : option ascii -> string -> option match_object) : option match_object :=
  match n with
  | O => k prev rest
  | S n' =>
      match rest with
      | String c rest' => if p c then times n' p (Some c) rest' k else None
      | EmptyString => None
      end
  end.

Fixpoint plus (p : ascii -> bool) (prev : option ascii) (rest : string)
    (k : option ascii -> string -> option match_object) : option match_object :=
  match rest with
  | String c rest' =>
      if p c then
        match plus p (Some c) rest' k with
        | Some m => Some m
        | None => k (Some c) rest'
        end
      else None
  | EmptyString => None
  end.

Definition word_at (c : option ascii) : bool :=
  match c with Some c => is_word c | None => false end.

Definition next_char (rest : string) : option ascii :=
  match rest with String c _ => Some c | EmptyString => None end.

Fixpoint exec (r : regex) (prev : option ascii) (rest : string)
    (cap : option string) (k : cont) : option match_object :=
  match r with
  | Lit s => lit s prev rest (fun prev' rest' => k prev' rest' cap)
  | Times n p => times n p prev rest (fun prev' rest' => k prev' rest' cap)
  | Plus p => plus p prev rest (fun prev' rest' => k prev' rest' cap)
  | Cat r1 r2 =>
      exec r1 prev rest cap (fun prev' rest' cap' => exec r2 prev' rest' cap' k)
  | Alt r1 r2 =>
      match exec r1 prev rest cap k with
      | Some m => Some m
      | None => exec r2 prev rest cap k
      end
  | Group r1 =>
      exec r1 prev rest cap
        (fun prev' rest' _ =>
           k prev' rest'
             (Some (String.substring 0 (String.length rest - String.length rest') rest)))
  | WordBoundary =>
      if xorb (word_at prev) (word_at (next_char rest)) then k prev rest cap else None
  | Bol => match prev with None => k prev rest cap | Some _ => None end
  | Eol =>
      match rest with
      | EmptyString => k prev rest cap
      | String "010"%char EmptyString => k prev rest cap
      | _ => None
      end
  end.

Definition accept : cont := fun _ _ cap => Some cap.

(** [re.match(pattern, text)] *)
Definition re_match (r : regex) (text : string) : option match_object :=
  exec r None text None accept.

Fixpoint search_from (r : regex) (prev : option ascii) (rest : string)
  : option match_object :=
  match exec r prev rest None accept with
  | Some m => Some m
  | None =>
      match rest with
      | String c rest' => search_from r (Some c) rest'
      | EmptyString => None
      end
  end.

(** [re.search(pattern, text)] *)
Definition re_search (r : regex) (text : string) : option match_object :=
  search_from r None text.

Definition is_some {A : Type} (o : option A) : bool :=
  match o with Some _ => true | None => false end.

(** A code: six characters, each of [[A-Za-z0-9]]. *)
Definition is_code (c : string) : Prop :=
  String.length c = 6%nat /\ all_chars is_alnum c = true.

(** Every group of the pattern is [([class]{6})] for a class within
    [[A-Za-z0-9]]. *)
Fixpoint groups_capture_codes (r : regex) : Prop :=
  match r with
  | Group (Times n p) => n = 6%nat /\ forall c, p c = true -> is_alnum c = true
  | Group _ => False
  | Cat r1 r2 | Alt r1 r2 => groups_capture_codes r1 /\ groups_capture_codes r2
  | _ => True
  end.

End Re.

(** The tree [BeautifulSoup(content, "html.parser")] builds, as far as the
    code reads it: text nodes, and elements with their (lower-cased) name,
    the values of their [class] attribute and their children. *)
Module Soup.
Import PyStr.

Local Unset Elimination Schemes.
Inductive node : Type :=
| Text (s : string)
| Tag (name : string) (classes : list string) (children : list node).
Local Set Elimination Schemes.

(** [el.get_text()]: the text nodes below [el], concatenated. *)
Fixpoint get_text (n : node) : string :=
  match n with
  | Text s => s
  | Tag _ _ children =>
      (fix texts (l : list node) : string :=
         match l with
         | [] => EmptyString
         | x :: l' => get_text x +:+ texts l'
         end) children
  end.

(** The elements at and below [n], in document order. *)
Fixpoint elements (n : node) : list node :=
  match n with
  | Text _ => []
  | Tag _ _ children =>
      n :: (fix below (l : list node) : list node :=
              match l with
              | [] => []
              | x :: l' => (elements x ++ below l')%list
              end) children
  end.

(** [soup.find_all(...)] with a test on the element. *)
Definition find_all (test : node -> bool) (soup : list node) : list node :=
  List.filter test (List.flat_map elements soup).

(** [soup.get_text()] *)
Definition soup_text (soup : list node) : string :=
  List.fold_right (fun n acc => get_text n +:+ acc) EmptyString soup.

(** [find_all(tag)] *)
Definition named (tag : string) (n : node) : bool :=
  match n with
  | Tag name _ _ => String.eqb name tag
  | Text _ => false
  end.

(** [find_all(class_=f)]: bs4 applies [f] to each value of the class
    attribute, then to the values joined by a space. *)
Definition class_is (f : string -> bool) (n : node) : bool :=
  match n with
  | Tag _ classes _ => existsb f classes || f (join " " classes)
  | Text _ => false
  end.

End Soup.

(** ** The outside world *)

(** JSON values as [r.json()] and [json.loads] return them. *)
Local Unset Elimination Schemes.
Inductive json : Type :=
| JNull
| JBool (b : bool)
| JNum (n : Z)
| JStr (s : string)
| JList (l : list json)
| JDict (items : list (string * json)).
Local Set Elimination Schemes.

(** A [requests] response: the status code and what [r.json()] does. *)
Record response : Type := mkResponse {
  status_code : Z;
  json_body : exn + json
}.

(** A cookie dict of [driver.get_cookies()]. *)
Record cookie : Type := mkCookie {
  cookie_name : option string;
  cookie_value : option string;
  cookie_expiry : option Z
}.

(** The calls the code makes on the clock, on [requests] and on the
    selenium driver, over a world [W].  Times are in milliseconds.  Elements
    and window handles are the string ids of the WebDriver protocol. *)
Record World (W : Type) : Type := mkWorld {
  time_time : W -> Z;
  time_sleep : Z -> W -> W;
  requests_get :
    string -> list (string * string) -> list (string * string) ->
    W -> (exn + response) * W;
  execute_script : string -> list string -> W -> (exn + option Z) * W;
  find_elements : string -> W -> (exn + list string) * W;
  until_clickable : string -> W -> (exn + string) * W;
  click : string -> W -> (exn + unit) * W;
  send_keys : string -> list string -> W -> (exn + unit) * W;
  clear : string -> W -> (exn + unit) * W;
  get_attribute : string -> string -> W -> (exn + option string) * W;
  active_element : W -> (exn + string) * W;
  page_source : W -> (exn + string) * W;
  current_url : W -> (exn + string) * W;
  window_handles : W -> (exn + list string) * W;
  switch_to_window : string -> W -> (exn + unit) * W;
  close : W -> (exn + unit) * W;
  get : string -> W -> (exn + unit) * W;
  get_cookies : W -> (exn + list cookie) * W
}.
Arguments time_time {W}.
Arguments time_sleep {W}.
Arguments requests_get {W}.
Arguments execute_script {W}.
Arguments find_elements {W}.
Arguments until_clickable {W}.
Arguments click {W}.
Arguments send_keys {W}.
Arguments clear {W}.
Arguments get_attribute {W}.
Arguments active_element {W}.
Arguments page_source {W}.
Arguments current_url {W}.
Arguments window_handles {W}.
Arguments switch_to_window {W}.
Arguments close {W}.
Arguments get {W}.
Arguments get_cookies {W}.

(** Computations that read and change the world and may raise. *)
Module Run.

Definition M (W A : Type) : Type := W -> (exn + A) * W.

Definition ret {W A : Type} (a : A) : M W A := fun w => (inr a, w).

Definition raise {W A : Type} (e : exn) : M W A := fun w => (inl e, w).

Definition bind {W A B : Type} (m : M W A) (k : A -> M W B) : M W B :=
  fun w =>
    match m w with
    | (inr a, w') => k a w'
    | (inl e, w') => (inl e, w')
    end.

(** [try: m  except Exception as e: handler e] *)
Definition try_except {W A : Type} (m : M W A) (handler : exn -> M W A) : M W A :=
  fun w =>
    match m w with
    | (inr a, w') => (inr a, w')
    | (inl e, w') => handler e w'
    end.

(** [try: m  except Exception: pass] *)
Definition attempt {W : Type} (m : M W unit) : M W unit :=
  try_except m (fun _ => ret tt).

(** A call that cannot raise, lifted. *)
Definition effect {W : Type} (f : W -> W) : M W unit := fun w => (inr tt, f w).

Definition read {W A : Type} (f : W -> A) : M W A := fun w => (inr (f w), w).

(** [while time.time() - start < timeout: body], where [body] answers
    [Some a] for [return a] and [None] for reaching the end of the round (or
    [continue]).  The answer [None] of the loop is its normal exit.  Every
    round that does not return sleeps at least [step]; with a clock that
    advances by the time slept the condition fails within
    [timeout / step + 1] rounds, which is the fuel given by [rounds]
    (lemma [rounds_cover_deadline]). *)
Fixpoint while_before {W A : Type} (now : W -> Z) (fuel : nat) (start timeout : Z)
    (body : M W (option A)) : M W (option A) :=
  match fuel with
  | O => ret None
  | S fuel' =>
      fun w =>
        if now w - start <? timeout then
          bind body (fun r =>
            match r with
            | Some a => ret (Some a)
            | None => while_before now fuel' start timeout body
            end) w
        else (inr None, w)
  end.

Definition rounds (timeout step : Z) : nat := Z.to_nat (timeout / step) + 1.

End Run.

Declare Scope run_scope.
Delimit Scope run_scope with run.
Notation "x <- m ;; k" := (Run.bind m (fun x => k))
  (at level 100, m at next level, right associativity) : run_scope.
Notation "m ;;; k" := (Run.bind m (fun _ => k))
  (at level 100, right associativity) : run_scope.

(** Python's dynamic operations on JSON values. *)
Module PyJson.

Definition truthy (v : json) : bool :=
  match v with
  | JNull => false
  | JBool b => b
  | JNum n => negb (n =? 0)
  | JStr s => PyStr.truthy s
  | JList l => match l with [] => false | _ => true end
  | JDict items => match items with [] => false | _ => true end
  end.

Fixpoint assoc (key : string) (items : list (string * json)) : option json :=
  match items with
  | [] => None
  | (k, v) :: items' => if String.eqb k key then Some v else assoc key items'
  end.

(** [d.get(key, default)]; only a dict has the method. *)
Definition get (d : json) (key : string) (default : json) : exn + json :=
  match d with
  | JDict items =>
      inr (match assoc key items with Some v => v | None => default end)
  | _ => inl (PyException "AttributeError" "object has no attribute 'get'")
  end.

(** [a or b] *)
Definition or_else (a b : json) : json := if truthy a then a else b.

(** [v[0]] *)
Definition index0 (v : json) : exn + json :=
  match v with
  | JList (x :: _) => inr x
  | JList [] => inl (PyException "IndexError" "list index out of range")
  | JStr (String c _) => inr (JStr (String c EmptyString))
  | JStr EmptyString => inl (PyException "IndexError" "string index out of range")
  | JDict _ => inl (PyException "KeyError" "0")
  | _ => inl (PyException "TypeError" "object is not subscriptable")
  end.

Fixpoint chars (s : string) : list json :=
  match s with
  | EmptyString => []
  | String c s' => JStr (String c EmptyString) :: chars s'
  end.

(** The items [for x in v] visits. *)
Definition iter (v : json) : exn + list json :=
  match v with
  | JList l => inr l
  | JDict items => inr (List.map (fun kv => JStr (fst kv)) items)
  | JStr s => inr (chars s)
  | _ => inl (PyException "TypeError" "object is not iterable")
  end.

(** [a == b]: scalars as Python compares them (a bool equals the int 0 or
    1), lists element by element, dicts key by key. *)
Fixpoint eq (a b : json) : bool :=
  match a, b with
  | JNull, JNull => true
  | JBool x, JBool y => Bool.eqb x y
  | JBool x, JNum n => (if x then 1 else 0) =? n
  | JNum n, JBool x => n =? (if x then 1 else 0)
  | JNum x, JNum y => x =? y
  | JStr x, JStr y => String.eqb x y
  | JList x, JList y =>
      (fix eq_list (x y : list json) : bool :=
         match x, y with
         | [], [] => true
         | u :: x', v :: y' => eq u v && eq_list x' y'
         | _, _ => false
         end) x y
  | JDict x, JDict y =>
      (length x =? length y)%nat &&
      (fix eq_items (x : list (string * json)) : bool :=
         match x with
         | [] => true
         | (k, u) :: x' =>
             match assoc k y with
             | Some v => eq u v
             | None => false
             end && eq_items x'
         end) x
  | _, _ => false
  end.

End PyJson.

(** [datetime.fromtimestamp(t).strftime("%Y-%m-%d %H:%M:%S")].  The local
    time zone is given by the offset from UTC, in seconds, that it has at an
    instant. *)
Module PyDatetime.

Record datetime : Type := mkDatetime {
  year : Z; month : Z; day : Z; hour : Z; minute : Z; second : Z
}.

(** The civil date of a day number counted from 1970-01-01 (proleptic
    Gregorian calendar). *)
Definition civil_from_days (days : Z) : Z * Z * Z :=
  let z := days + 719468 in
  let era := z / 146097 in
  let doe := z - era * 146097 in
  let yoe := (doe - doe / 1460 + doe / 36524 - doe / 146096) / 365 in
  let doy := doe - (365 * yoe + yoe / 4 - yoe / 100) in
  let mp := (5 * doy + 2) / 153 in
  let d := doy - (153 * mp + 2) / 5 + 1 in
  let m := if mp <? 10 then mp + 3 else mp - 9 in
  let y := yoe + era * 400 + (if m <=? 2 then 1 else 0) in
  (y, m, d).

(** [datetime.fromtimestamp(t)]; a year outside 1..9999 raises. *)
Definition fromtimestamp (utcoffset : Z -> Z) (t : Z) : exn + datetime :=
  let local := t + utcoffset t in
  let '(y, m, d) := civil_from_days (local / 86400) in
  let secs := local mod 86400 in
  if (1 <=? y) && (y <=? 9999) then
    inr {| year := y; month := m; day := d;
           hour := secs / 3600; minute := (secs mod 3600) / 60;
           second := secs mod 60 |}
  else inl (PyException "ValueError" "year is out of range").

Definition two_digits (n : Z) : string :=
  if n <? 10 then "0" +:+ str_int n else str_int n.

(** [dt.strftime("%Y-%m-%d %H:%M:%S")], the year as the C library prints
    it. *)
Definition strftime (dt : datetime) : string :=
  str_int (year dt) +:+ "-" +:+ two_digits (month dt) +:+ "-" +:+ two_digits (day dt)
  +:+ " " +:+ two_digits (hour dt) +:+ ":" +:+ two_digits (minute dt)
  +:+ ":" +:+ two_digits (second dt).

End PyDatetime.

(** ** gemini_auth_utils.py *)

Module GeminiAuthHelper.
Import PyStr Re Soup Run.
Local Open Scope run_scope.

(** [GeminiAuthConfig] *)
Record GeminiAuthConfig : Type := mkConfig {
  mail_api : string;
  admin_key : string;
  email_domains : list string;
  google_mail : string;
  login_url : string
}.

(** The dict [extract_config_from_driver] returns. *)
Record RegisterConfig : Type := mkRegisterConfig {
  rc_id : string;
  rc_csesidx : string;
  rc_config_id : string;
  rc_secure_c_ses : string;
  rc_host_c_oses : string;
  rc_expires_at : option string
}.

(** *** _extract_code_from_html *)

(** [r'^[A-Za-z0-9]{6}$'] *)
Definition six_alnum : regex := Cat Bol (Cat (Times 6 is_alnum) Eol).

(** [[:\s]] *)
Definition colon_or_space (c : ascii) : bool := Ascii.eqb c ":" || is_space c.

(** The four patterns of method 3, in the order of the list. *)
Definition keyword_pattern : regex :=
  Cat (Alt (Lit "code") (Alt (Lit "Code") (Alt (Lit "CODE") (Lit "verification"))))
      (Cat (Plus colon_or_space) (Cat (Group (Times 6 is_alnum)) WordBoundary)).
Definition digits_pattern : regex :=
  Cat WordBoundary (Cat (Group (Times 6 is_digit)) WordBoundary).
Definition upper_pattern : regex :=
  Cat WordBoundary (Cat (Group (Times 6 is_upper_digit)) WordBoundary).
Definition alnum_pattern : regex :=
  Cat WordBoundary (Cat (Group (Times 6 is_alnum)) WordBoundary).

Definition patterns : list regex :=
  [keyword_pattern; digits_pattern; upper_pattern; alnum_pattern].

Definition class_patterns : list string :=
  ["verification-code"; "verification_code"; "code"; "otp"; "pin"].

Definition tags : list string :=
  ["strong"; "b"; "h1"; "h2"; "h3"; "span"; "div"; "p"; "td"].

(** [lambda x: x and class_pattern in str(x).lower()] *)
Definition class_test (class_pattern : string) (x : string) : bool :=
  truthy x && contains class_pattern (lower x).

(** The inner [for el in ...] of methods 1 and 2: the stripped text of the
    first element whose text is six alphanumerics. *)
Fixpoint first_code (els : list node) : option string :=
  match els with
  | [] => None
  | el :: els' =>
      let text := strip (get_text el) in
      if is_some (re_match six_alnum text) then Some text else first_code els'
  end.

(** An outer [for] whose body may return. *)
Fixpoint first_found {A B : Type} (f : A -> option B) (l : list A) : option B :=
  match l with
  | [] => None
  | x :: l' =>
      match f x with
      | Some b => Some b
      | None => first_found f l'
      end
  end.

(** The [for pattern in patterns] of method 3: [return match.group(1)] at
    the first pattern that is found. *)
Fixpoint first_match (pats : list regex) (plain_text : string) : option string :=
  match pats with
  | [] => None
  | pattern :: pats' =>
      match re_search pattern plain_text with
      | Some m => m
      | None => first_match pats' plain_text
      end
  end.

Section Extraction.
(** [BeautifulSoup(content, "html.parser")], the parser of bs4. *)
Variable BeautifulSoup : string -> list node.

Definition _extract_code_from_html (content : string) : option string :=
  if negb (truthy content) then None
  else
    let soup := BeautifulSoup content in
    match first_found
            (fun class_pattern =>
               first_code (find_all (class_is (class_test class_pattern)) soup))
            class_patterns with
    | Some text => Some text
    | None =>
        match first_found (fun tag => first_code (find_all (named tag) soup)) tags with
        | Some text => Some text
        | None => first_match patterns (soup_text soup)
        end
    end.
End Extraction.

(** How one part of a loop round ends. *)
Inductive flow (A : Type) : Type :=
| Return (a : A)     (* [return a] *)
| Continue           (* [continue] *)
| Fall.              (* the end of the block is reached *)
Arguments Return {A} a.
Arguments Continue {A}.
Arguments Fall {A}.

Section Helper.
Context {W : Type}.
Variable world : World W.
Variable config : GeminiAuthConfig.
(** [BeautifulSoup(content, "html.parser")] and [json.loads]. *)
Variable BeautifulSoup : string -> list node.
Variable json_loads : string -> exn + json.

Definition lift {A : Type} (r : exn + A) : M W A :=
  match r with
  | inr a => ret a
  | inl e => raise e
  end.

Definition sleep (ms : Z) : M W unit := effect (time_sleep world ms).

(** *** get_verification_code *)

(** [requests.get(f"{mail_api}/api/emails", params={"email": email},
    headers={"X-API-Key": admin_key}, ...)] *)
Definition get_api_emails (email : string) : M W response :=
  requests_get world (mail_api config +:+ "/api/emails")
    [("email", email)] [("X-API-Key", admin_key config)].

(** [requests.get(f"{mail_api}/admin/mails?limit=20&offset=0",
    headers={"x-admin-auth": admin_key}, ...)] *)
Definition get_admin_mails : M W response :=
  requests_get world (mail_api config +:+ "/admin/mails?limit=20&offset=0")
    [] [("x-admin-auth", admin_key config)].

(** [data.get("data", {}).get("emails", []) or data.get("emails", [])],
    then [or data.get(k, [])] for each further key. *)
Fixpoint or_gets (data : json) (acc : json) (keys : list string) : exn + json :=
  match keys with
  | [] => inr acc
  | k :: keys' =>
      if PyJson.truthy acc then inr acc
      else
        match PyJson.get data k (JList []) with
        | inr v => or_gets data v keys'
        | inl e => inl e
        end
  end.

Definition emails_of (data : json) (more_keys : list string) : exn + json :=
  match data with
  | JDict _ =>
      match PyJson.get data "data" (JDict []) with
      | inr d =>
          match PyJson.get d "emails" (JList []) with
          | inr e1 => or_gets data e1 more_keys
          | inl e => inl e
          end
      | inl e => inl e
      end
  | JList _ => inr data
  | _ => inr (JList [])
  end.

(** The baseline taken when the caller gives no [old_email_id]. *)
Definition capture_baseline (email : string) (old_email_id : json) : M W json :=
  match old_email_id with
  | JNull =>
      try_except
        (r <- get_api_emails email ;;
         if status_code r =? 200 then
           data <- lift (json_body r) ;;
           emails <- lift (emails_of data ["emails"]) ;;
           if PyJson.truthy emails then
             first <- lift (PyJson.index0 emails) ;;
             lift (PyJson.get first "id" JNull)
           else ret old_email_id
         else ret old_email_id)
        (fun _ => ret old_email_id)
  | _ => ret old_email_id
  end.

(** [latest_email.get(k1) or latest_email.get(k2) or ...], ending in the
    empty string. *)
Fixpoint first_truthy (d : json) (keys : list string) : exn + json :=
  match keys with
  | [] => inr (JStr EmptyString)
  | k :: keys' =>
      match PyJson.get d k JNull with
      | inr v => if PyJson.truthy v then inr v else first_truthy d keys'
      | inl e => inl e
      end
  end.

(** [self._extract_code_from_html(content)] on whatever the message holds
    under the body key; the parser accepts text only. *)
Definition extract_code (content : json) : exn + option string :=
  if negb (PyJson.truthy content) then inr None
  else
    match content with
    | JStr s => inr (_extract_code_from_html BeautifulSoup s)
    | _ => inl (PyException "TypeError" "markup is not a string")
    end.

(** Way 1 of a round, inside its [try]. *)
Definition poll_api_emails (email : string) (old_email_id : json)
  : M W (flow json) :=
  r <- get_api_emails email ;;
  if status_code r =? 200 then
    data <- lift (json_body r) ;;
    emails <- lift (emails_of data ["emails"; "messages"]) ;;
    if PyJson.truthy emails then
      latest_email <- lift (PyJson.index0 emails) ;;
      new_email_id <- lift (PyJson.get latest_email "id" JNull) ;;
      if PyJson.truthy old_email_id && PyJson.eq new_email_id old_email_id then
        sleep 2000 ;;; ret Continue
      else
        content <- lift (first_truthy latest_email
                           ["html_content"; "html"; "body"; "content"; "text"]) ;;
        code <- lift (extract_code content) ;;
        match code with
        | Some c => if truthy c then ret (Return (JStr c)) else ret Fall
        | None => ret Fall
        end
    else ret Fall
  else ret Fall.

(** [json.loads(mail.get("metadata", "{}"))] *)
Definition loads (v : json) : exn + json :=
  match v with
  | JStr s => json_loads s
  | _ => inl (PyException "TypeError" "the JSON object must be str")
  end.

(** The inner [try] of way 2 for one matching mail. *)
Definition ai_extract_result (mail : json) : exn + json :=
  match PyJson.get mail "metadata" (JStr "{}") with
  | inr raw =>
      match loads raw with
      | inr metadata =>
          match PyJson.get metadata "ai_extract" (JDict []) with
          | inr ai => PyJson.get ai "result" JNull
          | inl e => inl e
          end
      | inl e => inl e
      end
  | inl e => inl e
  end.

(** [for mail in emails] of way 2. *)
Fixpoint scan_admin_mails (email : string) (mails : list json) : exn + option json :=
  match mails with
  | [] => inr None
  | mail :: mails' =>
      match PyJson.get mail "address" JNull with
      | inl e => inl e
      | inr address =>
          if PyJson.eq address (JStr email) then
            match PyJson.get mail "source" JNull with
            | inl e => inl e
            | inr source =>
                if PyJson.eq source (JStr (google_mail config)) then
                  match ai_extract_result mail with
                  | inr code =>
                      if PyJson.truthy code then inr (Some code)
                      else scan_admin_mails email mails'
                  | inl _ => scan_admin_mails email mails'
                  end
                else scan_admin_mails email mails'
            end
          else scan_admin_mails email mails'
      end
  end.

(** Way 2 of a round, inside its [try]. *)
Definition poll_admin_mails (email : string) : M W (option json) :=
  r <- get_admin_mails ;;
  if status_code r =? 200 then
    data <- lift (json_body r) ;;
    results <- lift (PyJson.get data "results" (JList [])) ;;
    mails <- lift (PyJson.iter results) ;;
    lift (scan_admin_mails email mails)
  else ret None.

(** One round of the [while] loop; the [continue] of way 1 has already
    slept. *)
Definition poll_round (email : string) (old_email_id : json) : M W (option json) :=
  way1 <- try_except (poll_api_emails email old_email_id) (fun _ => ret Fall) ;;
  match way1 with
  | Return code => ret (Some code)
  | Continue => ret None
  | Fall =>
      way2 <- try_except (poll_admin_mails email) (fun _ => ret None) ;;
      match way2 with
      | Some code => ret (Some code)
      | None => sleep 2000 ;;; ret None
      end
  end.

(** [get_verification_code(email, timeout, old_email_id)]; [timeout] is in
    seconds, and [JNull] stands for an absent [old_email_id]. *)
Definition get_verification_code (email : string) (timeout : Z)
    (old_email_id : json) : M W (option json) :=
  start <- read (time_time world) ;;
  old_email_id <- capture_baseline email old_email_id ;;
  while_before (time_time world) (rounds (1000 * timeout) 2000)
    start (1000 * timeout) (poll_round email old_email_id).

(** The mailbox feed answers in world [w], and the id of its newest
    message, read the way [get_verification_code] reads it, is [mid]. *)
Definition newest_id_is (email mid : string) (w : W) : Prop :=
  exists r w' data emails latest,
    get_api_emails email w = (inr r, w') /\
    status_code r = 200 /\
    json_body r = inr data /\
    emails_of data ["emails"; "messages"] = inr emails /\
    PyJson.truthy emails = true /\
    PyJson.index0 emails = inr latest /\
    PyJson.get latest "id" JNull = inr (JStr mid).

(** *** disable_resend_buttons and _dispatch_input_change *)

(** The scripts handed to [driver.execute_script], by what they do. *)
Definition DISABLE_RESEND_JS : string := "disable every button whose text is resend-like; return count".
Definition DISPATCH_JS : string := "arguments[0].dispatchEvent(input); arguments[0].dispatchEvent(change);".
Definition ASSIGN_JS : string := "arguments[0].value = arguments[1];".
Definition WINDOW_OPEN_JS : string := "window.open('');".

Definition Keys_CONTROL : string := "<CONTROL>".
Definition Keys_BACKSPACE : string := "<BACKSPACE>".

Definition disable_resend_buttons : M W Z :=
  try_except
    (n <- execute_script world DISABLE_RESEND_JS [] ;;
     ret (match n with Some n => n | None => 0 end))
    (fun _ => ret 0).

Definition _dispatch_input_change (element : string) : M W unit :=
  attempt (execute_script world DISPATCH_JS [element] ;;; ret tt).

(** *** fill_verification_code *)

Definition PIN_INPUT : string := "input[name='pinInput']".
Definition OTP_FIRST : string := "span[data-index='0']".

(** [p.get_attribute("value")], or the empty string when that is [None]. *)
Definition value_or_empty (p : string) : M W string :=
  v <- get_attribute world p "value" ;;
  ret (match v with Some s => s | None => EmptyString end).

(** The values of [pins] joined, as [_poll_typed] reads them. *)
Fixpoint joined_values (pins : list string) : M W string :=
  match pins with
  | [] => ret EmptyString
  | p :: pins' =>
      v <- value_or_empty p ;;
      vs <- joined_values pins' ;;
      ret (v +:+ vs)
  end.

(** [_poll_typed(pins, expected, timeout=2.0)] *)
Definition _poll_typed (pins : list string) (expected : string) : M W bool :=
  start <- read (time_time world) ;;
  r <- while_before (time_time world) (rounds 2000 100) start 2000
         (last <- try_except (joined_values (firstn 6 pins)) (fun _ => ret EmptyString) ;;
          if String.eqb last expected then ret (Some true)
          else sleep 100 ;;; ret None) ;;
  ret (match r with Some b => b | None => false end).

(** Select-all and backspace, else [clear()], else nothing. *)
Definition wipe (element : string) : M W unit :=
  try_except
    (send_keys world element [Keys_CONTROL; "a"] ;;;
     send_keys world element [Keys_BACKSPACE])
    (fun _ => attempt (clear world element)).

(** [for i, ch in enumerate(code[:6])] of the six-box shape; [pins] and
    [chars] advance together. *)
Fixpoint type_boxes (pins : list string) (chars : string) (pause : Z) : M W unit :=
  match chars, pins with
  | String ch chars', pin :: pins' =>
      attempt (click world pin) ;;;
      sleep 50 ;;;
      wipe pin ;;;
      send_keys world pin [String ch EmptyString] ;;;
      sleep pause ;;;
      type_boxes pins' chars' pause
  | _, _ => ret tt
  end.

Definition head_pin (pins : list string) : string :=
  match pins with p :: _ => p | [] => EmptyString end.

(** [for attempt in range(3)] of the six-box shape; [true] is
    [return True] from inside the loop, [false] its normal end. *)
Fixpoint six_boxes_attempts (k : nat) (attempt_no : Z) (pins : list string)
    (code : string) : M W bool :=
  match k with
  | O => ret false
  | S k' =>
      type_boxes pins (String.substring 0 6 code)
        (if attempt_no =? 0 then 100 else 140) ;;;
      ok <- _poll_typed pins code ;;
      if ok then ret true
      else
        attempt (click world (head_pin pins) ;;;
                 sleep 100 ;;;
                 focused <- active_element world ;;
                 send_keys world focused [code]) ;;;
        ok <- _poll_typed pins code ;;
        if ok then ret true
        else six_boxes_attempts k' (attempt_no + 1) pins code
  end.

(** The body of the [try] of shape 1.  [Return b] is [return b]; [Fall]
    is the end of the block (fewer than six boxes). *)
Definition six_boxes (code : string) : M W (flow bool) :=
  pins <- find_elements world PIN_INPUT ;;
  if (6 <=? length pins)%nat then
    _ <- six_boxes_attempts 3 0 pins code ;;
    ret (Return true)
  else ret Fall.

(** The body of the [try] of shape 2. *)
Definition single_box (code : string) : M W (flow bool) :=
  pin <- until_clickable world PIN_INPUT ;;
  attempt (click world pin) ;;;
  sleep 100 ;;;
  wipe pin ;;;
  sleep 50 ;;;
  send_keys world pin [code] ;;;
  start <- read (time_time world) ;;
  seen <- while_before (time_time world) (rounds 2000 100) start 2000
            (v <- value_or_empty pin ;;
             if String.eqb (strip v) code then ret (Some true)
             else sleep 100 ;;; ret None) ;;
  match seen with
  | Some _ => ret (Return true)
  | None =>
      _ <- try_except
             (execute_script world ASSIGN_JS [pin; code] ;;;
              _dispatch_input_change pin ;;;
              sleep 200 ;;;
              v <- value_or_empty pin ;;
              ret (String.eqb (strip v) code))
             (fun _ => ret false) ;;
      ret (Return true)
  end.

(** The body of the [try] of shape 3. *)
Definition otp_container (code : string) : M W (flow bool) :=
  first <- until_clickable world OTP_FIRST ;;
  click world first ;;;
  sleep 200 ;;;
  focused <- active_element world ;;
  send_keys world focused [code] ;;;
  sleep 200 ;;;
  pins <- find_elements world PIN_INPUT ;;
  (if (6 <=? length pins)%nat then _poll_typed pins code else ret false) ;;;
  ret (Return true).

(** The body of the [try] of step 4: send the code to whatever has the
    focus. *)
Definition send_to_focus (code : string) : M W bool :=
  focused <- active_element world ;;
  send_keys world focused [code] ;;;
  ret true.

(** Step 4 with its [except Exception: return False]. *)
Definition last_resort (code : string) : M W bool :=
  try_except (send_to_focus code) (fun _ => ret false).

(** [try: shape  except Exception: (log)], then the next shape unless the
    shape returned. *)
Definition or_next (shape : M W (flow bool)) (next : M W bool) : M W bool :=
  r <- try_except shape (fun _ => ret Fall) ;;
  match r with
  | Return b => ret b
  | _ => next
  end.

Definition fill_verification_code (code : string) : M W bool :=
  let code := strip code in
  disable_resend_buttons ;;;
  if negb (String.length code =? 6)%nat then ret false
  else
    or_next (six_boxes code)
      (or_next (single_box code)
         (or_next (otp_container code) (last_resort code))).

(** *** wait_for_workspace and _recover_from_crash *)

Definition workspace_url : string := "https://business.gemini.google/".

Definition str_in (h : string) (l : list string) : bool :=
  existsb (String.eqb h) l.

(** The first handle of [new_handles] that is not in [original_handles]. *)
Fixpoint first_new (new_handles original_handles : list string) : option string :=
  match new_handles with
  | [] => None
  | handle :: rest =>
      if negb (str_in handle original_handles) then Some handle
      else first_new rest original_handles
  end.

Fixpoint close_all (handles : list string) : M W unit :=
  match handles with
  | [] => ret tt
  | handle :: rest =>
      attempt (switch_to_window world handle ;;; close world) ;;;
      close_all rest
  end.

Definition _recover_from_crash (target_url : string) : M W bool :=
  try_except
    (original_handles <- window_handles world ;;
     execute_script world WINDOW_OPEN_JS [] ;;;
     sleep 500 ;;;
     new_handles <- window_handles world ;;
     match first_new new_handles original_handles with
     | None => ret false
     | Some new_handle =>
         if negb (truthy new_handle) then ret false
         else
           switch_to_window world new_handle ;;;
           close_all original_handles ;;;
           switch_to_window world new_handle ;;;
           get world target_url ;;;
           sleep 3000 ;;;
           ret true
     end)
    (fun _ => ret false).

(** What both crash branches do; the answer carries the new
    [crash_count]. *)
Definition on_crash (crash_count max_crash_retries : Z) : M W (flow bool * Z) :=
  let crash_count := crash_count + 1 in
  if max_crash_retries <=? crash_count then ret (Return false, crash_count)
  else
    recovered <- _recover_from_crash workspace_url ;;
    if recovered then sleep 3000 ;;; ret (Continue, crash_count)
    else ret (Return false, crash_count).

Definition is_crashed (page_source : string) : bool :=
  contains "crashed" (lower page_source) || contains "aw, snap" (lower page_source).

Definition looks_like_crash (error_msg : string) : bool :=
  contains "crash" error_msg || contains "tab" error_msg
  || contains "target window" error_msg.

Definition at_workspace (url : string) : bool :=
  contains "business.gemini.google" url && contains "/cid/" url.

(** One round of [for _ in range(timeout)]. *)
Definition workspace_round (crash_count max_crash_retries : Z)
  : M W (flow bool * Z) :=
  sleep 1000 ;;;
  try_except
    (source <- page_source world ;;
     if is_crashed source then on_crash crash_count max_crash_retries
     else
       url <- current_url world ;;
       if at_workspace url then ret (Return true, crash_count)
       else ret (Fall, crash_count))
    (fun e =>
       if looks_like_crash (lower (str_exn e))
       then on_crash crash_count max_crash_retries
       else ret (Fall, crash_count)).

(** The loop, answering the result together with the final
    [crash_count]. *)
Fixpoint workspace_rounds (n : nat) (crash_count max_crash_retries : Z)
  : M W (bool * Z) :=
  match n with
  | O => ret (false, crash_count)
  | S n' =>
      r <- workspace_round crash_count max_crash_retries ;;
      match r with
      | (Return b, crash_count') => ret (b, crash_count')
      | (_, crash_count') => workspace_rounds n' crash_count' max_crash_retries
      end
  end.

Definition wait_for_workspace (timeout max_crash_retries : Z) : M W bool :=
  r <- workspace_rounds (Z.to_nat timeout) 0 max_crash_retries ;;
  ret (fst r).

(** *** extract_config_from_driver *)

(** The local time zone, and
    [parse_qs(urlparse(url).query).get("csesidx", [None])[0]]. *)
Variable utcoffset : Z -> Z.
Variable csesidx_of : string -> option string.

(** [s.split(sep)] for a one-character separator. *)
Fixpoint split_on (sep : ascii) (s : string) : list string :=
  match s with
  | EmptyString => [EmptyString]
  | String c s' =>
      if Ascii.eqb c sep then EmptyString :: split_on sep s'
      else
        match split_on sep s' with
        | piece :: pieces => String c piece :: pieces
        | [] => [String c EmptyString]
        end
  end.

(** The [for i, p in enumerate(parts)] that looks for the path segment
    after [cid]. *)
Fixpoint config_id_of (parts : list string) : option string :=
  match parts with
  | [] => None
  | p :: rest =>
      match rest with
      | next :: _ =>
          if String.eqb p "cid"
          then Some (List.hd EmptyString (split_on "?" next))
          else config_id_of rest
      | [] => None
      end
  end.

(** [{c.get("name"): c for c in cookies}.get(name, {})]: the last cookie of
    that name. *)
Fixpoint cookie_named (name : string) (cookies : list cookie) : option cookie :=
  match cookies with
  | [] => None
  | c :: cookies' =>
      match cookie_named name cookies' with
      | Some later => Some later
      | None =>
          match cookie_name c with
          | Some n => if String.eqb n name then Some c else None
          | None => None
          end
      end
  end.

(** [cookie.get("value")] when it is truthy. *)
Definition truthy_value (c : option cookie) : option string :=
  match c with
  | Some c =>
      match cookie_value c with
      | Some v => if truthy v then Some v else None
      | None => None
      end
  | None => None
  end.

Definition truthy_opt (o : option string) : option string :=
  match o with
  | Some v => if truthy v then Some v else None
  | None => None
  end.

(** [ses_cookie.get("expiry")] *)
Definition expiry_of (c : option cookie) : option Z :=
  match c with
  | Some c => cookie_expiry c
  | None => None
  end.

(** The expiry written into the config: none when the cookie has no
    truthy expiry. *)
Definition expires_at_of (expiry : option Z) : exn + option string :=
  match expiry with
  | Some t =>
      if t =? 0 then inr None
      else
        match PyDatetime.fromtimestamp utcoffset (t - 43200) with
        | inr dt => inr (Some (PyDatetime.strftime dt))
        | inl e => inl e
        end
  | None => inr None
  end.

(** One round of the polling loop on what the driver showed: the config
    dict when the four fields are there. *)
Definition config_from (email url : string) (cookies : list cookie)
  : exn + option RegisterConfig :=
  let csesidx := csesidx_of url in
  let config_id := config_id_of (split_on "/" url) in
  let ses_cookie := cookie_named "__Secure-C_SES" cookies in
  let host_cookie := cookie_named "__Host-C_OSES" cookies in
  match truthy_value ses_cookie, truthy_value host_cookie,
        truthy_opt csesidx, truthy_opt config_id with
  | Some ses, Some host, Some csesidx, Some config_id =>
      match expires_at_of (expiry_of ses_cookie) with
      | inr expires_at =>
          inr (Some {| rc_id := email; rc_csesidx := csesidx;
                       rc_config_id := config_id; rc_secure_c_ses := ses;
                       rc_host_c_oses := host; rc_expires_at := expires_at |})
      | inl e => inl e
      end
  | _, _, _, _ => inr None
  end.

(** [extract_config_from_driver(driver, email, timeout)]; the calls after
    the loop only feed the log line. *)
Definition extract_config_from_driver (email : string) (timeout : Z)
  : M W (option RegisterConfig) :=
  start <- read (time_time world) ;;
  found <- while_before (time_time world) (rounds (1000 * timeout) 500)
             start (1000 * timeout)
             (url <- current_url world ;;
              cookies <- get_cookies world ;;
              r <- lift (config_from email url cookies) ;;
              match r with
              | Some cfg => ret (Some cfg)
              | None => sleep 500 ;;; ret None
              end) ;;
  match found with
  | Some cfg => ret (Some cfg)
  | None =>
      current_url world ;;;
      get_cookies world ;;;
      ret None
  end.

End Helper.

End GeminiAuthHelper.

(** ** A scripted browser and mail relay *)

(** A stand-in for the driver and the relay, for the closed examples: the
    page shows the entries of a script, one per poll of [page_source] (the
    last entry stays); tabs are named by a counter; a dead browser raises on
    every driver call; the relay answers every request to the mailbox feed
    with one fixed response and every other request with another. *)
Module Stub.
Import PyStr.

Record page : Type := mkPage { source : string; url : string }.

Record state : Type := mkState {
  clock : Z;
  alive : bool;
  script : list page;
  shown : page;
  handles : list string;
  current : string;
  opened : nat;
  visited : list string;
  cookies : list cookie
}.

Definition dead : exn := PyException "WebDriverException" "chrome not reachable".
Definition not_found : exn := PyException "TimeoutException" "no such element".

Definition driver_call {A : Type} (s : state) (r : (exn + A) * state)
  : (exn + A) * state :=
  if alive s then r else (inl dead, s).

Definition set_clock (t : Z) (s : state) : state :=
  {| clock := t; alive := alive s; script := script s; shown := shown s;
     handles := handles s; current := current s; opened := opened s;
     visited := visited s; cookies := cookies s |}.

Definition set_page (p : page) (rest : list page) (s : state) : state :=
  {| clock := clock s; alive := alive s; script := rest; shown := p;
     handles := handles s; current := current s; opened := opened s;
     visited := visited s; cookies := cookies s |}.

Definition set_tabs (hs : list string) (cur : string) (n : nat) (s : state) : state :=
  {| clock := clock s; alive := alive s; script := script s; shown := shown s;
     handles := hs; current := cur; opened := n;
     visited := visited s; cookies := cookies s |}.

Definition set_visited (v : list string) (s : state) : state :=
  {| clock := clock s; alive := alive s; script := script s; shown := shown s;
     handles := handles s; current := current s; opened := opened s;
     visited := v; cookies := cookies s |}.

Definition poll_page (s : state) : (exn + string) * state :=
  match script s with
  | p :: (_ :: _) as rest => (inr (source p), set_page p rest s)
  | [p] => (inr (source p), set_page p [p] s)
  | [] => (inr (source (shown s)), s)
  end.

Definition tab_name (n : nat) : string := "tab-" +:+ str_int (Z.of_nat n).

Definition run_script (js : string) (s : state) : (exn + option Z) * state :=
  if String.eqb js "window.open('');" then
    (inr None,
     set_tabs (handles s ++ [tab_name (S (opened s))])%list (current s) (S (opened s)) s)
  else (inr (Some 0), s).

Definition switch (h : string) (s : state) : (exn + unit) * state :=
  if existsb (String.eqb h) (handles s)
  then (inr tt, set_tabs (handles s) h (opened s) s)
  else (inl (PyException "NoSuchWindowException" "no such window"), s).

Definition close_current (s : state) : (exn + unit) * state :=
  (inr tt,
   set_tabs (List.filter (fun h => negb (String.eqb h (current s))) (handles s))
     (current s) (opened s) s).

Definition world (feed admin : response) : World state :=
  {| time_time := clock;
     time_sleep := fun ms s => set_clock (clock s + ms) s;
     requests_get := fun url _ _ s =>
       if contains "/api/emails" url then (inr feed, s) else (inr admin, s);
     execute_script := fun js _ s => driver_call s (run_script js s);
     find_elements := fun _ s => driver_call s (inr [], s);
     until_clickable := fun _ s => driver_call s (inl not_found, s);
     click := fun _ s => driver_call s (inr tt, s);
     send_keys := fun _ _ s => driver_call s (inr tt, s);
     clear := fun _ s => driver_call s (inr tt, s);
     get_attribute := fun _ _ s => driver_call s (inr None, s);
     active_element := fun s => driver_call s (inr "body", s);
     page_source := fun s => driver_call s (poll_page s);
     current_url := fun s => driver_call s (inr (url (shown s)), s);
     window_handles := fun s => driver_call s (inr (handles s), s);
     switch_to_window := fun h s => driver_call s (switch h s);
     close := fun s => driver_call s (close_current s);
     get := fun u s => driver_call s (inr tt, set_visited (u :: visited s) s);
     get_cookies := fun s => driver_call s (inr (cookies s), s) |}.

Definition blank : page := {| source := "<html></html>"; url := "about:blank" |}.

(** A browser with one tab, at the first of [pages]. *)
Definition browser (pages : list page) (jar : list cookie) : state :=
  {| clock := 0; alive := true; script := pages; shown := List.hd blank pages;
     handles := ["tab-0"]; current := "tab-0"; opened := 0;
     visited := []; cookies := jar |}.

(** A browser whose process is gone. *)
Definition dead_browser : state :=
  {| clock := 0; alive := false; script := []; shown := blank;
     handles := []; current := EmptyString; opened := 0; visited := []; cookies := [] |}.

Definition no_mail : response := {| status_code := 200; json_body := inr (JList []) |}.

Definition crashed_page : page :=
  {| source := "<html><body>Aw, Snap! The page crashed.</body></html>";
     url := "https://auth.business.gemini.google/login" |}.

Definition workspace_page : page :=
  {| source := "<html><body>Welcome</body></html>";
     url := "https://business.gemini.google/home/cid/abc-123?csesidx=42" |}.

End Stub.

(** ** register_service.py *)

Module RegisterService.

Inductive RegisterStatus : Type := PENDING | RUNNING | SUCCESS | FAILED.

#[global] Instance RegisterStatus_eq_dec : EqDecision RegisterStatus.
Proof. solve_decision. Defined.

(** The record written by [_save_config] and carried in a result. *)
Record SavedConfig : Type := mkSavedConfig {
  cfg_id : string;
  cfg_csesidx : string;
  cfg_config_id : string;
  cfg_secure_c_ses : string;
  cfg_host_c_oses : string;
  cfg_expires_at : option string
}.

(** The dict every exit of [_register_one_sync_inner] builds:
    [{"email", "success", "config", "error"}]. *)
Record AttemptResult : Type := mkAttemptResult {
  email : option string;
  success : bool;
  config : option SavedConfig;
  error : option string
}.

(** [RegisterTask] (the dataclass); [created_at] and [finished_at] are clock
    readings. *)
Record RegisterTask : Type := mkRegisterTask {
  id : string;
  count : Z;
  status : RegisterStatus;
  progress : Z;
  success_count : Z;
  fail_count : Z;
  created_at : Z;
  finished_at : option Z;
  results : list AttemptResult;
  task_error : option string
}.

(** The mutable fields of a [RegisterService] instance.  [_tasks] holds the
    task objects themselves: the background run mutates the object that the
    dict refers to, so a task is read and written through its id. *)
Record Service : Type := mkService {
  _tasks : gmap string RegisterTask;
  _current_task_id : option string;
  _email_queue : list string;
  _specified_domain : option string
}.

(** [RegisterService.__init__] *)
Definition init : Service :=
  {| _tasks := ∅; _current_task_id := None;
     _email_queue := []; _specified_domain := None |}.

Definition ACCOUNT_TIMEOUT : Z := 90.

(** *** run_with_timeout *)

(** What the caller of [run_with_timeout] finds after
    [thread.join(timeout=timeout_seconds)]: the worker stored a result, or
    stored the exception it caught, or is still alive. *)
Inductive worker (A : Type) : Type :=
| Returned (r : A)
| Raised (e : exn)
| StillAlive.
Arguments Returned {A} r.
Arguments Raised {A} e.
Arguments StillAlive {A}.

Definition run_with_timeout {A : Type} (w : worker A) (timeout_seconds : Z)
  : exn + A :=
  match w with
  | StillAlive =>
      inl (TimeoutException ("操作超时 (>" +:+ str_int timeout_seconds +:+ "s)"))
  | Raised e => inl e
  | Returned r => inr r
  end.

(** [_register_one_sync]: the attempt under the guard.  The argument is the
    fate of the worker running [_register_one_sync_inner]. *)
Definition _register_one_sync (w : worker AttemptResult) : AttemptResult :=
  match run_with_timeout w ACCOUNT_TIMEOUT with
  | inr r => r
  | inl (TimeoutException _) =>
      {| email := None; success := false; config := None;
         error := Some ("超时(>" +:+ str_int ACCOUNT_TIMEOUT +:+ "s)") |}
  | inl e =>
      {| email := None; success := false; config := None;
         error := Some (str_exn e) |}
  end.

(** *** start_register *)

(** Python truthiness of a [str]. *)
Definition truthy_str (s : string) : bool :=
  match s with EmptyString => false | _ => true end.

(** [RegisterTask(id=..., count=count)] with the dataclass defaults. *)
Definition new_task (uuid : string) (cnt : Z) (now : Z) : RegisterTask :=
  {| id := uuid; count := cnt; status := PENDING; progress := 0;
     success_count := 0; fail_count := 0; created_at := now;
     finished_at := None; results := []; task_error := None |}.

(** The guard at the top of [start_register]. *)
Definition already_running (s : Service) : bool :=
  match _current_task_id s with
  | Some cur =>
      truthy_str cur &&
      match _tasks s !! cur with
      | Some current_task => bool_decide (status current_task = RUNNING)
      | None => false
      end
  | None => false
  end.

(** [start_register(count, domain)].  [uuid] is the value of
    [str(uuid.uuid4())] and [now] the clock reading of the dataclass default.
    The coroutine has no suspension point, so it is one step on the service;
    [asyncio.create_task] only schedules the background run, which starts
    at a later turn of the event loop. *)
Definition start_register (s : Service) (cnt : Z) (domain : option string)
    (uuid : string) (now : Z) : (exn + RegisterTask) * Service :=
  if already_running s then
    (inl (PyException "ValueError" "已有注册任务在运行中"), s)
  else
    let task := new_task uuid cnt now in
    (inr task,
     {| _tasks := <[id task := task]> (_tasks s);
        _current_task_id := Some (id task);
        _email_queue := _email_queue s;
        _specified_domain := domain |}).

(** *** _run_register_async *)

(** What the two awaits of one round of the loop do.  At
    [await loop.run_in_executor(self._executor, self._register_one_sync)] the
    attempt ran (with the given fate of its guarded worker), or the await
    raised an [Exception], or the run was cancelled there ([CancelledError],
    which [except Exception] does not catch).  The worker of an attempt that
    ran has one of the three fates of [worker]: it returned, raised an
    [Exception], or outlived its deadline.  At
    [await asyncio.sleep(random.randint(2, 5))], which follows the recording
    of the result in every round but the last, the sleep ends ([Ran]) or the
    run is cancelled in it ([CancelledAsleep]). *)
Inductive executor_event : Type :=
| Ran (w : worker AttemptResult)
| AwaitRaised (e : exn)
| Cancelled
| CancelledAsleep (w : worker AttemptResult).

Definition set_progress (t : RegisterTask) (p : Z) : RegisterTask :=
  {| id := id t; count := count t; status := status t; progress := p;
     success_count := success_count t; fail_count := fail_count t;
     created_at := created_at t; finished_at := finished_at t;
     results := results t; task_error := task_error t |}.

Definition set_status (t : RegisterTask) (st : RegisterStatus) : RegisterTask :=
  {| id := id t; count := count t; status := st; progress := progress t;
     success_count := success_count t; fail_count := fail_count t;
     created_at := created_at t; finished_at := finished_at t;
     results := results t; task_error := task_error t |}.

Definition set_error (t : RegisterTask) (e : string) : RegisterTask :=
  {| id := id t; count := count t; status := status t; progress := progress t;
     success_count := success_count t; fail_count := fail_count t;
     created_at := created_at t; finished_at := finished_at t;
     results := results t; task_error := Some e |}.

Definition set_finished_at (t : RegisterTask) (now : Z) : RegisterTask :=
  {| id := id t; count := count t; status := status t; progress := progress t;
     success_count := success_count t; fail_count := fail_count t;
     created_at := created_at t; finished_at := Some now;
     results := results t; task_error := task_error t |}.

(** [task.results.append(result)] and the counter update after it. *)
Definition record_result (t : RegisterTask) (r : AttemptResult) : RegisterTask :=
  {| id := id t; count := count t; status := status t; progress := progress t;
     success_count := if success r then success_count t + 1 else success_count t;
     fail_count := if success r then fail_count t else fail_count t + 1;
     created_at := created_at t; finished_at := finished_at t;
     results := results t ++ [r]; task_error := task_error t |}.

(** How the [try] block is left. *)
Inductive loop_exit : Type :=
| Completed
| Caught (e : exn)
| Uncaught.

(** [for i in range(task.count)]: [n] rounds are left and the next index is
    [i].  The jittered [asyncio.sleep] between rounds changes no state, but
    the run can be cancelled in it; after the last round
    ([i < task.count - 1] fails) there is no sleep, and the event of that
    round counts as [Ran]. *)
Fixpoint attempts (env : nat -> executor_event) (n : nat) (i : Z)
    (t : RegisterTask) : loop_exit * RegisterTask :=
  match n with
  | O => (Completed, t)
  | S n' =>
      let t1 := set_progress t (i + 1) in
      match env (Z.to_nat i) with
      | Ran w => attempts env n' (i + 1) (record_result t1 (_register_one_sync w))
      | AwaitRaised e => (Caught e, t1)
      | Cancelled => (Uncaught, t1)
      | CancelledAsleep w =>
          let t2 := record_result t1 (_register_one_sync w) in
          if i <? count t2 - 1 then (Uncaught, t2)
          else attempts env n' (i + 1) t2
      end
  end.

(** The body of [_run_register_async] on the task object, up to and
    including the [except] clause. *)
Definition run_body (env : nat -> executor_event) (t : RegisterTask)
  : loop_exit * RegisterTask :=
  let t0 := set_status t RUNNING in
  match attempts env (Z.to_nat (count t0)) 0 t0 with
  | (Completed, t1) =>
      (Completed,
       set_status t1 (if 0 <? success_count t1 then SUCCESS else FAILED))
  | (Caught e, t1) => (Caught e, set_error (set_status t1 FAILED) (str_exn e))
  | (Uncaught, t1) => (Uncaught, t1)
  end.

(** The [finally] clause: it runs on the service as it is at that moment. *)
Definition run_finally (s : Service) (t : RegisterTask) (now : Z) : Service :=
  {| _tasks := <[id t := set_finished_at t now]> (_tasks s);
     _current_task_id := None;
     _email_queue := _email_queue s;
     _specified_domain := _specified_domain s |}.

(** [_run_register_async(task)]. *)
Definition _run_register_async (s : Service) (t : RegisterTask)
    (env : nat -> executor_event) (now : Z) : loop_exit * Service :=
  let '(ex, t') := run_body env t in (ex, run_finally s t' now).

(** [get_task] and [get_current_task]. *)
Definition get_task (s : Service) (task_id : string) : option RegisterTask :=
  _tasks s !! task_id.

Definition get_current_task (s : Service) : option RegisterTask :=
  match _current_task_id s with
  | Some cur => if truthy_str cur then _tasks s !! cur else None
  | None => None
  end.

End RegisterService.

Module RS := RegisterService.

(** *** Sample runs of the orchestrator *)

Module BatchSamples.
Import RegisterService.

Definition ok_result : AttemptResult :=
  {| email := Some "u1@mail.test"; success := true;
     config := Some {| cfg_id := "u1@mail.test"; cfg_csesidx := "7";
                       cfg_config_id := "c-1"; cfg_secure_c_ses := "S";
                       cfg_host_c_oses := "H"; cfg_expires_at := None |};
     error := None |}.

(** The first attempt hangs past its deadline, every later one succeeds. *)
Definition hang_then_ok (i : nat) : executor_event :=
  match i with
  | O => Ran StillAlive
  | S _ => Ran (Returned ok_result)
  end.

(** A service whose active task has begun to run. *)
Definition running_service : Service :=
  {| _tasks := {[ "t-1" := set_status (new_task "t-1" 2 100) RUNNING ]};
     _current_task_id := Some "t-1";
     _email_queue := []; _specified_domain := None |}.

(** The service right after a first accepted [start_register], before the
    event loop has given the scheduled run its first turn. *)
Definition just_started : Service :=
  snd (start_register init 1 None "t-1" 100).
End BatchSamples.

(** *** Sample mail bodies and parsers *)

Module MailSamples.
Import Soup.

Definition html_body : string :=
  "Hello, your sign-in code: <strong>AB12C9</strong> (valid 10 min)".

(** What the parser builds from [html_body]. *)
Definition html_parser (content : string) : list node :=
  [Text "Hello, your sign-in code: ";
   Tag "strong" [] [Text "AB12C9"];
   Text " (valid 10 min)"].

Definition plain_body : string := "your code is 482913 valid 10 min".

(** What the parser builds from text without markup. *)
Definition text_parser (content : string) : list node := [Text content].
End MailSamples.

(** *** A mailbox whose newest message stays the baseline one *)

Module InboxSamples.

Definition config : GeminiAuthHelper.GeminiAuthConfig :=
  {| GeminiAuthHelper.mail_api := "https://mail.test";
     GeminiAuthHelper.admin_key := "k";
     GeminiAuthHelper.email_domains := [];
     GeminiAuthHelper.google_mail := "noreply@google.com";
     GeminiAuthHelper.login_url := "https://auth.business.gemini.google/login" |}.

(** The feed: one message, id m1, whose body carries a code. *)
Definition feed : response :=
  {| status_code := 200;
     json_body :=
       inr (JDict [("data",
              JDict [("emails",
                JList [JDict [("id", JStr "m1");
                              ("html", JStr "<strong>111111</strong>")]])])]) |}.

(** A text between double quotes. *)
Definition quoted (s : string) : string :=
  String "034" (s +:+ String "034" EmptyString).

(** The metadata text of the mail in [admin], as JSON text: an object with
    the key ai_extract, holding an object with the key result and the
    string 111111. *)
Definition metadata_text : string :=
  "{" +:+ quoted "ai_extract" +:+ ": {" +:+ quoted "result" +:+ ": "
  +:+ quoted "111111" +:+ "}}".

(** The administrative feed lists the same old mail, m1, with its extracted
    code. *)
Definition admin : response :=
  {| status_code := 200;
     json_body :=
       inr (JDict [("results",
              JList [JDict [("id", JStr "m1");
                            ("address", JStr "u1@mail.test");
                            ("source", JStr "noreply@google.com");
                            ("metadata", JStr metadata_text)]])]) |}.

(** [json.loads] on the texts the samples hold: the metadata text of
    [admin] and the empty object; the stub takes any other text not to be
    JSON. *)
Definition json_loads (s : string) : exn + json :=
  if String.eqb s metadata_text
  then inr (JDict [("ai_extract", JDict [("result", JStr "111111")])])
  else if String.eqb s "{}" then inr (JDict [])
  else inl (PyException "JSONDecodeError" "Expecting value").

End InboxSamples.

(** *** Sample browsers *)

Module BrowserSamples.

(** The stub with an empty mailbox. *)
Definition world : World Stub.state := Stub.world Stub.no_mail Stub.no_mail.

(** Crashed on the first two polls, at the workspace on the third. *)
Definition two_crashes : Stub.state :=
  Stub.browser [Stub.crashed_page; Stub.crashed_page; Stub.workspace_page] [].

(** Crashed on the first three polls, at the workspace on the fourth. *)
Definition three_crashes : Stub.state :=
  Stub.browser
    [Stub.crashed_page; Stub.crashed_page; Stub.crashed_page; Stub.workspace_page] [].

End BrowserSamples.

(** *** Sample session cookies *)

Module CookieSamples.

Definition utc (t : Z) : Z := 0.

(** The query parser on the address of [Stub.workspace_page]. *)
Definition csesidx_of (url : string) : option string := Some "42".

Definition session (expiry : option Z) : list cookie :=
  [ {| cookie_name := Some "__Secure-C_SES"; cookie_value := Some "ses-secret";
       cookie_expiry := expiry |};
    {| cookie_name := Some "__Host-C_OSES"; cookie_value := Some "host-secret";
       cookie_expiry := None |} ].

(** A browser that sits at the workspace with its session cookies. *)
Definition at_workspace (expiry : option Z) : Stub.state :=
  Stub.browser [Stub.workspace_page] (session expiry).

(** What is harvested from [at_workspace (Some 1700000000)]. *)
Definition expected_config : GeminiAuthHelper.RegisterConfig :=
  {| GeminiAuthHelper.rc_id := "u1@mail.test";
     GeminiAuthHelper.rc_csesidx := "42";
     GeminiAuthHelper.rc_config_id := "abc-123";
     GeminiAuthHelper.rc_secure_c_ses := "ses-secret";
     GeminiAuthHelper.rc_host_c_oses := "host-secret";
     GeminiAuthHelper.rc_expires_at := Some "2023-11-14 10:13:20" |}.

End CookieSamples.

(** ** The rest of the batch orchestrator *)

Module TaskLedger.
Import RegisterService.

(** The attempts of a result list that succeeded, and those that failed. *)
Definition successes (rs : list AttemptResult) : nat :=
  length (List.filter success rs).

Definition failures (rs : list AttemptResult) : nat :=
  length (List.filter (fun r => negb (success r)) rs).

(** The result that the event of a round leaves in the list, if any. *)
Definition outcome_of (ev : executor_event) : option AttemptResult :=
  match ev with
  | Ran w => Some (_register_one_sync w)
  | CancelledAsleep w => Some (_register_one_sync w)
  | AwaitRaised _ => None
  | Cancelled => None
  end.

(** Two attempts go through, then the await of the third raises. *)
Definition two_then_raise (i : nat) : executor_event :=
  match i with
  | O => Ran (Returned BatchSamples.ok_result)
  | S O => Ran StillAlive
  | _ => AwaitRaised (PyException "RuntimeError" "cannot schedule new futures after shutdown")
  end.

(** The first attempt goes through; the run is cancelled in the sleep after
    it. *)
Definition cancelled_asleep (i : nat) : executor_event :=
  match i with
  | O => CancelledAsleep (Returned BatchSamples.ok_result)
  | _ => Ran StillAlive
  end.

(** Every attempt hangs past its deadline. *)
Definition all_hang (i : nat) : executor_event := Ran StillAlive.

End TaskLedger.

(** ** Readings of the mailbox feed *)

Module FeedShapes.
Import GeminiAuthHelper.

Section Readings.
Context {W : Type}.
Variable world : World W.
Variable config : GeminiAuthConfig.

(** The feed answers in world [w] and, read the way the baseline is taken
    (under [data.emails] or [emails], or as a bare list), its newest message
    has the id [v]: any JSON value, [JNull] when the message has no id. *)
Definition baseline_id_is (email : string) (v : json) (w : W) : Prop :=
  exists r w' data emails latest,
    get_api_emails world config email w = (inr r, w') /\
    status_code r = 200 /\
    json_body r = inr data /\
    emails_of data ["emails"] = inr emails /\
    PyJson.truthy emails = true /\
    PyJson.index0 emails = inr latest /\
    PyJson.get latest "id" JNull = inr v.

(** The same for the reading of the polling rounds (which also looks under
    [messages]). *)
Definition newest_is (email : string) (v : json) (w : W) : Prop :=
  exists r w' data emails latest,
    get_api_emails world config email w = (inr r, w') /\
    status_code r = 200 /\
    json_body r = inr data /\
    emails_of data ["emails"; "messages"] = inr emails /\
    PyJson.truthy emails = true /\
    PyJson.index0 emails = inr latest /\
    PyJson.get latest "id" JNull = inr v.

(** The feed answers in world [w], and its newest message, read the way
    the polling rounds read it, has the id [v] and the text [body] under the
    first of the body keys that holds something. *)
Definition newest_message_is (email : string) (v : json) (body : string) (w : W)
  : Prop :=
  exists r w' data emails latest,
    get_api_emails world config email w = (inr r, w') /\
    status_code r = 200 /\
    json_body r = inr data /\
    emails_of data ["emails"; "messages"] = inr emails /\
    PyJson.truthy emails = true /\
    PyJson.index0 emails = inr latest /\
    PyJson.get latest "id" JNull = inr v /\
    first_truthy latest ["html_content"; "html"; "body"; "content"; "text"]
    = inr (JStr body).

(** The feed answers in world [w] with a dict that lists its messages
    under [messages] only; the newest one has the text [body] under one of
    the body keys. *)
Definition messages_only (email body : string) (w : W) : Prop :=
  exists r w' data nothing emails latest some_id,
    get_api_emails world config email w = (inr r, w') /\
    status_code r = 200 /\
    json_body r = inr data /\
    emails_of data ["emails"] = inr nothing /\
    PyJson.truthy nothing = false /\
    emails_of data ["emails"; "messages"] = inr emails /\
    PyJson.truthy emails = true /\
    PyJson.index0 emails = inr latest /\
    PyJson.get latest "id" JNull = inr some_id /\
    first_truthy latest ["html_content"; "html"; "body"; "content"; "text"]
    = inr (JStr body).

End Readings.

(** A feed of the second kind: one old message. *)
Definition messages_feed : response :=
  {| status_code := 200;
     json_body :=
       inr (JDict [("messages",
              JList [JDict [("id", JStr "m1");
                            ("text", JStr "your code is 482913 valid 10 min")]])]) |}.

(** Feeds whose one old message has a falsy id, or none. *)
Definition falsy_id_feed (v : option json) : response :=
  {| status_code := 200;
     json_body :=
       inr (JDict [("emails",
              JList [JDict ((match v with Some v => [("id", v)] | None => [] end)
                            ++ [("text", JStr "your code is 482913 valid 10 min")])])]) |}.

End FeedShapes.

(** ** Positions of the matcher *)

Module ReMore.
Import PyStr Re.

(** The character before the position reached after reading [w] from a
    position that had [prev] before it. *)
Fixpoint end_of (prev : option ascii) (w : string) : option ascii :=
  match w with
  | EmptyString => prev
  | String c w' => end_of (Some c) w'
  end.

(** [\b([class]{6})\b], the shape of the last three patterns. *)
Definition bounded (p : ascii -> bool) : regex :=
  Cat WordBoundary (Cat (Group (Times 6 p)) WordBoundary).

(** The answer of the extraction on a text that is one word. *)
Definition one_word_answer (s : string) : option string :=
  if (String.length s =? 6)%nat && all_chars is_alnum s then Some s else None.

End ReMore.

(** ** Cookies *)

Module Jar.

(** [c] is the last cookie of the list that carries the name. *)
Definition last_named (name : string) (cookies : list cookie) (c : cookie) : Prop :=
  exists before after,
    cookies = (before ++ c :: after)%list /\
    cookie_name c = Some name /\
    Forall (fun later => cookie_name later <> Some name) after.

(** Two session cookies of one name, an old one and the one set last. *)
Definition renewed : list cookie :=
  [ {| cookie_name := Some "__Secure-C_SES"; cookie_value := Some "old-ses";
       cookie_expiry := None |};
    {| cookie_name := Some "__Host-C_OSES"; cookie_value := Some "host-secret";
       cookie_expiry := None |};
    {| cookie_name := Some "__Secure-C_SES"; cookie_value := Some "ses-secret";
       cookie_expiry := Some 1700000000 |};
    {| cookie_name := None; cookie_value := Some "stray";
       cookie_expiry := None |} ].

End Jar.

(** ** Addresses *)

Module Address.

(** The character [sep] does not occur in [s]. *)
Definition free_of (sep : ascii) (s : string) : bool :=
  PyStr.all_chars (fun c => negb (Ascii.eqb c sep)) s.

(** What may follow the config id in an address: nothing, a query, or a
    further path. *)
Definition follows_id (rest : string) : bool :=
  match rest with
  | EmptyString => true
  | String c _ => Ascii.eqb c "?" || Ascii.eqb c "/"
  end.

End Address.

(** ** Further calls on the outside world *)

(** The calls of the remaining functions that [World] does not have:
    [requests.post], the [random] module, and more of the selenium driver
    and its elements. *)
Record Gear (W : Type) : Type := mkGear {
  (** [requests.post(url, headers=..., json=body, ...)] *)
  requests_post :
    string -> list (string * string) -> json -> W -> (exn + response) * W;
  (** [random.choice(seq)] *)
  random_choice : list string -> W -> (exn + string) * W;
  (** [''.join(random.sample(ascii_letters + digits, 10))] *)
  random_name : W -> string * W;
  (** [element.get_property(name)], as [str] when it is not [None] *)
  get_property : string -> string -> W -> (exn + option string) * W;
  (** [driver.execute_script(js, *args)] for a script that returns text *)
  script_value : string -> list string -> W -> (exn + option string) * W;
  (** [driver.find_elements(By.TAG_NAME, tag)] *)
  find_by_tag : string -> W -> (exn + list string) * W;
  (** [element.is_displayed()], [element.is_enabled()], [element.text] *)
  is_displayed : string -> W -> (exn + bool) * W;
  is_enabled : string -> W -> (exn + bool) * W;
  text : string -> W -> (exn + option string) * W;
  (** [driver.refresh()] *)
  refresh : W -> (exn + unit) * W;
  (** [wait.until(EC.element_to_be_clickable((By.XPATH, xpath)))] *)
  until_clickable_xpath : string -> W -> (exn + string) * W;
  (** [driver.find_element(By.XPATH, xpath)] and
      [driver.find_element(By.CSS_SELECTOR, selector)] *)
  find_element_xpath : string -> W -> (exn + string) * W;
  find_element : string -> W -> (exn + string) * W;
  (** The imports at the head of [_register_one_sync_inner]. *)
  import_selenium : W -> (exn + unit) * W;
  (** [uc.ChromeOptions()] with its arguments, [uc.Chrome(options=options,
      use_subprocess=True)] and [WebDriverWait(driver, 30)]; the driver
      calls above and in [World] are calls on this driver. *)
  start_chrome : W -> (exn + unit) * W;
  (** [driver.quit()] *)
  quit : W -> (exn + unit) * W
}.
Arguments requests_post {W}.
Arguments random_choice {W}.
Arguments random_name {W}.
Arguments get_property {W}.
Arguments script_value {W}.
Arguments find_by_tag {W}.
Arguments is_displayed {W}.
Arguments is_enabled {W}.
Arguments text {W}.
Arguments refresh {W}.
Arguments until_clickable_xpath {W}.
Arguments find_element_xpath {W}.
Arguments find_element {W}.
Arguments import_selenium {W}.
Arguments start_chrome {W}.
Arguments quit {W}.

(** ** The clock *)

Module Clock.
Import Run.

Section Clock.
Context {W : Type}.
Variable world : World W.

(** The clock does not go back while [m] runs. *)
Definition steady {A : Type} (m : M W A) : Prop :=
  forall w r w', m w = (r, w') -> time_time world w <= time_time world w'.

(** [time.sleep(ms)] moves the clock on by [ms]. *)
Definition sleeps_advance : Prop :=
  forall ms w, time_time world (time_sleep world ms w) = time_time world w + ms.

End Clock.
End Clock.

(** ** captcha_service.py *)

Module YesCaptchaService.
Import Run.
Local Open Scope run_scope.

Definition WEBSITE_KEY : string := "6Ld8dCcrAAAAAFVbDMVZy8aNRwCjakBVaDEdRUH8".
Definition WEBSITE_URL : string := "https://accountverification.business.gemini.google".

Section Service.
Context {W : Type}.
Variable world : World W.
Variable gear : Gear W.
(** [self.api_key] *)
Variable api_key : string.

Definition is_enabled : bool := PyStr.truthy api_key.

(** [v != 0] *)
Definition not_zero (v : json) : bool := negb (PyJson.eq v (JNum 0)).

Definition create_task (page_action : string) : M W response :=
  requests_post gear "https://api.yescaptcha.com/createTask" []
    (JDict [("clientKey", JStr api_key);
            ("task", JDict [("websiteURL", JStr WEBSITE_URL);
                            ("websiteKey", JStr WEBSITE_KEY);
                            ("pageAction", JStr page_action);
                            ("type", JStr "RecaptchaV3TaskProxylessM1")])]).

Definition get_task_result (task_id : json) : M W response :=
  requests_post gear "https://api.yescaptcha.com/getTaskResult" []
    (JDict [("clientKey", JStr api_key); ("taskId", task_id)]).

(** One round of the polling loop: [Some r] is [return r]. *)
Definition poll_result (task_id : json) : M W (option (option json)) :=
  GeminiAuthHelper.sleep world 3000 ;;;
  result_resp <- get_task_result task_id ;;
  result_data <- GeminiAuthHelper.lift (json_body result_resp) ;;
  status <- GeminiAuthHelper.lift (PyJson.get result_data "status" JNull) ;;
  if PyJson.eq status (JStr "ready") then
    solution <- GeminiAuthHelper.lift (PyJson.get result_data "solution" (JDict [])) ;;
    token <- GeminiAuthHelper.lift (PyJson.get solution "gRecaptchaResponse" JNull) ;;
    if PyJson.truthy token then ret (Some (Some token)) else ret None
  else
    error_id <- GeminiAuthHelper.lift (PyJson.get result_data "errorId" (JNum 0)) ;;
    if not_zero error_id then ret (Some None) else ret None.

(** [reply.json().get(key, default)], and
    [reply.json().get('solution', {}).get('gRecaptchaResponse')]. *)
Definition reads (reply : response) (key : string) (default : json) : exn + json :=
  match json_body reply with
  | inr data => PyJson.get data key default
  | inl e => inl e
  end.

Definition token_of (reply : response) : exn + json :=
  match reads reply "solution" (JDict []) with
  | inr solution => PyJson.get solution "gRecaptchaResponse" JNull
  | inl e => inl e
  end.

(** The polling loop of [get_recaptcha_token] for a task. *)
Definition await_result (task_id : json) (timeout : Z) : M W (option (option json)) :=
  start_time <- read (time_time world) ;;
  while_before (time_time world) (rounds (1000 * timeout) 3000)
    start_time (1000 * timeout) (poll_result task_id).

(** [get_recaptcha_token(page_action, timeout)]; [timeout] is in seconds. *)
Definition get_recaptcha_token (page_action : string) (timeout : Z)
  : M W (option json) :=
  if negb is_enabled then ret None
  else
    try_except
      (create_resp <- create_task page_action ;;
       create_data <- GeminiAuthHelper.lift (json_body create_resp) ;;
       error_id <- GeminiAuthHelper.lift (PyJson.get create_data "errorId" (JNum 0)) ;;
       if not_zero error_id then ret None
       else
         task_id <- GeminiAuthHelper.lift (PyJson.get create_data "taskId" JNull) ;;
         if negb (PyJson.truthy task_id) then ret None
         else
           start_time <- read (time_time world) ;;
           r <- while_before (time_time world) (rounds (1000 * timeout) 3000)
                  start_time (1000 * timeout) (poll_result task_id) ;;
           ret (match r with Some token => token | None => None end))
      (fun _ => ret None).

End Service.
End YesCaptchaService.

(** ** The rest of gemini_auth_utils.py *)

Module AuthRest.
Import PyStr Run GeminiAuthHelper.
Local Open Scope run_scope.

Section Rest.
Context {W : Type}.
Variable world : World W.
Variable gear : Gear W.
Variable config : GeminiAuthConfig.

(** *** create_email *)

(** Way 1 inside its [try]: [GET /api/generate-email]. *)
Definition generate_email : M W (option json) :=
  r <- requests_get world (mail_api config +:+ "/api/generate-email")
         [] [("X-API-Key", admin_key config)] ;;
  if status_code r =? 200 then
    data <- lift (json_body r) ;;
    success <- lift (PyJson.get data "success" JNull) ;;
    found <- (if PyJson.truthy success then
                inner <- lift (PyJson.get data "data" (JDict [])) ;;
                email <- lift (PyJson.get inner "email" JNull) ;;
                ret (if PyJson.truthy email then Some email else None)
              else ret None) ;;
    match found with
    | Some email => ret (Some email)
    | None =>
        (* error_msg = data.get('message') or data.get('error') or ... *)
        lift (PyJson.get data "message" JNull) ;;;
        lift (PyJson.get data "error" JNull) ;;;
        ret None
    end
  else ret None.

(** Way 2 inside its [try]: [POST /admin/new_address]. *)
Definition new_address (domain : option string) : M W (option json) :=
  domain <- (match domain with
             | Some d => if truthy d then ret d
                         else random_choice gear (email_domains config)
             | None => random_choice gear (email_domains config)
             end) ;;
  name <- (fun w => let (n, w') := random_name gear w in (inr n, w')) ;;
  r <- requests_post gear (mail_api config +:+ "/admin/new_address")
         [("x-admin-auth", admin_key config)]
         (JDict [("enablePrefix", JBool false); ("name", JStr name);
                 ("domain", JStr domain)]) ;;
  if status_code r =? 200 then
    data <- lift (json_body r) ;;
    email <- lift (PyJson.get data "address" JNull) ;;
    ret (if PyJson.truthy email then Some email else None)
  else ret None.

Definition create_email (domain : option string) : M W (option json) :=
  if negb (truthy (mail_api config)) || negb (truthy (admin_key config))
  then ret None
  else
    way1 <- try_except generate_email (fun _ => ret None) ;;
    match way1 with
    | Some email => ret (Some email)
    | None =>
        match email_domains config with
        | [] => ret None
        | _ :: _ =>
            way2 <- try_except (new_address domain) (fun _ => ret None) ;;
            ret way2
        end
    end.

(** *** _get_input_value and clear_and_type *)

Definition SCROLL_JS : string := "arguments[0].scrollIntoView({block: 'center'});".
Definition CLICK_JS : string := "arguments[0].click();".
Definition VALUE_JS : string := "return arguments[0].value;".
Definition Keys_TAB : string := "<TAB>".

(** One reading inside its [try]: [None] also when the call raised. *)
Definition reading (m : M W (option string)) : M W (option string) :=
  try_except m (fun _ => ret None).

Definition _get_input_value (element : string) : M W string :=
  v <- reading (get_property gear element "value") ;;
  match v with
  | Some s => ret s
  | None =>
      v <- reading (get_attribute world element "value") ;;
      match v with
      | Some s => ret s
      | None =>
          v <- reading (script_value gear VALUE_JS [element]) ;;
          ret (match v with Some s => s | None => EmptyString end)
      end
  end.

(** [time.sleep(delay)] for a delay the caller chose: a negative one is a
    [ValueError]. *)
Definition NEGATIVE_SLEEP : exn :=
  PyException "ValueError" "sleep length must be non-negative".

Definition sleep_for (delay : Z) : M W unit :=
  if delay <? 0 then raise NEGATIVE_SLEEP else sleep world delay.

(** [for ch in text: element.send_keys(ch); if delay: time.sleep(delay)] *)
Fixpoint type_text (element text : string) (delay : Z) : M W unit :=
  match text with
  | EmptyString => ret tt
  | String ch text' =>
      send_keys world element [String ch EmptyString] ;;;
      (if delay =? 0 then ret tt else sleep_for delay) ;;;
      type_text element text' delay
  end.

(** [self._get_input_value(driver, element).strip() == text] *)
Definition reads_back (element text : string) : M W bool :=
  v <- _get_input_value element ;;
  ret (String.eqb (strip v) text).

(** One pass of the [for] loop of [clear_and_type]: [true] is its
    [return True]. *)
Definition typing_round (element text : string) (delay : Z) : M W bool :=
  attempt (execute_script world SCROLL_JS [element] ;;; ret tt) ;;;
  try_except (click world element)
    (fun _ => attempt (execute_script world CLICK_JS [element] ;;; ret tt)) ;;;
  sleep world 150 ;;;
  wipe world element ;;;
  sleep world 50 ;;;
  type_text element text delay ;;;
  _dispatch_input_change world element ;;;
  typed <- reads_back element text ;;
  if typed then ret true
  else
    assigned <- try_except
                  (execute_script world ASSIGN_JS [element; text] ;;;
                   _dispatch_input_change world element ;;;
                   sleep world 50 ;;;
                   reads_back element text)
                  (fun _ => ret false) ;;
    if assigned then ret true
    else
      blurred <- try_except
                   (send_keys world element [Keys_TAB] ;;;
                    sleep world 50 ;;;
                    reads_back element text)
                   (fun _ => ret false) ;;
      if blurred then ret true
      else sleep world 200 ;;; ret false.

Fixpoint typing_rounds (k : nat) (element text : string) (delay : Z) : M W bool :=
  match k with
  | O => ret false
  | S k' =>
      done <- typing_round element text delay ;;
      if done then ret true else typing_rounds k' element text delay
  end.

(** [clear_and_type(driver, element, text, delay, attempts, require_match)];
    [delay] is in milliseconds. *)
Definition clear_and_type (element text : string) (delay attempts : Z)
    (require_match : bool) : M W bool :=
  done <- typing_rounds (Z.to_nat (Z.max 1 attempts)) element text delay ;;
  if done then ret true
  else if require_match then ret false else ret true.

(** What [clear_and_type] can let out: the exception of a keystroke, or the
    [ValueError] of [time.sleep] behind the first keystroke of a text that
    is typed with a negative delay. *)
Definition typing_fault (element text : string) (delay : Z) (e : exn) (w' : W)
  : Prop :=
  (exists ch w1, send_keys world element [ch] w1 = (inl e, w')) \/
  (delay < 0 /\ text <> EmptyString /\ e = NEGATIVE_SLEEP).

(** *** click_primary_action and click_verify_only *)

Definition PRIMARY_TEXTS : list string :=
  ["继续"; "下一步"; "登录"; "确认"; "提交"; "完成";
   "Continue"; "Next"; "Sign in"; "Log in"; "Submit"; "Done"; "Create"].
Definition VERIFY_TEXTS : list string := ["验证"; "Verify"].
Definition DENY_TEXTS : list string :=
  ["重新发送"; "Resend"; "Send again"; "Try again"; "重新获取"].

(** [any(k.lower() in t.lower() for k in words)] *)
Definition mentions (words : list string) (t : string) : bool :=
  existsb (fun k => contains (lower k) (lower t)) words.

(** [(b.text or "").strip()] *)
Definition label (b : string) : M W string :=
  t <- text gear b ;;
  ret (strip (match t with Some s => s | None => EmptyString end)).

(** The body of [for b in ...] with its [try]: [true] is [return True],
    [false] is [continue] or the end of the body.  [skip_blank] is the
    [if not t: continue] that two of the three loops have. *)
Definition try_button (allow deny : list string) (skip_blank : bool) (b : string)
  : M W bool :=
  try_except
    (shown <- is_displayed gear b ;;
     if negb shown then ret false
     else
       enabled <- is_enabled gear b ;;
       if negb enabled then ret false
       else
         t <- label b ;;
         if skip_blank && negb (truthy t) then ret false
         else if mentions deny t then ret false
         else if mentions allow t then
           execute_script world CLICK_JS [b] ;;; ret true
         else ret false)
    (fun _ => ret false).

Fixpoint try_buttons (allow deny : list string) (skip_blank : bool)
    (buttons : list string) : M W bool :=
  match buttons with
  | [] => ret false
  | b :: buttons' =>
      clicked <- try_button allow deny skip_blank b ;;
      if clicked then ret true else try_buttons allow deny skip_blank buttons'
  end.

(** The calls that end a scan with [return True] on button [b], leaving
    the world [w']: it was displayed and enabled, its label named a word of
    [allow] and none of [deny], and the click script went through. *)
Definition pressed (allow deny : list string) (b : string) (w' : W) : Prop :=
  exists w0 w1 w2 t w3 z,
    is_displayed gear b w0 = (inr true, w1) /\
    is_enabled gear b w1 = (inr true, w2) /\
    text gear b w2 = (inr t, w3) /\
    mentions allow (strip (match t with Some s => s | None => EmptyString end)) = true /\
    mentions deny (strip (match t with Some s => s | None => EmptyString end)) = false /\
    execute_script world CLICK_JS [b] w3 = (inr z, w').

(** [try: for b in find(...): ...  except Exception: pass] *)
Definition scan (find : M W (list string)) (allow deny : list string)
    (skip_blank : bool) : M W bool :=
  try_except
    (buttons <- find ;; try_buttons allow deny skip_blank buttons)
    (fun _ => ret false).

(** [end = time.time() + timeout; while time.time() < end: body]; [timeout]
    is in seconds. *)
Definition until_deadline (timeout : Z) (body : M W (option bool)) : M W bool :=
  start <- read (time_time world) ;;
  r <- while_before (time_time world) (rounds (1000 * timeout) 200)
         start (1000 * timeout) body ;;
  ret (match r with Some b => b | None => false end).

Definition click_primary_action (timeout : Z) : M W bool :=
  until_deadline timeout
    (submit <- scan (find_elements world "button[type='submit']")
                 PRIMARY_TEXTS DENY_TEXTS false ;;
     if submit then ret (Some true)
     else
       any <- scan (find_by_tag gear "button") PRIMARY_TEXTS DENY_TEXTS true ;;
       if any then ret (Some true)
       else sleep world 200 ;;; ret None).

Definition click_verify_only (timeout : Z) : M W bool :=
  until_deadline timeout
    (any <- scan (find_by_tag gear "button") VERIFY_TEXTS DENY_TEXTS true ;;
     if any then ret (Some true)
     else sleep world 200 ;;; ret None).

(** *** extract_config_from_workspace and extract_config_with_retry *)

(** [datetime.fromtimestamp]'s zone and [parse_qs(urlparse(url).query)
    .get('csesidx', [None])[0]]. *)
Variable utcoffset : Z -> Z.
Variable csesidx_of : string -> option string.

(** The [config] dict of [extract_config_from_workspace]. *)
Record WorkspaceConfig : Type := mkWorkspaceConfig {
  wc_csesidx : string;
  wc_config_id : string;
  wc_secure_c_ses : string;
  wc_host_c_oses : string;
  wc_expires_at : option string
}.

(** The dict both functions return. *)
Record ExtractResult : Type := mkExtractResult {
  success : bool;
  config_data : option WorkspaceConfig;
  error : option string
}.

Definition failed (msg : string) : ExtractResult :=
  {| success := false; config_data := None; error := Some msg |}.

(** [{c['name']: c for c in cookies}]: a cookie without a name is a
    [KeyError]. *)
Definition all_named (cookies : list cookie) : bool :=
  forallb (fun c => match cookie_name c with Some _ => true | None => false end)
    cookies.

(** The [try] body of [extract_config_from_workspace] after the two driver
    calls. *)
Definition workspace_result (url : string) (cookies : list cookie)
  : exn + ExtractResult :=
  let config_id := config_id_of (split_on "/" url) in
  if negb (all_named cookies) then inl (PyException "KeyError" "'name'")
  else
    let ses_cookie := cookie_named "__Secure-C_SES" cookies in
    let host_cookie := cookie_named "__Host-C_OSES" cookies in
    let csesidx := csesidx_of url in
    match truthy_value ses_cookie, truthy_value host_cookie,
          truthy_opt csesidx, truthy_opt config_id with
    | Some ses, Some host, Some csesidx, Some config_id =>
        match expires_at_of utcoffset (expiry_of ses_cookie) with
        | inr expires_at =>
            inr {| success := true;
                   config_data :=
                     Some {| wc_csesidx := csesidx; wc_config_id := config_id;
                             wc_secure_c_ses := ses; wc_host_c_oses := host;
                             wc_expires_at := expires_at |};
                   error := None |}
        | inl e => inl e
        end
    | _, _, _, _ => inr (failed "配置数据不完整")
    end.

Definition extract_config_from_workspace : M W ExtractResult :=
  try_except
    (sleep world 3000 ;;;
     cookies <- get_cookies world ;;
     url <- current_url world ;;
     lift (workspace_result url cookies))
    (fun e => ret (failed (str_exn e))).

Definition RETRY_FAILED : string := "提取配置失败（已重试）".

(** The [except Exception as e] clause of the retry loop, entered with the
    [last_error] of that moment; it answers the new [last_error]. *)
Definition on_error (last_error : option string) (e : exn) : M W (option string) :=
  let error_msg := lower (str_exn e) in
  if contains "crash" error_msg || contains "tab" error_msg then
    try_except (refresh gear ;;; sleep world 3000)
      (fun _ => attempt (get world "https://business.gemini.google/" ;;;
                         sleep world 5000)) ;;;
    ret last_error
  else
    attempt (refresh gear ;;; sleep world 3000) ;;;
    ret (Some (str_exn e)).

(** One pass of [for attempt in range(max_retries)]: the result it returns,
    if any, and [last_error] after it.  The [try] is split where
    [last_error] is assigned, so that an exception raised after the
    assignment meets the new value, as in the source. *)
Definition retry_round (last_error : option string)
  : M W (option ExtractResult * option string) :=
  try_except
    (source <- page_source world ;;
     if is_crashed source then
       refresh gear ;;; sleep world 3000 ;;; ret (None, last_error)
     else
       extract_result <- extract_config_from_workspace ;;
       if success extract_result then ret (Some extract_result, last_error)
       else
         let last_error := error extract_result in
         try_except
           (refresh gear ;;; sleep world 3000 ;;; ret (None, last_error))
           (fun e => le <- on_error last_error e ;; ret (None, le)))
    (fun e => le <- on_error last_error e ;; ret (None, le)).

(** [last_error or "提取配置失败（已重试）"] *)
Definition final_error (last_error : option string) : string :=
  match last_error with
  | Some m => if truthy m then m else RETRY_FAILED
  | None => RETRY_FAILED
  end.

Fixpoint retry_rounds (k : nat) (last_error : option string) : M W ExtractResult :=
  match k with
  | O => ret (failed (final_error last_error))
  | S k' =>
      r <- retry_round last_error ;;
      match fst r with
      | Some result => ret result
      | None => retry_rounds k' (snd r)
      end
  end.

Definition extract_config_with_retry (max_retries : Z) : M W ExtractResult :=
  retry_rounds (Z.to_nat max_retries) None.

End Rest.
End AuthRest.

(** ** The rest of register_service.py *)

Module RegisterRest.
Import Run RegisterService.
Local Open Scope run_scope.

Section Mailboxes.
Context {W : Type}.
Variable world : World W.
Variable gear : Gear W.
(** [self.auth_config], read anew at each call. *)
Variable config : GeminiAuthHelper.GeminiAuthConfig.

Definition set_queue (s : Service) (q : list string) : Service :=
  {| _tasks := _tasks s; _current_task_id := _current_task_id s;
     _email_queue := q; _specified_domain := _specified_domain s |}.

(** [_get_email()]: the mailbox and the service as the call leaves it. *)
Definition _get_email (s : Service) : M W (option json * Service) :=
  match _email_queue s with
  | email :: queue => ret (Some (JStr email), set_queue s queue)
  | [] =>
      email <- AuthRest.create_email world gear config (_specified_domain s) ;;
      ret (email, s)
  end.

(** [n] calls of [_get_email] in a row, with what each returned. *)
Fixpoint get_emails (n : nat) (s : Service) : M W (list (option json) * Service) :=
  match n with
  | O => ret ([], s)
  | S n' =>
      r <- _get_email s ;;
      rest <- get_emails n' (snd r) ;;
      ret (fst r :: fst rest, snd rest)
  end.

End Mailboxes.
End RegisterRest.

(** *** A relay and a solver for the closed examples *)

Module GearSamples.

(** A gear whose every call fails or finds nothing, except that posts are
    answered with [reply]. *)
Definition gear (reply : response) : Gear Stub.state :=
  {| requests_post := fun _ _ _ s => (inr reply, s);
     random_choice := fun l s =>
       match l with
       | d :: _ => (inr d, s)
       | [] => (inl (PyException "IndexError" "Cannot choose from an empty sequence"), s)
       end;
     random_name := fun s => ("aB3dE6gH9k", s);
     get_property := fun _ _ s => Stub.driver_call s (inr None, s);
     script_value := fun _ _ s => Stub.driver_call s (inr None, s);
     find_by_tag := fun _ s => Stub.driver_call s (inr [], s);
     is_displayed := fun _ s => Stub.driver_call s (inr true, s);
     is_enabled := fun _ s => Stub.driver_call s (inr true, s);
     text := fun _ s => Stub.driver_call s (inr None, s);
     refresh := fun s => Stub.driver_call s (inr tt, s);
     until_clickable_xpath := fun _ s => Stub.driver_call s (inl Stub.not_found, s);
     find_element_xpath := fun _ s => Stub.driver_call s (inl Stub.not_found, s);
     find_element := fun _ s => Stub.driver_call s (inl Stub.not_found, s);
     import_selenium := fun s => (inr tt, s);
     start_chrome := fun s => (inr tt, s);
     quit := fun s => Stub.driver_call s (inr tt, s) |}.

Definition queued (q : list string) : RegisterService.Service :=
  RegisterRest.set_queue RegisterService.init q.

End GearSamples.

Module FieldSamples.

(** A gear for a page whose every input reads [value]. *)
Definition gear (value : string) : Gear Stub.state :=
  {| requests_post := fun _ _ _ s => (inr Stub.no_mail, s);
     random_choice := fun l s => (inr (List.hd EmptyString l), s);
     random_name := fun s => ("aB3dE6gH9k", s);
     get_property := fun _ _ s => Stub.driver_call s (inr (Some value), s);
     script_value := fun _ _ s => Stub.driver_call s (inr (Some value), s);
     find_by_tag := fun _ s => Stub.driver_call s (inr [], s);
     is_displayed := fun _ s => Stub.driver_call s (inr true, s);
     is_enabled := fun _ s => Stub.driver_call s (inr true, s);
     text := fun _ s => Stub.driver_call s (inr None, s);
     refresh := fun s => Stub.driver_call s (inr tt, s);
     until_clickable_xpath := fun _ s => Stub.driver_call s (inl Stub.not_found, s);
     find_element_xpath := fun _ s => Stub.driver_call s (inl Stub.not_found, s);
     find_element := fun _ s => Stub.driver_call s (inl Stub.not_found, s);
     import_selenium := fun s => (inr tt, s);
     start_chrome := fun s => (inr tt, s);
     quit := fun s => Stub.driver_call s (inr tt, s) |}.

End FieldSamples.

Module ClickSamples.

(** A page with a resend button and a verify button. *)
Definition gear : Gear Stub.state :=
  {| requests_post := fun _ _ _ s => (inr Stub.no_mail, s);
     random_choice := fun l s => (inr (List.hd EmptyString l), s);
     random_name := fun s => ("aB3dE6gH9k", s);
     get_property := fun _ _ s => Stub.driver_call s (inr None, s);
     script_value := fun _ _ s => Stub.driver_call s (inr None, s);
     find_by_tag := fun _ s => Stub.driver_call s (inr ["btn-resend"; "btn-verify"], s);
     is_displayed := fun _ s => Stub.driver_call s (inr true, s);
     is_enabled := fun _ s => Stub.driver_call s (inr true, s);
     text := fun b s =>
       Stub.driver_call s
         (inr (Some (if String.eqb b "btn-verify" then " Verify "
                     else "Resend code")), s);
     refresh := fun s => Stub.driver_call s (inr tt, s);
     until_clickable_xpath := fun _ s => Stub.driver_call s (inl Stub.not_found, s);
     find_element_xpath := fun _ s => Stub.driver_call s (inl Stub.not_found, s);
     find_element := fun _ s => Stub.driver_call s (inl Stub.not_found, s);
     import_selenium := fun s => (inr tt, s);
     start_chrome := fun s => (inr tt, s);
     quit := fun s => Stub.driver_call s (inr tt, s) |}.

End ClickSamples.

(** ** _save_config *)

Module Accounts.
Import GeminiAuthHelper.

(** [accounts.json], by what [json.load] makes of it: absent, or there with
    a reading that is a value or an exception.  What [json.dump] writes is
    read back as written. *)
Inductive file : Type :=
| Absent
| Holds (reading : exn + json).

(** The [config] dict built from [email] and the harvested [data]. *)
Definition saved_config (email : string) (data : RegisterConfig)
  : RegisterService.SavedConfig :=
  {| RegisterService.cfg_id := email;
     RegisterService.cfg_csesidx := rc_csesidx data;
     RegisterService.cfg_config_id := rc_config_id data;
     RegisterService.cfg_secure_c_ses := rc_secure_c_ses data;
     RegisterService.cfg_host_c_oses := rc_host_c_oses data;
     RegisterService.cfg_expires_at := rc_expires_at data |}.

(** The dict as [json.dump] writes it. *)
Definition to_json (c : RegisterService.SavedConfig) : json :=
  JDict [("id", JStr (RegisterService.cfg_id c));
         ("csesidx", JStr (RegisterService.cfg_csesidx c));
         ("config_id", JStr (RegisterService.cfg_config_id c));
         ("secure_c_ses", JStr (RegisterService.cfg_secure_c_ses c));
         ("host_c_oses", JStr (RegisterService.cfg_host_c_oses c));
         ("expires_at", match RegisterService.cfg_expires_at c with
                        | Some t => JStr t
                        | None => JNull
                        end)].

Definition record_of (email : string) (data : RegisterConfig) : json :=
  to_json (saved_config email data).

(** [accounts] after the reading step. *)
Definition load_accounts (f : file) : json :=
  match f with
  | Absent => JList []
  | Holds (inr accounts) => accounts
  | Holds (inl _) => JList []
  end.

(** [accounts.append(config)]: only a list has the method. *)
Definition append (accounts config : json) : exn + json :=
  match accounts with
  | JList l => inr (JList (l ++ [config]))
  | _ => inl (PyException "AttributeError" "object has no attribute 'append'")
  end.

(** How the writing step can fail: [open(accounts_file, 'w')] raises, and
    the file is as it was; or [json.dump] raises after the open has emptied
    the file, and what is left is empty or cut short. *)
Inductive write_failure : Type :=
| OpenFails (e : exn)
| DumpFails (e : exn).

(** What [json.load] makes of an emptied or cut-short file. *)
Definition CUT_SHORT : exn := PyException "JSONDecodeError" "Expecting value".

(** The data directory: whether [mkdir] raises, whether and how the writing
    step fails, and the file. *)
Record disk : Type := mkDisk {
  mkdir_raises : option exn;
  write_raises : option write_failure;
  accounts_file : file
}.

Definition set_file (d : disk) (f : file) : disk :=
  {| mkdir_raises := mkdir_raises d; write_raises := write_raises d;
     accounts_file := f |}.

(** [_save_config(email, data)]: what it returns and the disk after it. *)
Definition _save_config (email : string) (data : RegisterConfig) (d : disk)
  : (exn + RegisterService.SavedConfig) * disk :=
  match mkdir_raises d with
  | Some e => (inl e, d)
  | None =>
      let config := saved_config email data in
      match append (load_accounts (accounts_file d)) (to_json config) with
      | inl e => (inl e, d)
      | inr accounts =>
          match write_raises d with
          | Some (OpenFails e) => (inl e, d)
          | Some (DumpFails e) => (inl e, set_file d (Holds (inl CUT_SHORT)))
          | None => (inr config, set_file d (Holds (inr accounts)))
          end
      end
  end.

(** One [_save_config] after the other, as the registrations of a batch
    make them; the disk after the last one. *)
Fixpoint save_all (items : list (string * RegisterConfig)) (d : disk) : disk :=
  match items with
  | [] => d
  | (email, data) :: items' => save_all items' (snd (_save_config email data d))
  end.

(** A data directory with two records on file, on which the next
    [json.dump] fails (the disk is full). *)
Definition full_disk : disk :=
  {| mkdir_raises := None;
     write_raises := Some (DumpFails (PyException "OSError" "No space left on device"));
     accounts_file :=
       Holds (inr (JList [record_of "u7@mail.test" CookieSamples.expected_config;
                          record_of "u8@mail.test" CookieSamples.expected_config])) |}.

(** A writable data directory without an accounts file. *)
Definition fresh : disk :=
  {| mkdir_raises := None; write_raises := None; accounts_file := Absent |}.

End Accounts.

(** ** perform_email_verification *)

Module Verification.
Import PyStr Run GeminiAuthHelper AuthRest.
Local Open Scope run_scope.

Definition XPATH_email_input : string :=
  "/html/body/c-wiz/div/div/div[1]/div/div/div/form/div[1]/div[1]/div/span[2]/input".
Definition XPATH_continue_btn : string :=
  "/html/body/c-wiz/div/div/div[1]/div/div/div/form/div[2]/div/button".
Definition XPATH_verify_btn : string :=
  "/html/body/c-wiz/div/div/div[1]/div/div/div/form/div[2]/div/div[1]/span/div[1]/button".

Definition SELECTORS_email_input : list string :=
  ["input[type='email']"; "input[name='email']"; "input[autocomplete='email']";
   "input[autocomplete='username']"; "input[aria-label*='mail']";
   "form input[type='text']"].

(** The dict [perform_email_verification] returns. *)
Record VerifyResult : Type := mkVerifyResult {
  verified : bool;
  verify_error : option string
}.

Definition refused (msg : string) : VerifyResult :=
  {| verified := false; verify_error := Some msg |}.

Section Flow.
Context {W : Type}.
Variable world : World W.
Variable gear : Gear W.
Variable config : GeminiAuthConfig.
Variable BeautifulSoup : string -> list Soup.node.
Variable json_loads : string -> exn + json.
(** [str(code)] for the value [get_verification_code] returned. *)
Variable str_of : json -> string.

(** The [for selector in self.SELECTORS["email_input"]] of the fallback;
    [inp] keeps the last element found, displayed or not. *)
Fixpoint find_email_input (selectors : list string) (inp : option string)
  : M W (option string) :=
  match selectors with
  | [] => ret inp
  | selector :: selectors' =>
      found <- try_except (e <- until_clickable world selector ;; ret (Some e))
                 (fun _ => ret None) ;;
      match found with
      | None => find_email_input selectors' inp
      | Some e =>
          shown <- try_except (is_displayed gear e) (fun _ => ret false) ;;
          if shown then ret (Some e) else find_email_input selectors' (Some e)
      end
  end.

Definition perform_email_verification (email : string) : M W VerifyResult :=
  try_except
    (inp <- try_except
              (e <- until_clickable_xpath gear XPATH_email_input ;; ret (Some e))
              (fun _ => find_email_input SELECTORS_email_input None) ;;
     match inp with
     | None => ret (refused "未找到邮箱输入框")
     | Some inp =>
         typed <- clear_and_type world gear inp email 30 3 true ;;
         if negb typed then ret (refused "邮箱输入失败")
         else
           sleep world 500 ;;;
           continued <- try_except
                          (btn <- until_clickable_xpath gear XPATH_continue_btn ;;
                           execute_script world CLICK_JS [btn] ;;;
                           ret true)
                          (fun _ => click_primary_action world gear 5) ;;
           if negb continued then ret (refused "点击继续按钮失败")
           else
             sleep world 1000 ;;;
             disable_resend_buttons world ;;;
             sleep world 1000 ;;;
             code <- get_verification_code world config BeautifulSoup json_loads
                       email 60 JNull ;;
             match code with
             | None => ret (refused "验证码超时")
             | Some code =>
                 if negb (PyJson.truthy code) then ret (refused "验证码超时")
                 else
                   sleep world 800 ;;;
                   disable_resend_buttons world ;;;
                   filled <- fill_verification_code world (str_of code) ;;
                   if negb filled then ret (refused "验证码输入失败")
                   else
                     disable_resend_buttons world ;;;
                     sleep world 400 ;;;
                     try_except
                       (vbtn <- find_element_xpath gear XPATH_verify_btn ;;
                        execute_script world CLICK_JS [vbtn] ;;;
                        ret tt)
                       (fun _ => click_verify_only world gear 3 ;;; ret tt) ;;;
                     ret {| verified := true; verify_error := None |}
             end
     end)
    (fun e => ret (refused (str_exn e))).

End Flow.
End Verification.

(** ** _register_one_sync_inner *)

Module RegisterInner.
Import PyStr Run GeminiAuthHelper AuthRest Verification RegisterService.
Local Open Scope run_scope.

Definition NAMES : list string :=
  ["James Smith"; "John Johnson"; "Robert Williams"; "Michael Brown";
   "William Jones"; "David Garcia"; "Mary Miller"; "Patricia Davis";
   "Jennifer Rodriguez"; "Linda Martinez"].

Definition NAME_SELECTORS : list string :=
  ["input[formcontrolname='fullName']"; "input[placeholder='全名']";
   "input[placeholder='Full name']"; "input#mat-input-0"].

Definition Keys_ENTER : string := "<ENTER>".

(** [except ImportError]: the class and its built-in subclass. *)
Definition is_import_error (e : exn) : bool :=
  match e with
  | PyException cls _ =>
      String.eqb cls "ImportError" || String.eqb cls "ModuleNotFoundError"
  | TimeoutException _ => false
  end.

Definition failure (email : option string) (error : option string) : AttemptResult :=
  {| email := email; success := false; config := None; error := error |}.

(** Where the [try] body of the browser part ends: at one of its
    [return {... "success": False ...}], or with the harvested config in
    hand, before [_save_config]. *)
Inductive stage : Type :=
| Stop (error : option string)
| Harvested (data : RegisterConfig).

Section Inner.
Context {W : Type}.
Variable world : World W.
Variable gear : Gear W.
(** [self.auth_config]; it is taken not to change while one attempt runs. *)
Variable config : GeminiAuthConfig.
Variable BeautifulSoup : string -> list Soup.node.
Variable json_loads : string -> exn + json.
Variable utcoffset : Z -> Z.
Variable csesidx_of : string -> option string.
(** The text of a value of the mail API, as [str] gives it; an address is
    carried as text. *)
Variable str_of : json -> string.

(** [for sel in selectors] of step 7; [name_inp] keeps the last element
    found. *)
Fixpoint scan_selectors (selectors : list string) (name_inp : option string)
  : M W (option string) :=
  match selectors with
  | [] => ret name_inp
  | sel :: selectors' =>
      found <- try_except (e <- find_element gear sel ;; ret (Some e))
                 (fun _ => ret None) ;;
      match found with
      | None => scan_selectors selectors' name_inp
      | Some e =>
          shown <- try_except (is_displayed gear e) (fun _ => ret false) ;;
          if shown then ret (Some e) else scan_selectors selectors' (Some e)
      end
  end.

(** [name_inp and name_inp.is_displayed()] *)
Definition usable (name_inp : option string) : M W bool :=
  match name_inp with
  | Some e => is_displayed gear e
  | None => ret false
  end.

(** [for _ in range(30)] of step 7. *)
Fixpoint find_name_input (k : nat) (name_inp : option string)
  : M W (option string) :=
  match k with
  | O => ret name_inp
  | S k' =>
      name_inp <- scan_selectors NAME_SELECTORS name_inp ;;
      shown <- usable name_inp ;;
      if shown then ret name_inp
      else sleep world 1000 ;;; find_name_input k' name_inp
  end.

(** The [try] body from [driver.get] to the harvest. *)
Definition browser_flow (email : string) : M W stage :=
  get world (login_url config) ;;;
  sleep world 2000 ;;;
  verify_result <- perform_email_verification world gear config BeautifulSoup
                     json_loads str_of email ;;
  if negb (verified verify_result) then ret (Stop (verify_error verify_result))
  else
    sleep world 2000 ;;;
    name_inp <- find_name_input 30 None ;;
    shown <- usable name_inp ;;
    match name_inp, shown with
    | Some name_inp, true =>
        name <- random_choice gear NAMES ;;
        typed <- clear_and_type world gear name_inp name 30 3 true ;;
        if negb typed then ret (Stop (Some "姓名输入失败"))
        else
          sleep world 300 ;;;
          send_keys world name_inp [Keys_ENTER] ;;;
          sleep world 1000 ;;;
          click_primary_action world gear 4 ;;;
          arrived <- wait_for_workspace world 30 3 ;;
          if negb arrived then ret (Stop (Some "未跳转到工作台"))
          else
            config_data <- extract_config_from_driver world utcoffset csesidx_of
                             email 15 ;;
            match config_data with
            | None => ret (Stop (Some "配置提取失败"))
            | Some data => ret (Harvested data)
            end
    | _, _ => ret (Stop (Some "未找到姓名输入框"))
    end.

(** The result and the disk once the [try] body is through: the harvest is
    saved, and an exception of [_save_config] is caught like any other. *)
Definition conclude (email : string) (st : stage) (d : Accounts.disk)
  : AttemptResult * Accounts.disk :=
  match st with
  | Stop error => (failure (Some email) error, d)
  | Harvested data =>
      match Accounts._save_config email data d with
      | (inr saved, d') =>
          (mkAttemptResult (Some email) true (Some saved) None, d')
      | (inl e, d') => (failure (Some email) (Some (str_exn e)), d')
      end
  end.

(** [_register_one_sync_inner()]: the result, and the service and the disk
    as the call leaves them. *)
Definition _register_one_sync_inner (s : Service) (d : Accounts.disk)
  : M W (AttemptResult * Service * Accounts.disk) :=
  missing <- try_except (import_selenium gear ;;; ret None)
               (fun e => if is_import_error e then ret (Some e) else raise e) ;;
  match missing with
  | Some e =>
      ret (failure None (Some ("Selenium 未安装: " +:+ str_exn e)), s, d)
  | None =>
      got <- RegisterRest._get_email world gear config s ;;
      let s := snd got in
      match fst got with
      | None => ret (failure None (Some "无法创建邮箱"), s, d)
      | Some address =>
          if negb (PyJson.truthy address)
          then ret (failure None (Some "无法创建邮箱"), s, d)
          else
            let email := str_of address in
            started <- try_except (start_chrome gear ;;; ret None)
                         (fun e => ret (Some e)) ;;
            match started with
            | Some e => ret (failure (Some email) (Some (str_exn e)), s, d)
            | None =>
                st <- try_except (browser_flow email)
                        (fun e => ret (Stop (Some (str_exn e)))) ;;
                attempt (quit gear) ;;;
                let (result, d) := conclude email st d in
                ret (result, s, d)
            end
      end
  end.

End Inner.
End RegisterInner.

(** *** A browser on which a registration goes through *)

Module HappyPath.

(** The stub browser with one input whose text it keeps. *)
Record state : Type := mkState {
  browser : Stub.state;
  field : string
}.

Definition inner : World Stub.state :=
  Stub.world {| status_code := 500; json_body := inr JNull |} InboxSamples.admin.

Definition on_browser {A : Type} (op : Stub.state -> (exn + A) * Stub.state)
    (s : state) : (exn + A) * state :=
  let (r, b) := op (browser s) in (r, {| browser := b; field := field s |}).

Definition is_control (k : string) : bool :=
  String.eqb k GeminiAuthHelper.Keys_CONTROL || String.eqb k AuthRest.Keys_TAB
  || String.eqb k RegisterInner.Keys_ENTER.

(** A single key: backspace (after select-all) empties the input, a control
    key leaves it, any other key is appended. *)
Definition press (keys : list string) (s : state) : state :=
  match keys with
  | [k] =>
      if String.eqb k GeminiAuthHelper.Keys_BACKSPACE
      then {| browser := browser s; field := EmptyString |}
      else if is_control k then s
      else {| browser := browser s; field := field s +:+ k |}
  | _ => s
  end.

Definition world : World state :=
  {| time_time := fun s => time_time inner (browser s);
     time_sleep := fun ms s =>
       {| browser := time_sleep inner ms (browser s); field := field s |};
     requests_get := fun url params headers =>
       on_browser (requests_get inner url params headers);
     execute_script := fun js args => on_browser (execute_script inner js args);
     find_elements := fun sel => on_browser (find_elements inner sel);
     until_clickable := fun sel => on_browser (until_clickable inner sel);
     click := fun el => on_browser (click inner el);
     send_keys := fun _ keys s => (inr tt, press keys s);
     clear := fun el => on_browser (clear inner el);
     get_attribute := fun el name => on_browser (get_attribute inner el name);
     active_element := on_browser (active_element inner);
     page_source := on_browser (page_source inner);
     current_url := on_browser (current_url inner);
     window_handles := on_browser (window_handles inner);
     switch_to_window := fun h => on_browser (switch_to_window inner h);
     close := on_browser (close inner);
     get := fun u => on_browser (get inner u);
     get_cookies := on_browser (get_cookies inner) |}.

Definition gear : Gear state :=
  {| requests_post := fun _ _ _ s => (inr Stub.no_mail, s);
     random_choice := fun l s => (inr (List.hd EmptyString l), s);
     random_name := fun s => ("aB3dE6gH9k", s);
     get_property := fun _ _ s => (inr (Some (field s)), s);
     script_value := fun _ _ s => (inr (Some (field s)), s);
     find_by_tag := fun _ s => (inr [], s);
     is_displayed := fun _ s => (inr true, s);
     is_enabled := fun _ s => (inr true, s);
     text := fun _ s => (inr None, s);
     refresh := fun s => (inr tt, s);
     until_clickable_xpath := fun _ s => (inr "by-xpath", s);
     find_element_xpath := fun _ s => (inl Stub.not_found, s);
     find_element := fun _ s => (inr "name-input", s);
     import_selenium := fun s => (inr tt, s);
     start_chrome := fun s => (inr tt, s);
     quit := fun s => (inr tt, s) |}.

Definition text_of (v : json) : string :=
  match v with JStr s => s | _ => EmptyString end.

(** At the workspace, session cookies set, nothing typed yet. *)
Definition start : state :=
  {| browser := CookieSamples.at_workspace (Some 1700000000);
     field := EmptyString |}.

End HappyPath.

(** * Properties *)

(** ** The batch orchestrator *)

Section BatchRun.
Import RegisterService TaskLedger.

Lemma attempts_fields env n : forall i t ex t',
  attempts env n i t = (ex, t') ->
  id t' = id t /\ count t' = count t /\ status t' = status t /\
  task_error t' = task_error t /\ finished_at t' = finished_at t /\
  success_count t <= success_count t'.
Proof.
  induction n as [|n IH]; intros i t ex t' H; simpl in H.
  - inversion H; subst. repeat split; lia.
  - destruct (env (Z.to_nat i)) as [w|e| |w].
    + apply IH in H. simpl in H.
      destruct H as (?&?&?&?&?&?). repeat split; try assumption.
      destruct (success (_register_one_sync w)); lia.
    + inversion H; subst. simpl. repeat split; lia.
    + inversion H; subst. simpl. repeat split; lia.
    + destruct (i <? count t - 1).
      * inversion H; subst. simpl. repeat split; try reflexivity.
        destruct (success (_register_one_sync w)); lia.
      * apply IH in H. simpl in H.
        destruct H as (?&?&?&?&?&?). repeat split; try assumption.
        destruct (success (_register_one_sync w)); lia.
Qed.

(** A loop that is left normally ran every round: each round appended one
    result and bumped exactly one of the two counters. *)
Lemma attempts_completed env n : forall i t t',
  attempts env n i t = (Completed, t') ->
  success_count t' + fail_count t' = success_count t + fail_count t + Z.of_nat n /\
  Z.of_nat (length (results t')) = Z.of_nat (length (results t)) + Z.of_nat n /\
  progress t' = (match n with O => progress t | S _ => i + Z.of_nat n end).
Proof.
  induction n as [|n IH]; intros i t t' H; simpl in H.
  - inversion H; subst. repeat split; lia.
  - assert (Hstep : attempts env n (i + 1)
                      (record_result (set_progress t (i + 1))
                         (_register_one_sync
                            (match env (Z.to_nat i) with
                             | Ran w => w
                             | CancelledAsleep w => w
                             | _ => StillAlive
                             end))) = (Completed, t')).
    { destruct (env (Z.to_nat i)) as [w|e| |w]; try discriminate; [exact H|].
      destruct (i <? count t - 1); [discriminate|exact H]. }
    apply IH in Hstep. destruct Hstep as (Hc & Hl & Hp).
    simpl in Hc, Hl, Hp. rewrite length_app in Hl. simpl in Hl.
    split; [|split].
    + destruct (success (_register_one_sync _)); lia.
    + lia.
    + destruct n; simpl in Hp; lia.
Qed.



Lemma successes_app rs r :
  successes (rs ++ [r])%list = (successes rs + (if success r then 1 else 0))%nat.
Proof.
  unfold successes. rewrite List.filter_app, length_app. simpl.
  destruct (success r); reflexivity.
Qed.

Lemma failures_app rs r :
  failures (rs ++ [r])%list = (failures rs + (if success r then 0 else 1))%nat.
Proof.
  unfold failures. rewrite List.filter_app, length_app. simpl.
  destruct (success r); reflexivity.
Qed.

Lemma record_result_mirror t r :
  success_count t = Z.of_nat (successes (results t)) ->
  fail_count t = Z.of_nat (failures (results t)) ->
  success_count (record_result t r)
  = Z.of_nat (successes (results (record_result t r))) /\
  fail_count (record_result t r)
  = Z.of_nat (failures (results (record_result t r))).
Proof.
  intros Hs Hf. simpl. rewrite successes_app, failures_app.
  destruct (success r); lia.
Qed.

(** The two counters follow the result list through the loop. *)
Lemma attempts_mirror env n : forall i t ex t',
  attempts env n i t = (ex, t') ->
  success_count t = Z.of_nat (successes (results t)) ->
  fail_count t = Z.of_nat (failures (results t)) ->
  success_count t' = Z.of_nat (successes (results t')) /\
  fail_count t' = Z.of_nat (failures (results t')).
Proof.
  induction n as [|n IH]; intros i t ex t' H Hs Hf; simpl in H.
  - inversion H; subst. auto.
  - destruct (env (Z.to_nat i)) as [w|e| |w].
    + apply IH in H; [exact H| |];
        apply (record_result_mirror (set_progress t (i + 1))); assumption.
    + inversion H; subst. simpl. auto.
    + inversion H; subst. simpl. auto.
    + destruct (i <? count t - 1).
      * inversion H; subst.
        apply (record_result_mirror (set_progress t (i + 1))); assumption.
      * apply IH in H; [exact H| |];
          apply (record_result_mirror (set_progress t (i + 1))); assumption.
Qed.

(** After a normal end the result list holds, in order, the outcome of
    every round. *)
Lemma attempts_outcomes env n : forall i t t',
  0 <= i ->
  attempts env n i t = (Completed, t') ->
  List.map Some (results t')
  = (List.map Some (results t)
     ++ List.map (fun k => outcome_of (env k)) (seq (Z.to_nat i) n))%list.
Proof.
  induction n as [|n IH]; intros i t t' Hi H; simpl in H.
  - inversion H; subst. simpl. rewrite app_nil_r. reflexivity.
  - cbn [seq List.map].
    destruct (env (Z.to_nat i)) as [w|e| |w] eqn:Hw; try discriminate.
    + apply IH in H; [|lia]. rewrite H. simpl.
      rewrite List.map_app, <- app_assoc. simpl.
      replace (Z.to_nat (i + 1)) with (S (Z.to_nat i)) by lia. reflexivity.
    + destruct (i <? count t - 1); [discriminate|].
      apply IH in H; [|lia]. rewrite H. simpl.
      rewrite List.map_app, <- app_assoc. simpl.
      replace (Z.to_nat (i + 1)) with (S (Z.to_nat i)) by lia. reflexivity.
Qed.

Lemma successes_positive rs :
  (0 < successes rs)%nat <-> exists r, In r rs /\ success r = true.
Proof.
  unfold successes. induction rs as [|r rs IH]; simpl.
  - split; [lia|]. intros (r & [] & _).
  - destruct (success r) eqn:Hr; simpl.
    + split; [|lia]. intros _. exists r. auto.
    + rewrite IH. split.
      * intros (x & Hin & Hx). exists x. auto.
      * intros (x & [->|Hin] & Hx); [congruence|]. exists x. auto.
Qed.

End BatchRun.

(** C1.  For every requested count >= 0, a batch run that is left without an
    orchestration-level error leaves a task whose progress (the completed
    count) equals success_count + fail_count, which equals the requested
    count.  The result list holds, in order, the outcome of every round; the
    two counters are the numbers of succeeded and of failed results in it
    (so neither is negative); and the final status is success exactly when
    success_count > 0, that is when some attempt succeeded, and failed
    exactly when success_count is 0, that is when the count is 0 or every
    attempt failed. *)
Theorem completed_batch_counts
    (s s1 s2 : RS.Service) (cnt : Z) (domain : option string) (uuid : string)
    (now now' : Z) (env : nat -> RS.executor_event) (t : RS.RegisterTask) :
  0 <= cnt ->
  RS.start_register s cnt domain uuid now = (inr t, s1) ->
  RS._run_register_async s1 t env now' = (RS.Completed, s2) ->
  exists t', RS.get_task s2 uuid = Some t' /\
    RS.progress t' = RS.success_count t' + RS.fail_count t' /\
    RS.success_count t' + RS.fail_count t' = cnt /\
    Z.of_nat (length (RS.results t')) = cnt /\
    (RS.status t' = RS.SUCCESS <-> 0 < RS.success_count t') /\
    (RS.status t' = RS.FAILED <-> RS.success_count t' = 0) /\
    RS.finished_at t' = Some now' /\
    List.map Some (RS.results t')
    = List.map (fun k => TaskLedger.outcome_of (env k)) (seq 0 (Z.to_nat cnt)) /\
    RS.success_count t' = Z.of_nat (TaskLedger.successes (RS.results t')) /\
    RS.fail_count t' = Z.of_nat (TaskLedger.failures (RS.results t')) /\
    (RS.status t' = RS.SUCCESS <->
     exists r, In r (RS.results t') /\ RS.success r = true) /\
    (RS.status t' = RS.FAILED <->
     forall r, In r (RS.results t') -> RS.success r = false).
Proof.
  intros Hcnt Hstart Hrun.
  unfold RS.start_register in Hstart.
  destruct (RS.already_running s); [discriminate|].
  inversion Hstart as [[Ht Hs1]]. clear Hstart.
  unfold RS._run_register_async, RS.run_body in Hrun.
  subst t. simpl in Hrun.
  destruct (RS.attempts env (Z.to_nat cnt) 0 _) as [ex t1] eqn:Hloop.
  destruct ex; inversion Hrun as [Hs2]; clear Hrun.
  destruct (attempts_fields _ _ _ _ _ _ Hloop) as (Hid & _ & _ & _ & _ & Hpos).
  destruct (attempts_completed _ _ _ _ _ Hloop) as (Hc & Hl & Hp).
  destruct (attempts_mirror _ _ _ _ _ _ Hloop eq_refl eq_refl) as (Hms & Hmf).
  pose proof (attempts_outcomes _ _ _ _ _ (Z.le_refl 0) Hloop) as Hout.
  pose proof (successes_positive (RS.results t1)) as Hsp.
  simpl in Hid, Hpos, Hc, Hl, Hp, Hout.
  assert (Hstat : (if 0 <? RS.success_count t1 then RS.SUCCESS else RS.FAILED)
                  = RS.SUCCESS <-> 0 < RS.success_count t1).
  { destruct (0 <? RS.success_count t1) eqn:Hlt.
    - apply Z.ltb_lt in Hlt. tauto.
    - apply Z.ltb_ge in Hlt. split; [discriminate|lia]. }
  assert (Hfail : (if 0 <? RS.success_count t1 then RS.SUCCESS else RS.FAILED)
                  = RS.FAILED <-> RS.success_count t1 = 0).
  { destruct (0 <? RS.success_count t1) eqn:Hlt.
    - apply Z.ltb_lt in Hlt. split; [discriminate|lia].
    - apply Z.ltb_ge in Hlt. split; [lia|reflexivity]. }
  eexists. split.
  - unfold RS.get_task, RS.run_finally. simpl. rewrite Hid.
    apply lookup_insert_eq.
  - simpl.
    split; [destruct (Z.to_nat cnt) eqn:Hn; lia|].
    split; [lia|]. split; [lia|]. split; [exact Hstat|]. split; [exact Hfail|].
    split; [reflexivity|]. split; [exact Hout|].
    split; [exact Hms|]. split; [exact Hmf|]. split.
    + rewrite Hstat, <- Hsp. lia.
    + rewrite Hfail. split.
      * intros Hz r Hin. destruct (RS.success r) eqn:Hr; [|reflexivity].
        assert (0 < TaskLedger.successes (RS.results t1))%nat
          by (apply Hsp; eauto). lia.
      * intros Hall.
        destruct (Nat.eq_dec (TaskLedger.successes (RS.results t1)) 0%nat) as [Hz|Hnz];
          [lia|].
        assert (0 < TaskLedger.successes (RS.results t1))%nat as Hgt by lia.
        apply Hsp in Hgt. destruct Hgt as (r & Hin & Hr).
        rewrite (Hall r Hin) in Hr. discriminate.
Qed.


(** C3 (amended).  A call to start while the active-task pointer designates a
    task whose status is running raises the ValueError and leaves the whole
    service (registry, every task in it, the pointer, the chosen domain)
    as it was. *)
Theorem start_rejected_while_running
    (s : RS.Service) (cur : string) (t : RS.RegisterTask)
    (cnt : Z) (domain : option string) (uuid : string) (now : Z) :
  RS._current_task_id s = Some cur -> cur <> EmptyString ->
  RS._tasks s !! cur = Some t -> RS.status t = RS.RUNNING ->
  RS.start_register s cnt domain uuid now
  = (inl (PyException "ValueError" "已有注册任务在运行中"), s).
Proof.
  intros Hcur Hne Hget Hst. unfold RS.start_register, RS.already_running.
  rewrite Hcur, Hget, Hst.
  destruct cur; [congruence|]. reflexivity.
Qed.

(** C10.  However the run is left (all attempts done, an exception caught by
    the except clause, or a cancellation), afterwards the task's finished_at
    is set, the active-task pointer is cleared, get_current_task returns
    None, and the next start call is accepted. *)
Theorem finished_run_clears_active_task
    (s : RS.Service) (t : RS.RegisterTask) (env : nat -> RS.executor_event)
    (now : Z) :
  let s' := snd (RS._run_register_async s t env now) in
  RS._current_task_id s' = None /\
  RS.get_current_task s' = None /\
  (exists t', RS.get_task s' (RS.id t) = Some t' /\ RS.finished_at t' = Some now) /\
  (forall cnt domain uuid now2,
      fst (RS.start_register s' cnt domain uuid now2)
      = inr (RS.new_task uuid cnt now2)).
Proof.
  unfold RS._run_register_async.
  destruct (RS.run_body env t) as [ex t'] eqn:Hb. simpl.
  assert (RS.id t' = RS.id t) as Hid.
  { unfold RS.run_body in Hb.
    destruct (RS.attempts env _ 0 _) as [ex1 t1] eqn:Hloop.
    apply attempts_fields in Hloop. destruct Hloop as (Hid & _).
    destruct ex1; inversion Hb; subst; simpl; exact Hid. }
  split; [reflexivity|]. split; [reflexivity|]. split.
  - eexists. split.
    + unfold RS.get_task. simpl. rewrite Hid. apply lookup_insert_eq.
    + reflexivity.
  - intros. reflexivity.
Qed.

Lemma completed_batch_counts_witness :
  0 <= 2 /\
  exists t',
    RS.get_task
      (snd (RS._run_register_async
              (snd (RS.start_register RS.init 2 None "t-1" 100))
              (RS.new_task "t-1" 2 100) BatchSamples.hang_then_ok 200))
      "t-1" = Some t' /\
    RS.progress t' = RS.success_count t' + RS.fail_count t' /\
    RS.success_count t' + RS.fail_count t' = 2 /\
    Z.of_nat (length (RS.results t')) = 2 /\
    (RS.status t' = RS.SUCCESS <-> 0 < RS.success_count t') /\
    (RS.status t' = RS.FAILED <-> RS.success_count t' = 0) /\
    RS.finished_at t' = Some 200 /\
    List.map Some (RS.results t')
    = List.map (fun k => TaskLedger.outcome_of (BatchSamples.hang_then_ok k))
        (seq 0 (Z.to_nat 2)) /\
    RS.success_count t' = Z.of_nat (TaskLedger.successes (RS.results t')) /\
    RS.fail_count t' = Z.of_nat (TaskLedger.failures (RS.results t')) /\
    (RS.status t' = RS.SUCCESS <->
     exists r, In r (RS.results t') /\ RS.success r = true) /\
    (RS.status t' = RS.FAILED <->
     forall r, In r (RS.results t') -> RS.success r = false).
Proof.
  split; [lia|].
  apply (completed_batch_counts RS.init
           (snd (RS.start_register RS.init 2 None "t-1" 100)) _
           2 None "t-1" 100 200 BatchSamples.hang_then_ok
           (RS.new_task "t-1" 2 100));
    [lia | reflexivity | reflexivity].
Defined.

(** Two attempts that both hang past the deadline: two failure records, and
    the batch ends failed. *)
Example all_timeouts_end_failed :
  exists t',
    RS.run_body TaskLedger.all_hang (RS.new_task "t-1" 2 100) = (RS.Completed, t') /\
    RS.status t' = RS.FAILED /\ RS.success_count t' = 0 /\ RS.fail_count t' = 2.
Proof. eexists. split; [reflexivity|]. repeat split. Qed.


Lemma start_rejected_while_running_witness :
  RS.start_register BatchSamples.running_service 5 None "t-2" 300
  = (inl (PyException "ValueError" "已有注册任务在运行中"),
     BatchSamples.running_service).
Proof.
  apply (start_rejected_while_running BatchSamples.running_service "t-1"
           (RS.set_status (RS.new_task "t-1" 2 100) RS.RUNNING));
    [reflexivity | discriminate | reflexivity | reflexivity].
Defined.

(** C3 as stated fails: right after an accepted start the task exists, is the
    active one and has not finished (it is still pending), and yet a second
    start is accepted, registers a second task and moves the pointer. *)
Lemma start_accepted_while_pending :
  exists t1,
    RS.get_current_task BatchSamples.just_started = Some t1 /\
    RS.status t1 = RS.PENDING /\ RS.finished_at t1 = None /\
    exists t2 s2,
      RS.start_register BatchSamples.just_started 1 None "t-2" 101
      = (inr t2, s2) /\
      RS.get_task s2 "t-2" = Some t2 /\
      RS._current_task_id s2 = Some "t-2" /\
      RS._current_task_id BatchSamples.just_started = Some "t-1".
Proof.
  eexists. split; [reflexivity|]. split; [reflexivity|]. split; [reflexivity|].
  eexists. eexists. split; [reflexivity|]. split; [reflexivity|].
  split; reflexivity.
Qed.

(** ** Code extraction *)

Section RegexFacts.
Import PyStr Re.

Lemma lit_calls s : forall prev rest k m,
  lit s prev rest k = Some m -> exists prev' rest', k prev' rest' = Some m.
Proof.
  induction s as [|c s IH]; intros prev rest k m H; simpl in H.
  - eauto.
  - destruct rest as [|d rest]; [discriminate|].
    destruct (Ascii.eqb c d); [|discriminate]. eapply IH; eauto.
Qed.

Lemma plus_calls p : forall rest prev k m,
  plus p prev rest k = Some m -> exists prev' rest', k prev' rest' = Some m.
Proof.
  induction rest as [|c rest IH]; intros prev k m H; simpl in H.
  - discriminate.
  - destruct (p c); [|discriminate].
    destruct (plus p (Some c) rest k) eqn:E.
    + inversion H; subst. eapply IH; eauto.
    + eauto.
Qed.

(** [[class]{n}] consumes exactly [n] characters of the class. *)
Lemma times_sound n p : forall prev rest k m,
  times n p prev rest k = Some m ->
  exists w prev' rest',
    rest = w +:+ rest' /\ String.length w = n /\ all_chars p w = true /\
    k prev' rest' = Some m.
Proof.
  induction n as [|n IH]; intros prev rest k m H; simpl in H.
  - exists EmptyString, prev, rest. repeat split; assumption.
  - destruct rest as [|c rest]; [discriminate|].
    destruct (p c) eqn:Hp; [|discriminate].
    destruct (IH _ _ _ _ H) as (w & prev' & rest' & -> & Hl & Ha & Hk).
    exists (String c w), prev', rest'. simpl. rewrite Hp, Ha, Hl.
    repeat split; assumption.
Qed.

Lemma length_append (a b : string) :
  String.length (a +:+ b) = (String.length a + String.length b)%nat.
Proof. induction a as [|c a IH]; simpl; [reflexivity|]. rewrite IH. reflexivity. Qed.

Lemma substring_prefix (w rest : string) :
  String.substring 0 (String.length (w +:+ rest) - String.length rest) (w +:+ rest) = w.
Proof.
  rewrite length_append.
  replace (String.length w + String.length rest - String.length rest)%nat
    with (String.length w) by lia.
  induction w as [|c w IH]; simpl.
  - destruct rest; reflexivity.
  - rewrite IH. reflexivity.
Qed.

Lemma all_chars_mono (p q : ascii -> bool) (s : string) :
  (forall c, p c = true -> q c = true) ->
  all_chars p s = true -> all_chars q s = true.
Proof.
  intros Hpq. induction s as [|c s IH]; simpl; [reflexivity|].
  intros H. apply andb_true_iff in H. destruct H as [Hc Hs].
  rewrite (Hpq _ Hc), (IH Hs). reflexivity.
Qed.

(** The matcher hands on either the capture it was given or a code. *)
Lemma exec_capture r : groups_capture_codes r ->
  forall prev rest cap k m,
    exec r prev rest cap k = Some m ->
    exists prev' rest' cap',
      k prev' rest' cap' = Some m /\
      (cap' = cap \/ exists c, cap' = Some c /\ is_code c).
Proof.
  induction r as [s|n p|p|r1 IH1 r2 IH2|r1 IH1 r2 IH2|r1 IH1| | |];
    intros Hok prev rest cap k m H; cbn [exec] in H.
  - apply lit_calls in H. destruct H as (prev' & rest' & H). eauto 6.
  - apply times_sound in H. destruct H as (_ & prev' & rest' & _ & _ & _ & H).
    eauto 6.
  - apply plus_calls in H. destruct H as (prev' & rest' & H). eauto 6.
  - destruct Hok as [Hok1 Hok2].
    destruct (IH1 Hok1 _ _ _ _ _ H) as (p1 & s1 & c1 & H1 & Hc1).
    destruct (IH2 Hok2 _ _ _ _ _ H1) as (p2 & s2 & c2 & H2 & Hc2).
    exists p2, s2, c2. split; [exact H2|].
    destruct Hc2 as [->|Hc2]; [exact Hc1|right; exact Hc2].
  - destruct Hok as [Hok1 Hok2].
    destruct (exec r1 prev rest cap k) eqn:E.
    + inversion H; subst. eapply IH1; eauto.
    + eapply IH2; eauto.
  - destruct r1 as [|n p| | | | | | |]; simpl in Hok; try contradiction.
    destruct Hok as [-> Hp]. cbn [exec] in H.
    apply times_sound in H.
    destruct H as (w & prev' & rest' & -> & Hl & Ha & H).
    rewrite substring_prefix in H.
    exists prev', rest', (Some w). split; [exact H|].
    right. exists w. split; [reflexivity|]. split; [exact Hl|].
    eapply all_chars_mono; eauto.
  - destruct (xorb _ _); [|discriminate]. eauto 6.
  - destruct prev; [discriminate|]. eauto 6.
  - destruct rest as [|c rest]; [eauto 6|].
    destruct c as [[] [] [] [] [] [] [] []]; try discriminate.
    destruct rest; [eauto 6|discriminate].
Qed.

Lemma search_from_capture r : groups_capture_codes r ->
  forall rest prev c, search_from r prev rest = Some (Some c) -> is_code c.
Proof.
  intros Hok. induction rest as [|a rest IH]; intros prev c H; simpl in H.
  - destruct (exec r prev EmptyString None accept) eqn:E; [|discriminate].
    inversion H; subst.
    destruct (exec_capture r Hok _ _ _ _ _ E) as (? & ? & cap' & Hk & Hc).
    unfold accept in Hk. inversion Hk; subst.
    destruct Hc as [Hc|(c' & Hc & Hcode)]; [discriminate|].
    inversion Hc; subst. exact Hcode.
  - destruct (exec r prev (String a rest) None accept) eqn:E.
    + inversion H; subst.
      destruct (exec_capture r Hok _ _ _ _ _ E) as (? & ? & cap' & Hk & Hc).
      unfold accept in Hk. inversion Hk; subst.
      destruct Hc as [Hc|(c' & Hc & Hcode)]; [discriminate|].
      inversion Hc; subst. exact Hcode.
    + eapply IH; eauto.
Qed.

End RegexFacts.

Section ExtractionFacts.
Import PyStr Re Soup GeminiAuthHelper.

(** A stripped text does not end in white space. *)
Lemma rstrip_last s : forall w c,
  rstrip s = w +:+ String c EmptyString -> is_space c = false.
Proof.
  induction s as [|a s IH]; intros w c H; simpl in H.
  - destruct w; discriminate.
  - destruct (rstrip s) as [|b r] eqn:E.
    + destruct (is_space a) eqn:Ha.
      * destruct w; discriminate.
      * destruct w as [|x w]; simpl in H.
        -- inversion H; subst. exact Ha.
        -- inversion H. destruct w; discriminate.
    + destruct w as [|x w]; simpl in H.
      * inversion H.
      * inversion H; subst. eapply IH. eassumption.
Qed.

Lemma append_empty_r (s : string) : s +:+ EmptyString = s.
Proof.
  induction s as [|c s IH]; [reflexivity|].
  change (String c s +:+ EmptyString) with (String c (s +:+ EmptyString)).
  rewrite IH. reflexivity.
Qed.

(** [re.match(r'^[A-Za-z0-9]{6}$', text)] on a stripped text accepts codes
    only. *)
Lemma six_alnum_stripped s :
  is_some (re_match six_alnum (strip s)) = true -> is_code (strip s).
Proof.
  unfold re_match, six_alnum. cbn [exec].
  destruct (times 6 is_alnum None (strip s) _) as [m|] eqn:E; [|discriminate].
  intros _. apply times_sound in E.
  destruct E as (w & prev' & rest' & Hs & Hl & Ha & Hk).
  cbn [exec] in Hk.
  assert (rest' = EmptyString) as ->.
  { destruct rest' as [|c rest']; [reflexivity|].
    destruct c as [[] [] [] [] [] [] [] []]; try discriminate.
    destruct rest'; [|discriminate].
    unfold strip in Hs. apply rstrip_last in Hs. discriminate. }
  rewrite append_empty_r in Hs. rewrite Hs. split; assumption.
Qed.

Lemma first_code_is_code els : forall t, first_code els = Some t -> is_code t.
Proof.
  induction els as [|el els IH]; intros t H; simpl in H; [discriminate|].
  destruct (is_some (re_match six_alnum (strip (get_text el)))) eqn:E.
  - inversion H; subst. apply six_alnum_stripped. exact E.
  - apply IH. exact H.
Qed.

Lemma first_found_some {A B : Type} (f : A -> option B) (l : list A) (b : B) :
  first_found f l = Some b -> exists x, f x = Some b.
Proof.
  induction l as [|x l IH]; simpl; [discriminate|].
  destruct (f x) eqn:E.
  - intros H. inversion H; subst. eauto.
  - exact IH.
Qed.

Lemma first_match_is_code pats text : forall c,
  Forall groups_capture_codes pats ->
  first_match pats text = Some c -> is_code c.
Proof.
  induction pats as [|r pats IH]; intros c Hall H; simpl in H; [discriminate|].
  inversion Hall as [|? ? Hr Hrest]; subst.
  destruct (re_search r text) as [m|] eqn:E.
  - subst m. eapply search_from_capture; eauto.
  - apply IH; assumption.
Qed.

Lemma is_alnum_of_digit c : is_digit c = true -> is_alnum c = true.
Proof. unfold is_alnum. intros ->. apply orb_true_r. Qed.

Lemma is_alnum_of_upper_digit c : is_upper_digit c = true -> is_alnum c = true.
Proof.
  unfold is_alnum, is_upper_digit. intros H. apply orb_true_iff in H.
  destruct H as [->| ->]; [reflexivity|apply orb_true_r].
Qed.

Lemma patterns_capture_codes : Forall groups_capture_codes patterns.
Proof.
  unfold patterns. repeat constructor; simpl; auto using is_alnum_of_digit, is_alnum_of_upper_digit.
Qed.

End ExtractionFacts.

(** C9.  Whatever the parser makes of the body, a value returned by the
    extraction, from any of its three stages, is a string of exactly six
    characters, each an ASCII letter or digit. *)
Theorem extracted_code_is_six_alnum
    (BeautifulSoup : string -> list Soup.node) (content c : string) :
  GeminiAuthHelper._extract_code_from_html BeautifulSoup content = Some c ->
  String.length c = 6%nat /\ PyStr.all_chars PyStr.is_alnum c = true.
Proof.
  unfold GeminiAuthHelper._extract_code_from_html.
  destruct (negb (PyStr.truthy content)); [discriminate|].
  destruct (GeminiAuthHelper.first_found _ GeminiAuthHelper.class_patterns) as [t|] eqn:E1.
  - intros H. inversion H; subst.
    apply first_found_some in E1. destruct E1 as [x Hx].
    apply first_code_is_code in Hx. exact Hx.
  - destruct (GeminiAuthHelper.first_found _ GeminiAuthHelper.tags) as [t|] eqn:E2.
    + intros H. inversion H; subst.
      apply first_found_some in E2. destruct E2 as [x Hx].
      apply first_code_is_code in Hx. exact Hx.
    + intros H. eapply first_match_is_code; [apply patterns_capture_codes|exact H].
Qed.

Lemma extracted_code_is_six_alnum_witness :
  GeminiAuthHelper._extract_code_from_html MailSamples.text_parser
    "Code:  ab12Z9." = Some "ab12Z9" /\
  String.length "ab12Z9" = 6%nat /\ PyStr.all_chars PyStr.is_alnum "ab12Z9" = true.
Proof.
  split; [reflexivity|].
  apply (extracted_code_is_six_alnum MailSamples.text_parser "Code:  ab12Z9." "ab12Z9").
  reflexivity.
Defined.

(** C7.  With a body that the parser reads as noise text, the element
    <strong>AB12C9</strong>, noise text, the extraction returns exactly
    AB12C9; and the plain text "your code is 482913 valid 10 min" gives
    482913, found by the bare six-digit pattern, the keyword pattern not
    being found in it. *)
Theorem extraction_pattern_priority
    (BeautifulSoup : string -> list Soup.node) :
  (forall content before after : string,
      content <> EmptyString ->
      BeautifulSoup content
      = [Soup.Text before; Soup.Tag "strong" [] [Soup.Text "AB12C9"]; Soup.Text after] ->
      GeminiAuthHelper._extract_code_from_html BeautifulSoup content = Some "AB12C9") /\
  (BeautifulSoup MailSamples.plain_body = [Soup.Text MailSamples.plain_body] ->
   GeminiAuthHelper._extract_code_from_html BeautifulSoup MailSamples.plain_body
   = Some "482913" /\
   Re.re_search GeminiAuthHelper.keyword_pattern MailSamples.plain_body = None /\
   Re.re_search GeminiAuthHelper.digits_pattern MailSamples.plain_body
   = Some (Some "482913")).
Proof.
  split.
  - intros content before after Hne Hsoup.
    unfold GeminiAuthHelper._extract_code_from_html. rewrite Hsoup.
    destruct content; [congruence|]. reflexivity.
  - intros Hsoup. split; [|split; reflexivity].
    unfold GeminiAuthHelper._extract_code_from_html. rewrite Hsoup.
    vm_compute. reflexivity.
Qed.

Lemma extraction_pattern_priority_witness :
  GeminiAuthHelper._extract_code_from_html MailSamples.html_parser
    MailSamples.html_body = Some "AB12C9" /\
  GeminiAuthHelper._extract_code_from_html MailSamples.text_parser
    MailSamples.plain_body = Some "482913".
Proof.
  split.
  - apply (proj1 (extraction_pattern_priority MailSamples.html_parser)
             MailSamples.html_body "Hello, your sign-in code: " " (valid 10 min)");
      [discriminate | reflexivity].
  - apply (proj2 (extraction_pattern_priority MailSamples.text_parser)).
    reflexivity.
Defined.

(** ** Waiting for the mailed code *)

Section InboxFacts.
Import Run GeminiAuthHelper FeedShapes.
Context {W : Type}.
Variable world : World W.
Variable config : GeminiAuthConfig.
Variable BeautifulSoup : string -> list Soup.node.
Variable json_loads : string -> exn + json.
Variable email : string.
(** The baseline id: a truthy value, equal to itself. *)
Variable v : json.
Hypothesis v_truthy : PyJson.truthy v = true.
Hypothesis v_eq : PyJson.eq v v = true.
Hypothesis feed_stays : forall w, newest_is world config email v w.

(** With the baseline still on top of the feed, way 1 makes its request,
    sleeps two seconds and takes the [continue]. *)
Lemma poll_api_emails_continues w :
  poll_api_emails world config BeautifulSoup email v w
  = (inr Continue,
     time_sleep world 2000 (snd (get_api_emails world config email w))).
Proof.
  destruct (feed_stays w) as (r & w' & data & emails & latest &
                              Hget & Hst & Hbody & Hemails & Htr & Hidx & Hid).
  unfold poll_api_emails, bind. rewrite Hget, Hst. simpl.
  rewrite Hbody. simpl. rewrite Hemails. simpl. rewrite Htr.
  rewrite Hidx. simpl. rewrite Hid. simpl.
  rewrite v_truthy, v_eq. reflexivity.
Qed.

(** The round ends there: the administrative feed is not asked. *)
Lemma poll_round_continues w :
  poll_round world config BeautifulSoup json_loads email v w
  = (inr None,
     time_sleep world 2000 (snd (get_api_emails world config email w))).
Proof.
  unfold poll_round, bind, try_except.
  rewrite poll_api_emails_continues. reflexivity.
Qed.

Lemma polling_never_returns fuel start timeout : forall w,
  exists w',
    while_before (time_time world) fuel start timeout
      (poll_round world config BeautifulSoup json_loads email v) w
    = (inr None, w').
Proof.
  induction fuel as [|fuel IH]; intros w; simpl.
  - eauto.
  - destruct (time_time world w - start <? timeout); [|eauto].
    unfold bind at 1. rewrite poll_round_continues. apply IH.
Qed.

End InboxFacts.

(** The same mailbox read with an older baseline hands out the code of m1:
    the stub does return codes. *)
Example newer_message_is_reported :
  fst (GeminiAuthHelper.get_verification_code
         (Stub.world InboxSamples.feed InboxSamples.admin) InboxSamples.config
         MailSamples.text_parser InboxSamples.json_loads
         "u1@mail.test" 60 (JStr "m0") (Stub.browser [] []))
  = inr (Some (JStr "111111")).
Proof. vm_compute. reflexivity. Qed.

(** ** Deadline loops *)

Section DeadlineLoops.
Import Run.
Context {W A : Type}.
Variable now : W -> Z.
Variable body : M W (option A).
Variable step : Z.
Hypothesis step_pos : 0 < step.
(** A round that goes on has slept for [step] at least. *)
Hypothesis round_sleeps :
  forall w w', body w = (inr None, w') -> now w + step <= now w'.

(** Once the fuel covers the time left, more fuel changes nothing: the loop
    stops on its clock test, not on its fuel. *)
Lemma while_before_fuel_enough start timeout : forall fuel w,
  start + timeout - now w < step * Z.of_nat fuel ->
  while_before now (S fuel) start timeout body w
  = while_before now fuel start timeout body w.
Proof.
  induction fuel as [|fuel IH]; intros w Hleft.
  - simpl. destruct (Z.ltb_spec (now w - start) timeout); [lia|reflexivity].
  - change (while_before now (S (S fuel)) start timeout body w)
      with (if now w - start <? timeout
            then bind body (fun r =>
                   match r with
                   | Some a => ret (Some a)
                   | None => while_before now (S fuel) start timeout body
                   end) w
            else (inr None, w)).
    change (while_before now (S fuel) start timeout body w)
      with (if now w - start <? timeout
            then bind body (fun r =>
                   match r with
                   | Some a => ret (Some a)
                   | None => while_before now fuel start timeout body
                   end) w
            else (inr None, w)).
    destruct (now w - start <? timeout); [|reflexivity].
    unfold bind. destruct (body w) as [[e|[a|]] w'] eqn:E; try reflexivity.
    apply IH. apply round_sleeps in E. nia.
Qed.

(** The fuel given by [rounds] covers the whole deadline. *)
Lemma rounds_cover_deadline start timeout w :
  now w = start ->
  while_before now (S (rounds timeout step)) start timeout body w
  = while_before now (rounds timeout step) start timeout body w.
Proof.
  intros Hnow. apply while_before_fuel_enough. rewrite Hnow. unfold rounds.
  destruct (Z.le_gt_cases 0 timeout) as [Hpos|Hneg].
  - rewrite Nat2Z.inj_add, Z2Nat.id by (apply Z.div_pos; lia).
    pose proof (Z.mul_succ_div_gt timeout step step_pos). lia.
  - assert (timeout / step < 0) by (apply Z.div_lt_upper_bound; lia).
    destruct (timeout / step) eqn:Hq; lia.
Qed.

End DeadlineLoops.

(** ** Filling in the code *)

Section RunFacts.
Import Run.
Context {W : Type}.

Lemma bind_inr {A B : Type} (m : M W A) (k : A -> M W B) w b w' :
  bind m k w = (inr b, w') ->
  exists a w1, m w = (inr a, w1) /\ k a w1 = (inr b, w').
Proof.
  unfold bind. destruct (m w) as [[e|a] w1]; [discriminate|]. eauto.
Qed.

Lemma bind_step {A B : Type} (m : M W A) (k : A -> M W B) w a w1 :
  m w = (inr a, w1) -> bind m k w = k a w1.
Proof. unfold bind. intros ->. reflexivity. Qed.

Lemma ret_inr {A : Type} (a b : A) (w w' : W) :
  ret a w = (inr b, w') -> b = a /\ w' = w.
Proof. unfold ret. intros H. inversion H. auto. Qed.

End RunFacts.

Section FillFacts.
Import Run GeminiAuthHelper.
Context {W : Type}.
Variable world : World W.

(** The resend guard never raises. *)
Lemma disable_resend_buttons_returns w :
  exists n w', disable_resend_buttons world w = (inr n, w').
Proof.
  unfold disable_resend_buttons, try_except, bind.
  destruct (execute_script world DISABLE_RESEND_JS [] w) as [[e|n] w']; simpl; eauto.
Qed.

(** Shape 1 either returns True or finds fewer than six boxes. *)
Lemma six_boxes_answers code w r w' :
  six_boxes world code w = (inr r, w') -> r = Return true \/ r = Fall.
Proof.
  unfold six_boxes. intros H.
  apply bind_inr in H. destruct H as (pins & w1 & _ & H).
  destruct (6 <=? length pins)%nat.
  - apply bind_inr in H. destruct H as (b & w2 & _ & H).
    apply ret_inr in H. tauto.
  - apply ret_inr in H. tauto.
Qed.

(** Shape 2, entered without raising, returns True: readback confirmed or
    not. *)
Lemma single_box_answers code w r w' :
  single_box world code w = (inr r, w') -> r = Return true.
Proof.
  unfold single_box. intros H.
  repeat (apply bind_inr in H; destruct H as (? & ? & _ & H)).
  match type of H with
  | (match ?seen with _ => _ end) _ = _ => destruct seen
  end.
  - apply ret_inr in H. tauto.
  - apply bind_inr in H. destruct H as (? & ? & _ & H).
    apply ret_inr in H. tauto.
Qed.

(** Shape 3 likewise. *)
Lemma otp_container_answers code w r w' :
  otp_container world code w = (inr r, w') -> r = Return true.
Proof.
  unfold otp_container. intros H.
  repeat (apply bind_inr in H; destruct H as (? & ? & _ & H)).
  apply ret_inr in H. tauto.
Qed.

Lemma or_next_returned shape next w w' :
  shape w = (inr (Return true), w') ->
  or_next (W:=W) shape next w = (inr true, w').
Proof. unfold or_next, bind, try_except. intros ->. reflexivity. Qed.

Lemma or_next_fell shape next w w' :
  shape w = (inr Fall, w') -> or_next (W:=W) shape next w = next w'.
Proof. unfold or_next, bind, try_except. intros ->. reflexivity. Qed.

Lemma or_next_raised shape next w e w' :
  shape w = (inl e, w') -> or_next (W:=W) shape next w = next w'.
Proof. unfold or_next, bind, try_except. intros ->. reflexivity. Qed.

(** Step 4 answers False exactly when sending to the focused element
    raised. *)
Lemma last_resort_cases code w :
  (exists w', last_resort world code w = (inr true, w') /\
              send_to_focus world code w = (inr true, w')) \/
  (exists e w', last_resort world code w = (inr false, w') /\
                send_to_focus world code w = (inl e, w')).
Proof.
  unfold last_resort, try_except.
  destruct (send_to_focus world code w) as [[e|r] w'] eqn:E.
  - right. exists e, w'. split; reflexivity.
  - left. exists w'.
    assert (r = true) as ->; [|split; reflexivity].
    unfold send_to_focus in E.
    repeat (apply bind_inr in E; destruct E as (? & ? & _ & E)).
    apply ret_inr in E. tauto.
Qed.

End FillFacts.

(** C4 (amended).  fill_verification_code never raises.  It answers False
    when the stripped code is not six characters long.  For a six-character
    code it answers True as soon as one of the three shapes is entered
    without raising, whether the readback confirmed the value or not, and
    also when only the final send to the focused element went through; it
    answers False exactly when there were not six boxes (or driving them
    raised), the single box raised, the OTP container raised, and the final
    send to the focused element raised as well. *)
Theorem fill_fails_only_without_any_shape
    {W : Type} (world : World W) (code : string) (w : W) :
  let c := PyStr.strip code in
  let w0 := snd (GeminiAuthHelper.disable_resend_buttons world w) in
  exists b,
    fst (GeminiAuthHelper.fill_verification_code world code w) = inr b /\
    (String.length c <> 6%nat -> b = false) /\
    (String.length c = 6%nat ->
     (b = false <->
      exists w1 w2 w3 w4 e2 e3 e4,
        (GeminiAuthHelper.six_boxes world c w0 = (inr GeminiAuthHelper.Fall, w1) \/
         exists e1, GeminiAuthHelper.six_boxes world c w0 = (inl e1, w1)) /\
        GeminiAuthHelper.single_box world c w1 = (inl e2, w2) /\
        GeminiAuthHelper.otp_container world c w2 = (inl e3, w3) /\
        GeminiAuthHelper.send_to_focus world c w3 = (inl e4, w4))).
Proof.
  intros c w0. subst w0.
  destruct (disable_resend_buttons_returns world w) as (n & w0 & Hd).
  unfold GeminiAuthHelper.fill_verification_code.
  rewrite (bind_step _ _ _ _ _ Hd). rewrite Hd. simpl snd. fold c.
  destruct (Nat.eqb_spec (String.length c) 6) as [Hlen|Hlen]; cbn [negb].
  2:{ exists false. split; [reflexivity|]. split; [reflexivity|]. intros; contradiction. }
  destruct (GeminiAuthHelper.six_boxes world c w0) as [[e1|r1] w1] eqn:E1.
  - (* shape 1 raised *)
    rewrite (or_next_raised _ _ _ _ _ E1).
    destruct (GeminiAuthHelper.single_box world c w1) as [[e2|r2] w2] eqn:E2.
    + rewrite (or_next_raised _ _ _ _ _ E2).
      destruct (GeminiAuthHelper.otp_container world c w2) as [[e3|r3] w3] eqn:E3.
      * rewrite (or_next_raised _ _ _ _ _ E3).
        destruct (last_resort_cases world c w3) as [(w4 & H4 & S4)|(e4 & w4 & H4 & S4)];
          rewrite H4; simpl.
        -- exists true. split; [reflexivity|]. split; [congruence|]. intros _.
           split; [discriminate|].
           intros (v1 & v2 & v3 & v4 & x2 & x3 & x4 & [F|[x1 F]] & F2 & F3 & F4);
             [congruence|].
           inversion F; subst. rewrite E2 in F2. inversion F2; subst.
           rewrite E3 in F3. inversion F3; subst. rewrite S4 in F4. discriminate.
        -- exists false. split; [reflexivity|]. split; [reflexivity|]. intros _.
           split; [|reflexivity]. intros _.
           exists w1, w2, w3, w4, e2, e3, e4. eauto 8.
      * apply otp_container_answers in E3 as Hr. subst r3.
        rewrite (or_next_returned _ _ _ _ E3). simpl.
        exists true. split; [reflexivity|]. split; [congruence|]. intros _.
        split; [discriminate|].
        intros (v1 & v2 & v3 & v4 & x2 & x3 & x4 & [F|[x1 F]] & F2 & F3 & F4);
          [congruence|].
        inversion F; subst. rewrite E2 in F2. inversion F2; subst.
        rewrite E3 in F3. discriminate.
    + apply single_box_answers in E2 as Hr. subst r2.
      rewrite (or_next_returned _ _ _ _ E2). simpl.
      exists true. split; [reflexivity|]. split; [congruence|]. intros _.
      split; [discriminate|].
      intros (v1 & v2 & v3 & v4 & x2 & x3 & x4 & [F|[x1 F]] & F2 & F3 & F4);
        [congruence|].
      inversion F; subst. rewrite E2 in F2. discriminate.
  - apply six_boxes_answers in E1 as Hr. destruct Hr as [->| ->].
    + rewrite (or_next_returned _ _ _ _ E1). simpl.
      exists true. split; [reflexivity|]. split; [congruence|]. intros _.
      split; [discriminate|].
      intros (v1 & v2 & v3 & v4 & x2 & x3 & x4 & [F|[x1 F]] & _); congruence.
    + (* fewer than six boxes *)
      rewrite (or_next_fell _ _ _ _ E1).
      destruct (GeminiAuthHelper.single_box world c w1) as [[e2|r2] w2] eqn:E2.
      * rewrite (or_next_raised _ _ _ _ _ E2).
        destruct (GeminiAuthHelper.otp_container world c w2) as [[e3|r3] w3] eqn:E3.
        -- rewrite (or_next_raised _ _ _ _ _ E3).
           destruct (last_resort_cases world c w3) as [(w4 & H4 & S4)|(e4 & w4 & H4 & S4)];
             rewrite H4; simpl.
           ++ exists true. split; [reflexivity|]. split; [congruence|]. intros _.
              split; [discriminate|].
              intros (v1 & v2 & v3 & v4 & x2 & x3 & x4 & [F|[x1 F]] & F2 & F3 & F4);
                [|congruence].
              inversion F; subst. rewrite E2 in F2. inversion F2; subst.
              rewrite E3 in F3. inversion F3; subst. rewrite S4 in F4. discriminate.
           ++ exists false. split; [reflexivity|]. split; [reflexivity|]. intros _.
              split; [|reflexivity]. intros _.
              exists w1, w2, w3, w4, e2, e3, e4. eauto 8.
        -- apply otp_container_answers in E3 as Hr. subst r3.
           rewrite (or_next_returned _ _ _ _ E3). simpl.
           exists true. split; [reflexivity|]. split; [congruence|]. intros _.
           split; [discriminate|].
           intros (v1 & v2 & v3 & v4 & x2 & x3 & x4 & [F|[x1 F]] & F2 & F3 & F4);
             [|congruence].
           inversion F; subst. rewrite E2 in F2. inversion F2; subst.
           rewrite E3 in F3. discriminate.
      * apply single_box_answers in E2 as Hr. subst r2.
        rewrite (or_next_returned _ _ _ _ E2). simpl.
        exists true. split; [reflexivity|]. split; [congruence|]. intros _.
        split; [discriminate|].
        intros (v1 & v2 & v3 & v4 & x2 & x3 & x4 & [F|[x1 F]] & F2 & F3 & F4);
          [|congruence].
        inversion F; subst. rewrite E2 in F2. discriminate.
Qed.

Lemma fill_fails_only_without_any_shape_witness :
  exists b,
    fst (GeminiAuthHelper.fill_verification_code BrowserSamples.world
           "123456" Stub.dead_browser) = inr b /\ b = false.
Proof.
  destruct (fill_fails_only_without_any_shape BrowserSamples.world
              "123456" Stub.dead_browser) as (b & Hb & _ & Hiff).
  exists b. split; [exact Hb|].
  apply Hiff; [reflexivity|].
  exists Stub.dead_browser, Stub.dead_browser, Stub.dead_browser, Stub.dead_browser,
    Stub.dead, Stub.dead, Stub.dead.
  split; [right; exists Stub.dead; reflexivity|].
  split; [reflexivity|]. split; reflexivity.
Defined.

(** C4 as stated fails: the code has six characters, so the length check
    passes, and yet the answer is False, because the browser is gone and
    every step down to the final send raises. *)
Lemma fill_answers_false_on_dead_browser :
  String.length (PyStr.strip "123456") = 6%nat /\
  fst (GeminiAuthHelper.fill_verification_code BrowserSamples.world
         "123456" Stub.dead_browser) = inr false.
Proof. split; reflexivity. Qed.

(** On a live page without any of the three widgets the final send goes
    through and the answer is True. *)
Example fill_answers_true_without_widgets :
  fst (GeminiAuthHelper.fill_verification_code BrowserSamples.world
         " 123456 " (Stub.browser [] [])) = inr true.
Proof. reflexivity. Qed.

(** ** Waiting for the workspace *)

Section WorkspaceFacts.
Import Run GeminiAuthHelper.
Context {W : Type}.
Variable world : World W.

(** Below the budget the crash handler does not depend on the budget. *)
Lemma on_crash_below cc max :
  cc + 1 < max -> on_crash world cc max = on_crash world cc (cc + 2).
Proof.
  intros H. unfold on_crash.
  destruct (Z.leb_spec max (cc + 1)); [lia|].
  destruct (Z.leb_spec (cc + 2) (cc + 1)); [lia|]. reflexivity.
Qed.

Lemma workspace_round_below cc max :
  cc + 1 < max -> workspace_round world cc max = workspace_round world cc (cc + 2).
Proof.
  intros H. unfold workspace_round. rewrite (on_crash_below cc max H). reflexivity.
Qed.

Lemma rounds_continue n cc max w cc' w' :
  workspace_round world cc max w = (inr (Continue, cc'), w') ->
  workspace_rounds world (S n) cc max w = workspace_rounds world n cc' max w'.
Proof. intros H. simpl. unfold bind at 1. rewrite H. reflexivity. Qed.

Lemma rounds_return n cc max w b cc' w' :
  workspace_round world cc max w = (inr (Return b, cc'), w') ->
  workspace_rounds world (S n) cc max w = (inr (b, cc'), w').
Proof. intros H. simpl. unfold bind at 1. rewrite H. reflexivity. Qed.

(** The handler counts the crash; it either gives up or, strictly below the
    budget, lets the loop go on. *)
Lemma on_crash_count cc max w f cc' w' :
  on_crash world cc max w = (inr (f, cc'), w') ->
  cc' = cc + 1 /\ (f = Return false \/ (f = Continue /\ cc + 1 < max)).
Proof.
  unfold on_crash. destruct (Z.leb_spec max (cc + 1)) as [Hle|Hlt]; intros H.
  - apply ret_inr in H. destruct H as [H _]. inversion H. auto.
  - apply bind_inr in H. destruct H as (recovered & w1 & _ & H).
    destruct recovered.
    + apply bind_inr in H. destruct H as (? & ? & _ & H).
      apply ret_inr in H. destruct H as [H _]. inversion H. auto.
    + apply ret_inr in H. destruct H as [H _]. inversion H. auto.
Qed.

Lemma workspace_round_count cc max w f cc' w' :
  workspace_round world cc max w = (inr (f, cc'), w') ->
  (cc' = cc /\ (f = Return true \/ f = Fall)) \/
  (cc' = cc + 1 /\ (f = Return false \/ (f = Continue /\ cc + 1 < max))).
Proof.
  unfold workspace_round. intros H.
  apply bind_inr in H. destruct H as (? & w1 & _ & H).
  unfold try_except in H.
  match type of H with
  | (let (_, _) := ?m w1 in _) = _ => destruct (m w1) as [[e|r] w2] eqn:E
  end.
  - destruct (looks_like_crash (PyStr.lower (str_exn e))).
    + right. eapply on_crash_count. eassumption.
    + apply ret_inr in H. destruct H as [H _]. inversion H. auto.
  - inversion H; subst. clear H.
    apply bind_inr in E. destruct E as (source & w3 & _ & E).
    destruct (is_crashed source).
    + right. eapply on_crash_count. eassumption.
    + apply bind_inr in E. destruct E as (url & w4 & _ & E).
      destruct (at_workspace url);
        apply ret_inr in E; destruct E as [E _]; inversion E; auto.
Qed.

(** The number of detected crashes never exceeds the budget. *)
Lemma workspace_rounds_count n : forall cc max w b cc' w',
  cc < max ->
  workspace_rounds world n cc max w = (inr (b, cc'), w') ->
  cc <= cc' <= max.
Proof.
  induction n as [|n IH]; intros cc max w b cc' w' Hlt H; simpl in H.
  - apply ret_inr in H. destruct H as [H _]. inversion H. lia.
  - apply bind_inr in H. destruct H as ([f c1] & w1 & Hr & H).
    apply workspace_round_count in Hr.
    destruct f as [b1| |].
    + apply ret_inr in H. destruct H as [H _]. inversion H; subst.
      destruct Hr as [[-> _]|[-> _]]; lia.
    + destruct Hr as [[_ [Hf|Hf]]|[-> [Hf|[_ Hb]]]]; try discriminate.
      apply IH in H; lia.
    + destruct Hr as [[-> _]|[_ [Hf|[Hf _]]]]; try discriminate.
      apply IH in H; lia.
Qed.

End WorkspaceFacts.

Section CrashScenarios.
Import Run GeminiAuthHelper.

(** The states the stub goes through while the page of [two_crashes] is
    polled with a budget of three. *)
Lemma two_crashes_run n max :
  3 <= max ->
  exists s,
    workspace_rounds BrowserSamples.world (S (S (S n))) 0 max BrowserSamples.two_crashes
    = (inr (true, 2), s) /\
    Stub.opened s = 2%nat /\
    Stub.visited s = [workspace_url; workspace_url] /\
    Stub.handles s = ["tab-2"].
Proof.
  intros Hmax.
  pose (s1 := snd (workspace_round BrowserSamples.world 0 2 BrowserSamples.two_crashes)).
  pose (s2 := snd (workspace_round BrowserSamples.world 1 3 s1)).
  pose (s3 := snd (workspace_round BrowserSamples.world 2 3 s2)).
  assert (workspace_round BrowserSamples.world 0 max BrowserSamples.two_crashes
          = (inr (Continue, 1), s1)) as H1.
  { rewrite (workspace_round_below BrowserSamples.world 0 max); [|lia].
    vm_compute. reflexivity. }
  assert (workspace_round BrowserSamples.world 1 max s1 = (inr (Continue, 2), s2)) as H2.
  { rewrite (workspace_round_below BrowserSamples.world 1 max); [|lia].
    vm_compute. reflexivity. }
  assert (workspace_round BrowserSamples.world 2 max s2 = (inr (Return true, 2), s3)) as H3.
  { vm_compute. reflexivity. }
  exists s3.
  rewrite (rounds_continue _ _ _ _ _ _ _ H1).
  rewrite (rounds_continue _ _ _ _ _ _ _ H2).
  rewrite (rounds_return _ _ _ _ _ _ _ _ H3).
  split; [reflexivity|]. vm_compute. repeat split; reflexivity.
Qed.

(** With the default budget the third crash in a row is the end. *)
Lemma three_crashes_run n :
  fst (workspace_rounds BrowserSamples.world (S (S (S n))) 0 3 BrowserSamples.three_crashes)
  = inr (false, 3) /\
  Stub.opened
    (snd (workspace_rounds BrowserSamples.world (S (S (S n))) 0 3 BrowserSamples.three_crashes))
  = 2%nat.
Proof.
  pose (s1 := snd (workspace_round BrowserSamples.world 0 3 BrowserSamples.three_crashes)).
  pose (s2 := snd (workspace_round BrowserSamples.world 1 3 s1)).
  pose (s3 := snd (workspace_round BrowserSamples.world 2 3 s2)).
  assert (workspace_round BrowserSamples.world 0 3 BrowserSamples.three_crashes
          = (inr (Continue, 1), s1)) as H1 by (vm_compute; reflexivity).
  assert (workspace_round BrowserSamples.world 1 3 s1 = (inr (Continue, 2), s2)) as H2
    by (vm_compute; reflexivity).
  assert (workspace_round BrowserSamples.world 2 3 s2 = (inr (Return false, 3), s3)) as H3
    by (vm_compute; reflexivity).
  rewrite (rounds_continue _ _ _ _ _ _ _ H1).
  rewrite (rounds_continue _ _ _ _ _ _ _ H2).
  rewrite (rounds_return _ _ _ _ _ _ _ _ H3).
  split; [reflexivity|]. vm_compute. reflexivity.
Qed.

End CrashScenarios.

(** C5 (amended).  On a detected crash the navigator counts it and gives up
    at once, without a recovery, when the count has reached
    max_crash_retries; below that it runs the recovery (new tab, close the
    others, go to the workspace address) and keeps polling when the recovery
    succeeded, and gives up when it did not.  The number of detected crashes
    therefore never exceeds max_crash_retries (for a budget of at least 1),
    and with the default of 3 the third crash ends the wait.  A page that is crashed on its first two
    polls and at the workspace on the third is waited for successfully, with
    exactly two recoveries, for every deadline of at least 3 rounds and
    every budget of at least 3. *)
Theorem crash_budget_and_recovery {W : Type} (world : World W) :
  (forall cc max w, max <= cc + 1 ->
      GeminiAuthHelper.on_crash world cc max w
      = (inr (GeminiAuthHelper.Return false, cc + 1), w)) /\
  (forall cc max w w', cc + 1 < max ->
      GeminiAuthHelper._recover_from_crash world GeminiAuthHelper.workspace_url w
      = (inr true, w') ->
      GeminiAuthHelper.on_crash world cc max w
      = (inr (GeminiAuthHelper.Continue, cc + 1), time_sleep world 3000 w')) /\
  (forall cc max w w', cc + 1 < max ->
      GeminiAuthHelper._recover_from_crash world GeminiAuthHelper.workspace_url w
      = (inr false, w') ->
      GeminiAuthHelper.on_crash world cc max w
      = (inr (GeminiAuthHelper.Return false, cc + 1), w')) /\
  (forall n max w b crashes w', 1 <= max ->
      GeminiAuthHelper.workspace_rounds world n 0 max w = (inr (b, crashes), w') ->
      0 <= crashes <= max) /\
  (forall timeout max, 3 <= timeout -> 3 <= max ->
      let r := GeminiAuthHelper.wait_for_workspace BrowserSamples.world timeout max
                 BrowserSamples.two_crashes in
      fst r = inr true /\
      Stub.opened (snd r) = 2%nat /\
      Stub.visited (snd r)
      = [GeminiAuthHelper.workspace_url; GeminiAuthHelper.workspace_url] /\
      Stub.handles (snd r) = ["tab-2"]) /\
  (forall timeout, 3 <= timeout ->
      let r := GeminiAuthHelper.workspace_rounds BrowserSamples.world
                 (Z.to_nat timeout) 0 3 BrowserSamples.three_crashes in
      fst r = inr (false, 3) /\ Stub.opened (snd r) = 2%nat).
Proof.
  split; [|split; [|split; [|split; [|split]]]].
  - intros cc max w H. unfold GeminiAuthHelper.on_crash.
    destruct (Z.leb_spec max (cc + 1)); [reflexivity|lia].
  - intros cc max w w' H Hr. unfold GeminiAuthHelper.on_crash.
    destruct (Z.leb_spec max (cc + 1)); [lia|].
    unfold Run.bind at 1. rewrite Hr. reflexivity.
  - intros cc max w w' H Hr. unfold GeminiAuthHelper.on_crash.
    destruct (Z.leb_spec max (cc + 1)); [lia|].
    unfold Run.bind at 1. rewrite Hr. reflexivity.
  - intros n max w b crashes w' Hmax H.
    eapply workspace_rounds_count; [|exact H]. lia.
  - intros timeout max Ht Hm r. subst r.
    unfold GeminiAuthHelper.wait_for_workspace.
    destruct (Z.to_nat timeout) as [|[|[|n]]] eqn:E; try lia.
    destruct (two_crashes_run n max Hm) as (s & Hrun & Ho & Hv & Hh).
    unfold Run.bind. rewrite Hrun. simpl. auto.
  - intros timeout Ht r. subst r.
    destruct (Z.to_nat timeout) as [|[|[|n]]] eqn:E; try lia.
    apply three_crashes_run.
Qed.

Lemma crash_budget_and_recovery_witness :
  fst (GeminiAuthHelper.wait_for_workspace BrowserSamples.world 30 3
         BrowserSamples.two_crashes) = inr true /\
  Stub.opened (snd (GeminiAuthHelper.wait_for_workspace BrowserSamples.world 30 3
                      BrowserSamples.two_crashes)) = 2%nat.
Proof.
  destruct (crash_budget_and_recovery BrowserSamples.world) as (_ & _ & _ & _ & H & _).
  destruct (H 30 3) as (Hr & Ho & _); [lia | lia |].
  split; [exact Hr | exact Ho].
Defined.

(** C5 as stated fails: with the default budget of 3 the wait is given up
    at the third detected crash, when the number of crashes (3) does not
    exceed max_crash_retries (3); the workspace page that the fourth poll
    would have shown is never looked at. *)
Lemma third_crash_gives_up_within_budget :
  fst (GeminiAuthHelper.workspace_rounds BrowserSamples.world 30 0 3
         BrowserSamples.three_crashes) = inr (false, 3) /\
  fst (GeminiAuthHelper.wait_for_workspace BrowserSamples.world 30 3
         BrowserSamples.three_crashes) = inr false /\
  ~ (3 > 3).
Proof.
  split; [vm_compute; reflexivity|]. split; [vm_compute; reflexivity|]. lia.
Qed.

(** ** Harvesting the credentials *)

Section ConfigFacts.
Import Run GeminiAuthHelper.
Context {W : Type}.
Variable world : World W.
Variable utcoffset : Z -> Z.
Variable csesidx_of : string -> option string.

(** A value returned from inside a deadline loop was returned by one of
    its rounds. *)
Lemma while_before_some {A : Type} (now : W -> Z) (body : M W (option A))
    fuel start timeout : forall w a w',
  while_before now fuel start timeout body w = (inr (Some a), w') ->
  exists w1, body w1 = (inr (Some a), w').
Proof.
  induction fuel as [|fuel IH]; intros w a w' H; simpl in H.
  - unfold ret in H. discriminate.
  - destruct (now w - start <? timeout); [|discriminate].
    apply bind_inr in H. destruct H as (r & w1 & Hb & H).
    destruct r as [a'|].
    + apply ret_inr in H. destruct H as [-> ->]. eauto.
    + eapply IH. eassumption.
Qed.

(** The config that comes back was built by [config_from] from an address
    and a cookie list the driver had just shown. *)
Lemma extracted_config_origin email timeout w cfg w' :
  extract_config_from_driver world utcoffset csesidx_of email timeout w
  = (inr (Some cfg), w') ->
  exists url cookies wa wb wc,
    current_url world wa = (inr url, wb) /\
    get_cookies world wb = (inr cookies, wc) /\
    config_from utcoffset csesidx_of email url cookies = inr (Some cfg).
Proof.
  unfold extract_config_from_driver. intros H.
  apply bind_inr in H. destruct H as (start & w1 & _ & H).
  apply bind_inr in H. destruct H as (found & w2 & Hloop & H).
  destruct found as [cfg'|].
  - apply ret_inr in H. destruct H as [Hc _]. inversion Hc; subst cfg'.
    apply while_before_some in Hloop. destruct Hloop as (wa & Hbody).
    apply bind_inr in Hbody. destruct Hbody as (url & wb & Hurl & Hbody).
    apply bind_inr in Hbody. destruct Hbody as (cookies & wc & Hck & Hbody).
    apply bind_inr in Hbody. destruct Hbody as (r & wd & Hcf & Hbody).
    exists url, cookies, wa, wb, wc. split; [exact Hurl|]. split; [exact Hck|].
    unfold lift in Hcf.
    destruct (config_from utcoffset csesidx_of email url cookies) as [e|r'];
      [discriminate|].
    apply ret_inr in Hcf. destruct Hcf as [-> _].
    destruct r' as [c|].
    + apply ret_inr in Hbody. destruct Hbody as [Hc' _]. inversion Hc'. reflexivity.
    + apply bind_inr in Hbody. destruct Hbody as (? & ? & _ & Hbody).
      apply ret_inr in Hbody. destruct Hbody as [Hc' _]. discriminate.
  - repeat (apply bind_inr in H; destruct H as (? & ? & _ & H)).
    apply ret_inr in H. destruct H as [Hc _]. discriminate.
Qed.

(** What [config_from] writes as the expiry. *)
Lemma config_from_expiry email url cookies cfg :
  config_from utcoffset csesidx_of email url cookies = inr (Some cfg) ->
  expires_at_of utcoffset (expiry_of (cookie_named "__Secure-C_SES" cookies))
  = inr (rc_expires_at cfg).
Proof.
  unfold config_from.
  destruct (truthy_value _) as [ses|]; [|discriminate].
  destruct (truthy_value _) as [host|]; [|discriminate].
  destruct (truthy_opt (csesidx_of url)) as [cs|]; [|discriminate].
  destruct (truthy_opt _) as [cid|]; [|discriminate].
  destruct (expires_at_of _ _) as [e|ex]; [discriminate|].
  intros H. inversion H. reflexivity.
Qed.

End ConfigFacts.

(** C8 (amended).  A config returned by extract_config_from_driver was built
    from an address and a cookie list the driver showed; when the session
    cookie there reports an integer expiry T other than 0, the recorded
    expires_at is the calendar formatting of T - 43200 seconds, and it is
    null when the cookie reports no expiry or the expiry 0. *)
Theorem expires_at_is_expiry_minus_skew
    {W : Type} (world : World W) (utcoffset : Z -> Z)
    (csesidx_of : string -> option string) (email : string) (timeout : Z)
    (w w' : W) (cfg : GeminiAuthHelper.RegisterConfig) :
  GeminiAuthHelper.extract_config_from_driver world utcoffset csesidx_of
    email timeout w = (inr (Some cfg), w') ->
  exists url cookies wa wb wc,
    current_url world wa = (inr url, wb) /\
    get_cookies world wb = (inr cookies, wc) /\
    GeminiAuthHelper.config_from utcoffset csesidx_of email url cookies
    = inr (Some cfg) /\
    let expiry :=
      GeminiAuthHelper.expiry_of
        (GeminiAuthHelper.cookie_named "__Secure-C_SES" cookies) in
    (forall T, expiry = Some T -> T <> 0 ->
       exists dt,
         PyDatetime.fromtimestamp utcoffset (T - 43200) = inr dt /\
         GeminiAuthHelper.rc_expires_at cfg = Some (PyDatetime.strftime dt)) /\
    (expiry = None \/ expiry = Some 0 ->
     GeminiAuthHelper.rc_expires_at cfg = None).
Proof.
  intros H.
  destruct (extracted_config_origin world utcoffset csesidx_of _ _ _ _ _ H)
    as (url & cookies & wa & wb & wc & Hurl & Hck & Hcf).
  exists url, cookies, wa, wb, wc.
  split; [exact Hurl|]. split; [exact Hck|]. split; [exact Hcf|].
  apply config_from_expiry in Hcf. simpl. split.
  - intros T HT Hnz. rewrite HT in Hcf.
    unfold GeminiAuthHelper.expires_at_of in Hcf.
    destruct (Z.eqb_spec T 0) as [|_]; [contradiction|].
    destruct (PyDatetime.fromtimestamp utcoffset (T - 43200)) as [e|dt];
      [discriminate|].
    exists dt. split; [reflexivity|]. inversion Hcf. reflexivity.
  - intros [HT|HT]; rewrite HT in Hcf; simpl in Hcf; inversion Hcf; reflexivity.
Qed.

Lemma expires_at_is_expiry_minus_skew_witness :
  exists url cookies wa wb wc,
    current_url BrowserSamples.world wa = (inr url, wb) /\
    get_cookies BrowserSamples.world wb = (inr cookies, wc) /\
    GeminiAuthHelper.config_from CookieSamples.utc CookieSamples.csesidx_of
      "u1@mail.test" url cookies = inr (Some CookieSamples.expected_config) /\
    let expiry :=
      GeminiAuthHelper.expiry_of
        (GeminiAuthHelper.cookie_named "__Secure-C_SES" cookies) in
    (forall T, expiry = Some T -> T <> 0 ->
       exists dt,
         PyDatetime.fromtimestamp CookieSamples.utc (T - 43200) = inr dt /\
         GeminiAuthHelper.rc_expires_at CookieSamples.expected_config
         = Some (PyDatetime.strftime dt)) /\
    (expiry = None \/ expiry = Some 0 ->
     GeminiAuthHelper.rc_expires_at CookieSamples.expected_config = None).
Proof.
  apply (expires_at_is_expiry_minus_skew BrowserSamples.world
           CookieSamples.utc CookieSamples.csesidx_of "u1@mail.test" 15
           (CookieSamples.at_workspace (Some 1700000000))
           (snd (GeminiAuthHelper.extract_config_from_driver BrowserSamples.world
                   CookieSamples.utc CookieSamples.csesidx_of "u1@mail.test" 15
                   (CookieSamples.at_workspace (Some 1700000000))))
           CookieSamples.expected_config).
  vm_compute. reflexivity.
Defined.

(** The run of the sample: the expiry 1700000000 (2023-11-14 22:13:20 UTC)
    is recorded twelve hours earlier. *)
Example expires_at_of_sample_session :
  fst (GeminiAuthHelper.extract_config_from_driver BrowserSamples.world
         CookieSamples.utc CookieSamples.csesidx_of "u1@mail.test" 15
         (CookieSamples.at_workspace (Some 1700000000)))
  = inr (Some CookieSamples.expected_config).
Proof. vm_compute. reflexivity. Qed.

(** C8 as stated fails at T = 0: the extraction succeeds, the session cookie
    reports the integer expiry 0, and expires_at is null, not the formatting
    of 0 - 43200 seconds (which exists: 1969-12-31 12:00:00 in UTC). *)
Lemma zero_expiry_is_recorded_as_null :
  exists cfg,
    fst (GeminiAuthHelper.extract_config_from_driver BrowserSamples.world
           CookieSamples.utc CookieSamples.csesidx_of "u1@mail.test" 15
           (CookieSamples.at_workspace (Some 0))) = inr (Some cfg) /\
    GeminiAuthHelper.expiry_of
      (GeminiAuthHelper.cookie_named "__Secure-C_SES" (CookieSamples.session (Some 0)))
    = Some 0 /\
    GeminiAuthHelper.rc_expires_at cfg = None /\
    exists dt,
      PyDatetime.fromtimestamp CookieSamples.utc (0 - 43200) = inr dt /\
      PyDatetime.strftime dt = "1969-12-31 12:00:00".
Proof.
  eexists. split; [vm_compute; reflexivity|].
  split; [reflexivity|]. split; [reflexivity|].
  eexists. split; vm_compute; reflexivity.
Qed.

(** * Further properties *)

(** ** The task ledger *)

Section LedgerFacts.
Import RegisterService TaskLedger.

(** Where the loop stands when it is left: after a normal end every round
    has its result; otherwise the event of some round [k] ended the loop,
    with [k] results recorded when an await of the executor raised or was
    cancelled, and [k + 1] when the run was cancelled in the sleep after
    round [k], which is then not the last round. *)
Lemma attempts_position env n : forall i t ex t',
  attempts env n i t = (ex, t') ->
  0 <= i ->
  Z.of_nat (length (results t)) = i ->
  (n <> O -> count t = i + Z.of_nat n) ->
  match ex with
  | Completed => Z.of_nat (length (results t')) = i + Z.of_nat n
  | Caught e =>
      exists k, (Z.to_nat i <= k < Z.to_nat i + n)%nat /\
        env k = AwaitRaised e /\
        length (results t') = k /\ progress t' = Z.of_nat k + 1
  | Uncaught =>
      exists k, (Z.to_nat i <= k < Z.to_nat i + n)%nat /\
        ((env k = Cancelled /\
          length (results t') = k /\ progress t' = Z.of_nat k + 1) \/
         (exists w, env k = CancelledAsleep w /\
            length (results t') = S k /\ progress t' = Z.of_nat k + 1 /\
            (S k < Z.to_nat i + n)%nat))
  end.
Proof.
  induction n as [|n IH]; intros i t ex t' H Hi Hlen Hcount; simpl in H.
  - inversion H; subst. lia.
  - specialize (Hcount ltac:(discriminate)).
    assert (Hnext : forall w,
              attempts env n (i + 1)
                (record_result (set_progress t (i + 1)) (_register_one_sync w))
              = (ex, t') ->
              match ex with
              | Completed => Z.of_nat (length (results t')) = i + Z.of_nat (S n)
              | Caught e =>
                  exists k, (Z.to_nat i <= k < Z.to_nat i + S n)%nat /\
                    env k = AwaitRaised e /\
                    length (results t') = k /\ progress t' = Z.of_nat k + 1
              | Uncaught =>
                  exists k, (Z.to_nat i <= k < Z.to_nat i + S n)%nat /\
                    ((env k = Cancelled /\
                      length (results t') = k /\ progress t' = Z.of_nat k + 1) \/
                     (exists w, env k = CancelledAsleep w /\
                        length (results t') = S k /\
                        progress t' = Z.of_nat k + 1 /\
                        (S k < Z.to_nat i + S n)%nat))
              end).
    { intros w Hw. apply IH in Hw.
      - destruct ex as [|e|].
        + lia.
        + destruct Hw as (k & Hk & Hw). exists k. split; [lia|exact Hw].
        + destruct Hw as (k & Hk & [Hw | (w0 & Hw & Hl & Hp & Hlt)]).
          * exists k. split; [lia|]. left. exact Hw.
          * exists k. split; [lia|]. right. exists w0.
            repeat split; try assumption. lia.
      - lia.
      - simpl. rewrite length_app. simpl. lia.
      - intros _. simpl. lia. }
    destruct (env (Z.to_nat i)) as [w|e| |w] eqn:Hev.
    + apply (Hnext w). exact H.
    + injection H as <- <-. exists (Z.to_nat i). split; [lia|].
      split; [exact Hev|]. simpl. split; lia.
    + injection H as <- <-. exists (Z.to_nat i). split; [lia|].
      left. split; [exact Hev|]. simpl. split; lia.
    + simpl in H. destruct (Z.ltb_spec i (count t - 1)) as [Hlt|Hge].
      * injection H as <- <-. exists (Z.to_nat i). split; [lia|].
        right. exists w. split; [exact Hev|]. simpl.
        rewrite length_app. simpl. repeat split; lia.
      * apply (Hnext w). exact H.
Qed.

End LedgerFacts.

(** X1.  However _run_register_async leaves its try block (the guarded
    worker of each attempt that ran having returned, raised an Exception or
    outlived its deadline), the counters of the task agree with its result
    list: success_count is the number of
    recorded results that succeeded, fail_count the number that failed, and
    no more results than requested were recorded.  After a normal end there
    is one result per requested attempt.  After an exception raised by the
    await of the executor in round k, or a cancellation at that await, k
    results are recorded and the progress counter, k + 1, is one ahead of
    them: the attempt it announced has left no result.  After a cancellation
    in the sleep that follows round k the results are k + 1, as many as the
    progress counter says, and fewer than requested. *)
Theorem counters_mirror_results
    (env : nat -> RS.executor_event) (uuid : string) (cnt now : Z) :
  let r := RS.run_body env (RS.new_task uuid cnt now) in
  let t' := snd r in
  RS.success_count t' = Z.of_nat (TaskLedger.successes (RS.results t')) /\
  RS.fail_count t' = Z.of_nat (TaskLedger.failures (RS.results t')) /\
  Z.of_nat (length (RS.results t')) <= Z.max 0 cnt /\
  match fst r with
  | RS.Completed => Z.of_nat (length (RS.results t')) = Z.max 0 cnt
  | RS.Caught e =>
      exists k, env k = RS.AwaitRaised e /\
        length (RS.results t') = k /\ RS.progress t' = Z.of_nat k + 1
  | RS.Uncaught =>
      exists k,
        (env k = RS.Cancelled /\
         length (RS.results t') = k /\ RS.progress t' = Z.of_nat k + 1) \/
        (exists w, env k = RS.CancelledAsleep w /\
           length (RS.results t') = S k /\ RS.progress t' = Z.of_nat k + 1 /\
           Z.of_nat k + 1 < cnt)
  end.
Proof.
  unfold RS.run_body. simpl.
  destruct (RS.attempts env (Z.to_nat cnt) 0 _) as [ex t1] eqn:Hloop.
  pose proof (attempts_mirror _ _ _ _ _ _ Hloop eq_refl eq_refl) as [Hs Hf].
  pose proof (attempts_position _ _ _ _ _ _ Hloop (Z.le_refl 0) eq_refl) as Hp.
  simpl in Hp.
  assert (Hc : Z.to_nat cnt <> O -> cnt = 0 + Z.of_nat (Z.to_nat cnt)) by lia.
  specialize (Hp Hc).
  destruct ex as [|e|]; simpl.
  - repeat split; try assumption; lia.
  - destruct Hp as (k & Hk & Hev & Hl & Hpr).
    repeat split; try assumption; [lia|]. exists k. auto.
  - destruct Hp as (k & Hk & [(Hev & Hl & Hpr) | (w & Hev & Hl & Hpr & Hlt)]).
    + repeat split; try assumption; [lia|]. exists k. left. auto.
    + repeat split; try assumption; [lia|]. exists k. right. exists w.
      repeat split; try assumption. lia.
Qed.

(** A run of three that is cancelled in the sleep after its first round:
    one result, and the progress counter at one. *)
Example cancelled_between_rounds :
  exists t',
    RS.run_body TaskLedger.cancelled_asleep (RS.new_task "t-1" 3 100)
    = (RS.Uncaught, t') /\
    length (RS.results t') = 1%nat /\ RS.progress t' = 1 /\
    RS.status t' = RS.RUNNING.
Proof. eexists. split; [reflexivity|]. repeat split. Qed.

Lemma completed_prefix (env : nat -> RS.executor_event) (n : nat) :
  forall i t k e,
    0 <= i ->
    (Z.to_nat i <= k < Z.to_nat i + n)%nat ->
    env k = RS.AwaitRaised e ->
    (forall j, (Z.to_nat i <= j < k)%nat -> exists w, env j = RS.Ran w) ->
    exists t', RS.attempts env n i t = (RS.Caught e, t') /\
      Z.of_nat (length (RS.results t'))
      = Z.of_nat (length (RS.results t)) + (Z.of_nat k - i) /\
      RS.progress t' = Z.of_nat k + 1 /\
      List.map Some (RS.results t')
      = (List.map Some (RS.results t)
         ++ List.map (fun j => TaskLedger.outcome_of (env j))
              (seq (Z.to_nat i) (k - Z.to_nat i)))%list.
Proof.
  induction n as [|n IH]; intros i t k e Hi Hk He Hran; [lia|].
  simpl. destruct (Nat.eq_dec k (Z.to_nat i)) as [->|Hne].
  - rewrite He. eexists. split; [reflexivity|]. simpl.
    rewrite Nat.sub_diag. simpl. rewrite app_nil_r. repeat split; lia.
  - destruct (Hran (Z.to_nat i)) as [w Hw]; [lia|]. rewrite Hw.
    destruct (IH (i + 1) (RS.record_result (RS.set_progress t (i + 1))
                            (RS._register_one_sync w)) k e)
      as (t' & Ht & Hl & Hp & Ho); try lia; try assumption.
    + intros j Hj. apply Hran. lia.
    + exists t'. split; [exact Ht|]. split; [|split; [exact Hp|]].
      * rewrite Hl. simpl. rewrite length_app. simpl. lia.
      * rewrite Ho. simpl. rewrite List.map_app, <- app_assoc. simpl.
        replace (k - Z.to_nat i)%nat with (S (k - Z.to_nat (i + 1)))%nat by lia.
        cbn [seq List.map]. rewrite Hw. simpl.
        replace (Z.to_nat (i + 1)) with (S (Z.to_nat i)) by lia. reflexivity.
Qed.

(** X2.  When the await of round k raises (after k rounds that ran), the
    task ends as failed with the text of the exception as its error,
    whatever the attempts before achieved: the results of the k rounds
    before are kept, in order; success_count and fail_count are still the
    numbers of succeeded and of failed results among them; and progress
    stays at k + 1. *)
Theorem orchestration_error_fails_task
    (env : nat -> RS.executor_event) (uuid : string) (cnt now : Z)
    (k : nat) (e : exn) :
  (k < Z.to_nat cnt)%nat ->
  env k = RS.AwaitRaised e ->
  (forall j, (j < k)%nat -> exists w, env j = RS.Ran w) ->
  exists t',
    RS.run_body env (RS.new_task uuid cnt now) = (RS.Caught e, t') /\
    RS.status t' = RS.FAILED /\
    RS.task_error t' = Some (str_exn e) /\
    length (RS.results t') = k /\
    RS.progress t' = Z.of_nat k + 1 /\
    RS.success_count t' = Z.of_nat (TaskLedger.successes (RS.results t')) /\
    RS.fail_count t' = Z.of_nat (TaskLedger.failures (RS.results t')) /\
    List.map Some (RS.results t')
    = List.map (fun j => TaskLedger.outcome_of (env j)) (seq 0 k).
Proof.
  intros Hk He Hran.
  destruct (completed_prefix env (Z.to_nat cnt) 0
              (RS.set_status (RS.new_task uuid cnt now) RS.RUNNING) k e)
    as (t1 & Hloop & Hl & Hp & Ho); try lia; try assumption.
  { intros j Hj. apply Hran. lia. }
  pose proof (attempts_mirror _ _ _ _ _ _ Hloop eq_refl eq_refl) as [Hs Hf].
  unfold RS.run_body. simpl. rewrite Hloop.
  eexists. split; [reflexivity|]. simpl in *.
  replace k with (k - Z.to_nat 0)%nat at 3 by lia.
  repeat split; try assumption; lia.
Qed.

Lemma orchestration_error_fails_task_witness :
  exists t',
    RS.run_body TaskLedger.two_then_raise (RS.new_task "t-9" 5 100)
    = (RS.Caught (PyException "RuntimeError"
                    "cannot schedule new futures after shutdown"), t') /\
    RS.status t' = RS.FAILED /\
    RS.task_error t' = Some "cannot schedule new futures after shutdown" /\
    length (RS.results t') = 2%nat /\
    RS.progress t' = 3 /\
    RS.success_count t' = Z.of_nat (TaskLedger.successes (RS.results t')) /\
    RS.fail_count t' = Z.of_nat (TaskLedger.failures (RS.results t')) /\
    List.map Some (RS.results t')
    = List.map (fun j => TaskLedger.outcome_of (TaskLedger.two_then_raise j))
        (seq 0 2).
Proof.
  apply (orchestration_error_fails_task TaskLedger.two_then_raise "t-9" 5 100 2
           (PyException "RuntimeError" "cannot schedule new futures after shutdown")).
  - simpl. lia.
  - reflexivity.
  - intros [|[|j]] Hj; [eexists; reflexivity | eexists; reflexivity | lia].
Defined.

(** X3.  An accepted start files the new task under its id and makes it the
    current one; a start (accepted or rejected) and the background run of a
    task leave every task filed under another id exactly as it was. *)
Theorem registry_keeps_other_tasks
    (s : RS.Service) (t : RS.RegisterTask) (env : nat -> RS.executor_event)
    (cnt now : Z) (domain : option string) (uuid other : string) :
  other <> uuid -> other <> RS.id t ->
  let started := RS.start_register s cnt domain uuid now in
  RS.get_task (snd started) other = RS.get_task s other /\
  RS.get_task (snd (RS._run_register_async s t env now)) other
  = RS.get_task s other /\
  (forall t0, fst started = inr t0 ->
     RS.get_task (snd started) uuid = Some t0 /\
     RS._current_task_id (snd started) = Some uuid).
Proof.
  intros Hu Ht. simpl. split; [|split].
  - unfold RS.start_register. destruct (RS.already_running s); simpl; [reflexivity|].
    unfold RS.get_task. simpl. apply lookup_insert_ne. congruence.
  - unfold RS._run_register_async.
    destruct (RS.run_body env t) as [ex t'] eqn:Hb. simpl.
    assert (RS.id t' = RS.id t) as Hid.
    { unfold RS.run_body in Hb.
      destruct (RS.attempts env _ 0 _) as [ex1 t1] eqn:Hloop.
      apply attempts_fields in Hloop. destruct Hloop as (Hid & _).
      destruct ex1; inversion Hb; subst; simpl; exact Hid. }
    unfold RS.get_task. simpl. rewrite Hid. apply lookup_insert_ne. congruence.
  - intros t0. unfold RS.start_register.
    destruct (RS.already_running s); simpl; [discriminate|].
    intros H. inversion H; subst. unfold RS.get_task. simpl.
    split; [apply lookup_insert_eq|reflexivity].
Qed.

Lemma registry_keeps_other_tasks_witness :
  let started := RS.start_register BatchSamples.just_started 3 None "t-2" 103 in
  RS.get_task (snd started) "t-1" = RS.get_task BatchSamples.just_started "t-1" /\
  RS.get_task
    (snd (RS._run_register_async BatchSamples.just_started
            (RS.new_task "t-3" 1 102) BatchSamples.hang_then_ok 103)) "t-1"
  = RS.get_task BatchSamples.just_started "t-1" /\
  (forall t0, fst started = inr t0 ->
     RS.get_task (snd started) "t-2" = Some t0 /\
     RS._current_task_id (snd started) = Some "t-2").
Proof.
  apply (registry_keeps_other_tasks BatchSamples.just_started
           (RS.new_task "t-3" 1 102) BatchSamples.hang_then_ok
           3 103 None "t-2" "t-1"); discriminate.
Defined.

(** ** More on waiting for the mailed code *)

Section PollingFacts.
Import Run GeminiAuthHelper.
Context {W : Type}.
Variable world : World W.
Variable config : GeminiAuthConfig.
Variable BeautifulSoup : string -> list Soup.node.
Variable json_loads : string -> exn + json.

Lemma lift_inr {A : Type} (r : exn + A) (a : A) (w w' : W) :
  lift r w = (inr a, w') -> r = inr a /\ w' = w.
Proof.
  unfold lift. destruct r as [e|x]; simpl; intros H; inversion H. auto.
Qed.

(** The baseline is taken inside a try: nothing escapes. *)
Lemma capture_baseline_returns email old w :
  exists v w', capture_baseline world config email old w = (inr v, w').
Proof.
  unfold capture_baseline.
  destruct old; try (unfold ret; eauto).
  unfold try_except.
  match goal with
  | |- context [let (_, _) := ?m w in _] => destruct (m w) as [[e|v] w1]
  end; unfold ret; eauto.
Qed.

(** A code handed out by way 1 is a non-empty string. *)
Lemma poll_api_emails_code email old w code w' :
  poll_api_emails world config BeautifulSoup email old w = (inr (Return code), w') ->
  PyJson.truthy code = true.
Proof.
  unfold poll_api_emails. intros H.
  apply bind_inr in H. destruct H as (r & w1 & _ & H).
  destruct (status_code r =? 200); [|apply ret_inr in H; destruct H; discriminate].
  apply bind_inr in H. destruct H as (data & w2 & _ & H).
  apply bind_inr in H. destruct H as (emails & w3 & _ & H).
  destruct (PyJson.truthy emails); [|apply ret_inr in H; destruct H; discriminate].
  apply bind_inr in H. destruct H as (latest & w4 & _ & H).
  apply bind_inr in H. destruct H as (new_id & w5 & _ & H).
  destruct (PyJson.truthy old && PyJson.eq new_id old).
  - apply bind_inr in H. destruct H as (? & ? & _ & H).
    apply ret_inr in H. destruct H; discriminate.
  - apply bind_inr in H. destruct H as (content & w6 & _ & H).
    apply bind_inr in H. destruct H as (c & w7 & _ & H).
    destruct c as [c|]; [|apply ret_inr in H; destruct H; discriminate].
    destruct (PyStr.truthy c) eqn:Hc; apply ret_inr in H; destruct H as [H _];
      inversion H; subst. exact Hc.
Qed.

(** A code handed out by the administrative feed is truthy. *)
Lemma scan_admin_mails_code email mails : forall code,
  scan_admin_mails config json_loads email mails = inr (Some code) ->
  PyJson.truthy code = true.
Proof.
  induction mails as [|mail mails IH]; intros code H; simpl in H; [discriminate|].
  destruct (PyJson.get mail "address" JNull) as [e|address]; [discriminate|].
  destruct (PyJson.eq address (JStr email)); [|auto].
  destruct (PyJson.get mail "source" JNull) as [e|source]; [discriminate|].
  destruct (PyJson.eq source (JStr (google_mail config))); [|auto].
  destruct (ai_extract_result json_loads mail) as [e|c]; [auto|].
  destruct (PyJson.truthy c) eqn:Hc; [|auto].
  inversion H; subst. exact Hc.
Qed.

Lemma poll_admin_mails_code email w code w' :
  poll_admin_mails world config json_loads email w = (inr (Some code), w') ->
  PyJson.truthy code = true.
Proof.
  unfold poll_admin_mails. intros H.
  apply bind_inr in H. destruct H as (r & w1 & _ & H).
  destruct (status_code r =? 200); [|apply ret_inr in H; destruct H; discriminate].
  apply bind_inr in H. destruct H as (data & w2 & _ & H).
  apply bind_inr in H. destruct H as (results & w3 & _ & H).
  apply bind_inr in H. destruct H as (mails & w4 & _ & H).
  apply lift_inr in H. destruct H as [H _].
  eapply scan_admin_mails_code. eassumption.
Qed.

(** A round never raises, and what it hands out is truthy. *)
Lemma poll_round_returns email old w :
  exists r w',
    poll_round world config BeautifulSoup json_loads email old w = (inr r, w') /\
    forall code, r = Some code -> PyJson.truthy code = true.
Proof.
  unfold poll_round, bind at 1, try_except at 1.
  destruct (poll_api_emails world config BeautifulSoup email old w)
    as [[e|way1] w1] eqn:E1.
  - unfold ret at 1. unfold bind at 1, try_except.
    destruct (poll_admin_mails world config json_loads email w1)
      as [[e2|[code|]] w2] eqn:E2; simpl.
    + do 2 eexists. split; [reflexivity|]. discriminate.
    + do 2 eexists. split; [reflexivity|]. intros c Hc. inversion Hc; subst.
      eapply poll_admin_mails_code. eassumption.
    + do 2 eexists. split; [reflexivity|]. discriminate.
  - destruct way1 as [code| |].
    + do 2 eexists. split; [reflexivity|]. intros c Hc. inversion Hc; subst.
      eapply poll_api_emails_code. eassumption.
    + do 2 eexists. split; [reflexivity|]. discriminate.
    + unfold bind at 1, try_except.
      destruct (poll_admin_mails world config json_loads email w1)
        as [[e2|[code|]] w2] eqn:E2; simpl.
      * do 2 eexists. split; [reflexivity|]. discriminate.
      * do 2 eexists. split; [reflexivity|]. intros c Hc. inversion Hc; subst.
        eapply poll_admin_mails_code. eassumption.
      * do 2 eexists. split; [reflexivity|]. discriminate.
Qed.

Lemma polling_returns email old fuel start timeout : forall w,
  exists r w',
    while_before (time_time world) fuel start timeout
      (poll_round world config BeautifulSoup json_loads email old) w = (inr r, w') /\
    forall code, r = Some code -> PyJson.truthy code = true.
Proof.
  induction fuel as [|fuel IH]; intros w; simpl.
  - do 2 eexists. split; [reflexivity|]. discriminate.
  - destruct (time_time world w - start <? timeout).
    + destruct (poll_round_returns email old w) as (r & w1 & Hr & Hc).
      unfold bind at 1. rewrite Hr. destruct r as [code|].
      * do 2 eexists. split; [reflexivity|]. exact Hc.
      * apply IH.
    + do 2 eexists. split; [reflexivity|]. discriminate.
Qed.

End PollingFacts.

(** X4.  get_verification_code never raises: whatever the relay answers
    (transport errors, other status codes, JSON of any shape, unparsable
    metadata), it returns a code or None; and a code it returns is never
    empty or null. *)
Theorem get_verification_code_never_raises
    {W : Type} (world : World W) (config : GeminiAuthHelper.GeminiAuthConfig)
    (BeautifulSoup : string -> list Soup.node) (json_loads : string -> exn + json)
    (email : string) (timeout : Z) (old_email_id : json) (w : W) :
  exists r w',
    GeminiAuthHelper.get_verification_code world config BeautifulSoup json_loads
      email timeout old_email_id w = (inr r, w') /\
    match r with
    | Some code => PyJson.truthy code = true
    | None => True
    end.
Proof.
  unfold GeminiAuthHelper.get_verification_code, Run.bind at 1, Run.read.
  destruct (capture_baseline_returns world config email old_email_id w)
    as (v & w1 & Hv).
  unfold Run.bind at 1. rewrite Hv.
  destruct (polling_returns world config BeautifulSoup json_loads email v
              (Run.rounds (1000 * timeout) 2000) (time_time world w)
              (1000 * timeout) w1) as (r & w2 & Hr & Hc).
  exists r, w2. split; [exact Hr|].
  destruct r as [code|]; [|exact I]. apply Hc. reflexivity.
Qed.

Section BaselineFacts.
Import Run GeminiAuthHelper FeedShapes.
Context {W : Type}.
Variable world : World W.
Variable config : GeminiAuthConfig.
Variable BeautifulSoup : string -> list Soup.node.
Variable json_loads : string -> exn + json.

(** What the baseline reading finds, the polling reading finds too. *)
Lemma emails_of_more_keys data emails :
  emails_of data ["emails"] = inr emails ->
  PyJson.truthy emails = true ->
  emails_of data ["emails"; "messages"] = inr emails.
Proof.
  unfold emails_of. destruct data; auto.
  destruct (PyJson.get (JDict items) "data" (JDict [])) as [e|d]; auto.
  destruct (PyJson.get d "emails" (JList [])) as [e|e1]; auto.
  simpl. destruct (PyJson.truthy e1) eqn:T1; auto.
  destruct (PyJson.assoc "emails" items) as [v|]; intros H Ht;
    inversion H; subst; rewrite Ht; reflexivity.
Qed.

Lemma baseline_is_newest email v w :
  baseline_id_is world config email v w ->
  newest_is world config email v w.
Proof.
  intros (r & w' & data & emails & latest & H1 & H2 & H3 & H4 & H5 & H6 & H7).
  exists r, w', data, emails, latest.
  repeat split; try assumption. apply emails_of_more_keys; assumption.
Qed.

(** The baseline taken is the id of the newest message, whatever it is. *)
Lemma capture_baseline_takes_id email v w :
  baseline_id_is world config email v w ->
  capture_baseline world config email JNull w
  = (inr v, snd (get_api_emails world config email w)).
Proof.
  intros (r & w' & data & emails & latest & H1 & H2 & H3 & H4 & H5 & H6 & H7).
  unfold capture_baseline, try_except, bind. rewrite H1, H2. simpl.
  rewrite H3. simpl. rewrite H4. simpl. rewrite H5, H6. simpl. rewrite H7.
  reflexivity.
Qed.

(** A newest message that does not pass for the baseline is read, and the
    code in its body handed out. *)
Lemma fresh_message_is_reported email old v body c w :
  newest_message_is world config email v body w ->
  PyJson.truthy old && PyJson.eq v old = false ->
  _extract_code_from_html BeautifulSoup body = Some c ->
  poll_round world config BeautifulSoup json_loads email old w
  = (inr (Some (JStr c)), snd (get_api_emails world config email w)).
Proof.
  intros (r & w' & data & emails & latest &
          H1 & H2 & H3 & H4 & H5 & H6 & H7 & H8) Hold Hc.
  assert (Ht : PyStr.truthy c = true).
  { assert (Re.is_code c) as [Hl _].
    { unfold _extract_code_from_html in Hc.
      destruct (negb (PyStr.truthy body)); [discriminate|].
      destruct (first_found _ class_patterns) as [t|] eqn:E1.
      - inversion Hc; subst. apply first_found_some in E1. destruct E1 as [x Hx].
        eapply first_code_is_code. eassumption.
      - destruct (first_found _ tags) as [t|] eqn:E2.
        + inversion Hc; subst. apply first_found_some in E2.
          destruct E2 as [x Hx]. eapply first_code_is_code. eassumption.
        + eapply first_match_is_code; [apply patterns_capture_codes|exact Hc]. }
    destruct c; [discriminate|reflexivity]. }
  assert (PyStr.truthy body = true) as Hb.
  { unfold _extract_code_from_html in Hc.
    destruct (PyStr.truthy body); [reflexivity|discriminate]. }
  unfold poll_round, bind at 1, try_except at 1.
  assert (poll_api_emails world config BeautifulSoup email old w
          = (inr (Return (JStr c)), w')) as ->;
    [|rewrite H1; reflexivity].
  unfold poll_api_emails, bind. rewrite H1, H2. simpl.
  rewrite H3. simpl. rewrite H4. simpl. rewrite H5, H6. simpl. rewrite H7.
  simpl. rewrite Hold. simpl in H8. rewrite H8.
  destruct body as [|b0 body']; [discriminate|].
  cbn -[_extract_code_from_html]. rewrite Hc. cbn. rewrite Ht. reflexivity.
Qed.

End BaselineFacts.

(** X5.  Called without a baseline, get_verification_code takes the id of
    the newest message of the feed (read under data.emails, emails, or as a
    list) as its baseline, whatever JSON value that id is.  With a feed
    whose newest message keeps that id: when the id is truthy, the message
    that was already there is never reported, every round asking the feed,
    sleeping two seconds and going on, and the call ends with None; when
    the id is falsy (0, the empty string, null, or no id at all), the check
    against the baseline is skipped, and a round hands out the code found
    in that old message. *)
Theorem own_baseline_is_never_reported
    {W : Type} (world : World W) (config : GeminiAuthHelper.GeminiAuthConfig)
    (BeautifulSoup : string -> list Soup.node) (json_loads : string -> exn + json)
    (email : string) (v : json) (timeout : Z) :
  PyJson.eq v v = true ->
  (forall w, FeedShapes.baseline_id_is world config email v w) ->
  forall w,
    GeminiAuthHelper.capture_baseline world config email JNull w
    = (inr v, snd (GeminiAuthHelper.get_api_emails world config email w)) /\
    if PyJson.truthy v
    then
      GeminiAuthHelper.poll_round world config BeautifulSoup json_loads email v w
      = (inr None,
         time_sleep world 2000
           (snd (GeminiAuthHelper.get_api_emails world config email w))) /\
      fst (GeminiAuthHelper.get_verification_code world config BeautifulSoup
             json_loads email timeout JNull w) = inr None
    else
      forall body c,
        FeedShapes.newest_message_is world config email v body w ->
        GeminiAuthHelper._extract_code_from_html BeautifulSoup body = Some c ->
        GeminiAuthHelper.poll_round world config BeautifulSoup json_loads email v w
        = (inr (Some (JStr c)),
           snd (GeminiAuthHelper.get_api_emails world config email w)).
Proof.
  intros Heq Hfeed w.
  pose proof (capture_baseline_takes_id world config email v w (Hfeed w)) as Hcap.
  split; [exact Hcap|].
  destruct (PyJson.truthy v) eqn:Hv.
  - assert (Hstays : forall w0, FeedShapes.newest_is world config email v w0)
      by (intros w0; apply baseline_is_newest; apply Hfeed).
    split.
    + apply poll_round_continues; assumption.
    + unfold GeminiAuthHelper.get_verification_code, Run.bind at 1, Run.read.
      unfold Run.bind at 1. rewrite Hcap.
      destruct (polling_never_returns world config BeautifulSoup json_loads
                  email v Hv Heq Hstays
                  (Run.rounds (1000 * timeout) 2000) (time_time world w)
                  (1000 * timeout)
                  (snd (GeminiAuthHelper.get_api_emails world config email w)))
        as [w' H].
      rewrite H. reflexivity.
  - intros body c Hmsg Hc.
    apply (fresh_message_is_reported world config BeautifulSoup json_loads
             email v v body c w Hmsg); [|exact Hc].
    rewrite Hv. reflexivity.
Qed.

Lemma own_baseline_is_never_reported_witness :
  GeminiAuthHelper.capture_baseline
    (Stub.world InboxSamples.feed InboxSamples.admin) InboxSamples.config
    "u1@mail.test" JNull (Stub.browser [] [])
  = (inr (JStr "m1"), Stub.browser [] []) /\
  GeminiAuthHelper.poll_round
    (Stub.world InboxSamples.feed InboxSamples.admin) InboxSamples.config
    MailSamples.text_parser InboxSamples.json_loads "u1@mail.test" (JStr "m1")
    (Stub.browser [] [])
  = (inr None, Stub.set_clock 2000 (Stub.browser [] [])) /\
  fst (GeminiAuthHelper.get_verification_code
         (Stub.world InboxSamples.feed InboxSamples.admin) InboxSamples.config
         MailSamples.text_parser InboxSamples.json_loads
         "u1@mail.test" 60 JNull (Stub.browser [] [])) = inr None.
Proof.
  apply (own_baseline_is_never_reported
           (Stub.world InboxSamples.feed InboxSamples.admin) InboxSamples.config
           MailSamples.text_parser InboxSamples.json_loads
           "u1@mail.test" (JStr "m1") 60);
    [reflexivity | intro s; do 5 eexists; repeat split; reflexivity].
Defined.

(** The old message of a feed whose ids are 0, or the empty string, or
    absent, is reported by the first round of a call without baseline. *)
Example falsy_baseline_reports_old_message :
  List.map
    (fun v =>
       fst (GeminiAuthHelper.get_verification_code
              (Stub.world (FeedShapes.falsy_id_feed v) Stub.no_mail)
              InboxSamples.config MailSamples.text_parser InboxSamples.json_loads
              "u1@mail.test" 60 JNull (Stub.browser [] [])))
    [Some (JNum 0); Some (JStr EmptyString); Some JNull; None]
  = [inr (Some (JStr "482913")); inr (Some (JStr "482913"));
     inr (Some (JStr "482913")); inr (Some (JStr "482913"))].
Proof. vm_compute. reflexivity. Qed.

Section MessagesOnlyFacts.
Import Run GeminiAuthHelper FeedShapes.
Context {W : Type}.
Variable world : World W.
Variable config : GeminiAuthConfig.
Variable BeautifulSoup : string -> list Soup.node.
Variable json_loads : string -> exn + json.

(** An extracted code is not the empty string. *)
Lemma extracted_code_truthy content c :
  _extract_code_from_html BeautifulSoup content = Some c -> PyStr.truthy c = true.
Proof.
  intros H. assert (Re.is_code c) as [Hl _].
  { unfold _extract_code_from_html in H.
    destruct (negb (PyStr.truthy content)); [discriminate|].
    destruct (first_found _ class_patterns) as [t|] eqn:E1.
    - inversion H; subst. apply first_found_some in E1. destruct E1 as [x Hx].
      eapply first_code_is_code. eassumption.
    - destruct (first_found _ tags) as [t|] eqn:E2.
      + inversion H; subst. apply first_found_some in E2. destruct E2 as [x Hx].
        eapply first_code_is_code. eassumption.
      + eapply first_match_is_code; [apply patterns_capture_codes|exact H]. }
  destruct c; [discriminate|reflexivity].
Qed.

Lemma messages_only_no_baseline email body w :
  messages_only world config email body w ->
  exists w', capture_baseline world config email JNull w = (inr JNull, w').
Proof.
  intros (r & w' & data & nothing & emails & latest & some_id &
          H1 & H2 & H3 & H4 & H5 & _).
  unfold capture_baseline, try_except, bind. rewrite H1, H2. simpl.
  rewrite H3. simpl. rewrite H4. simpl. rewrite H5. simpl. eauto.
Qed.

Lemma messages_only_first_round email body c w :
  messages_only world config email body w ->
  _extract_code_from_html BeautifulSoup body = Some c ->
  exists w',
    poll_round world config BeautifulSoup json_loads email JNull w
    = (inr (Some (JStr c)), w').
Proof.
  intros (r & w' & data & nothing & emails & latest & some_id &
          H1 & H2 & H3 & _ & _ & H6 & H7 & H8 & H9 & H10) Hc.
  pose proof (extracted_code_truthy _ _ Hc) as Ht.
  assert (PyStr.truthy body = true) as Hb.
  { unfold _extract_code_from_html in Hc.
    destruct (PyStr.truthy body); [reflexivity|discriminate]. }
  unfold poll_round, bind at 1, try_except at 1.
  assert (poll_api_emails world config BeautifulSoup email JNull w
          = (inr (Return (JStr c)), w')) as ->; [|simpl; eauto].
  unfold poll_api_emails, bind. rewrite H1, H2. simpl.
  rewrite H3. simpl. rewrite H6. simpl. rewrite H7, H8. simpl. rewrite H9.
  simpl. simpl in H10. rewrite H10.
  destruct body as [|b0 body']; [discriminate|].
  cbn -[_extract_code_from_html]. rewrite Hc. cbn. rewrite Ht. reflexivity.
Qed.

End MessagesOnlyFacts.

(** X6.  The baseline is read under data.emails and emails only, the polling
    rounds also under messages.  So with a feed that lists its messages
    under messages alone, a call without baseline takes none (it stays
    None), and its first round hands out the code found in the newest
    message, although that message was in the mailbox before the call. *)
Theorem messages_feed_reports_old_message
    {W : Type} (world : World W) (config : GeminiAuthHelper.GeminiAuthConfig)
    (BeautifulSoup : string -> list Soup.node) (json_loads : string -> exn + json)
    (email body c : string) (w0 w1 : W) :
  FeedShapes.messages_only world config email body w0 ->
  FeedShapes.messages_only world config email body w1 ->
  GeminiAuthHelper._extract_code_from_html BeautifulSoup body = Some c ->
  fst (GeminiAuthHelper.capture_baseline world config email JNull w0) = inr JNull /\
  fst (GeminiAuthHelper.poll_round world config BeautifulSoup json_loads
         email JNull w1) = inr (Some (JStr c)).
Proof.
  intros H0 H1 Hc. split.
  - destruct (messages_only_no_baseline world config email body w0 H0) as [w' H].
    rewrite H. reflexivity.
  - destruct (messages_only_first_round world config BeautifulSoup json_loads
                email body c w1 H1 Hc) as [w' H].
    rewrite H. reflexivity.
Qed.

Lemma messages_feed_reports_old_message_witness :
  fst (GeminiAuthHelper.capture_baseline
         (Stub.world FeedShapes.messages_feed Stub.no_mail) InboxSamples.config
         "u1@mail.test" JNull (Stub.browser [] [])) = inr JNull /\
  fst (GeminiAuthHelper.poll_round
         (Stub.world FeedShapes.messages_feed Stub.no_mail) InboxSamples.config
         MailSamples.text_parser InboxSamples.json_loads
         "u1@mail.test" JNull (Stub.browser [] [])) = inr (Some (JStr "482913")).
Proof.
  apply (messages_feed_reports_old_message
           (Stub.world FeedShapes.messages_feed Stub.no_mail) InboxSamples.config
           MailSamples.text_parser InboxSamples.json_loads
           "u1@mail.test" "your code is 482913 valid 10 min" "482913").
  - do 7 eexists. repeat split; reflexivity.
  - do 7 eexists. repeat split; reflexivity.
  - reflexivity.
Defined.

(** The whole call on that feed: the old message is reported at once. *)
Example messages_feed_whole_call :
  fst (GeminiAuthHelper.get_verification_code
         (Stub.world FeedShapes.messages_feed Stub.no_mail) InboxSamples.config
         MailSamples.text_parser InboxSamples.json_loads
         "u1@mail.test" 60 JNull (Stub.browser [] []))
  = inr (Some (JStr "482913")).
Proof. vm_compute. reflexivity. Qed.

(** ** More on code extraction *)

Section WordFacts.
Import PyStr Re ReMore.

Lemma all_chars_app p (a b : string) :
  all_chars p (a +:+ b) = all_chars p a && all_chars p b.
Proof.
  induction a as [|c a IH]; [reflexivity|].
  change (String c a +:+ b) with (String c (a +:+ b)). simpl.
  rewrite IH. apply andb_assoc.
Qed.

Lemma times_last n p : forall prev s k m,
  times n p prev s k = Some m ->
  exists w rest,
    s = w +:+ rest /\ String.length w = n /\ all_chars p w = true /\
    k (end_of prev w) rest = Some m.
Proof.
  induction n as [|n IH]; intros prev s k m H; simpl in H.
  - exists EmptyString, s. repeat split; assumption.
  - destruct s as [|c s]; [discriminate|].
    destruct (p c) eqn:Hp; [|discriminate].
    destruct (IH _ _ _ _ H) as (w & rest & -> & Hl & Ha & Hk).
    exists (String c w), rest. simpl. rewrite Hp, Ha, Hl.
    repeat split; assumption.
Qed.

Lemma times_run p : forall w prev rest k,
  all_chars p w = true ->
  times (String.length w) p prev (w +:+ rest) k = k (end_of prev w) rest.
Proof.
  induction w as [|c w IH]; intros prev rest k H; [reflexivity|].
  simpl in H. apply andb_true_iff in H. destruct H as [Hc Hw].
  change (String c w +:+ rest) with (String c (w +:+ rest)).
  simpl. rewrite Hc. apply IH. exact Hw.
Qed.

Lemma lit_sound l : forall prev s k m,
  lit l prev s k = Some m ->
  exists prev' rest, s = l +:+ rest /\ k prev' rest = Some m.
Proof.
  induction l as [|c l IH]; intros prev s k m H; simpl in H.
  - exists prev, s. split; [reflexivity|exact H].
  - destruct s as [|d s]; [discriminate|].
    destruct (Ascii.eqb_spec c d) as [->|]; [|discriminate].
    destruct (IH _ _ _ _ H) as (prev' & rest & -> & Hk).
    exists prev', rest. split; [reflexivity|exact Hk].
Qed.

Lemma plus_head p prev s k m :
  plus p prev s k = Some m -> exists c s', s = String c s' /\ p c = true.
Proof.
  destruct s as [|c s]; simpl; [discriminate|].
  destruct (p c) eqn:Hp; [eauto|discriminate].
Qed.

Lemma separator_is_no_word c :
  GeminiAuthHelper.colon_or_space c = true -> is_word c = false.
Proof.
  destruct c as [[] [] [] [] [] [] [] []]; vm_compute; congruence.
Qed.

Lemma alnum_is_word c : is_alnum c = true -> is_word c = true.
Proof. unfold is_word. intros ->. reflexivity. Qed.

Lemma end_of_word w : forall prev,
  all_chars is_word w = true ->
  word_at prev = true \/ w <> EmptyString ->
  word_at (end_of prev w) = true.
Proof.
  induction w as [|c w IH]; intros prev Hw Hp; simpl.
  - destruct Hp as [Hp|Hp]; [exact Hp|congruence].
  - simpl in Hw. apply andb_true_iff in Hw. destruct Hw as [Hc Hw].
    apply IH; [exact Hw|]. left. exact Hc.
Qed.

End WordFacts.

Section OneWord.
Import PyStr Re ReMore GeminiAuthHelper.

(** After a literal, [[:\s]+] needs a separator: inside a word there is
    none. *)
Lemma separator_not_in_word prev s k :
  all_chars is_word s = true -> plus colon_or_space prev s k = None.
Proof.
  intros Hw. destruct (plus colon_or_space prev s k) as [m|] eqn:E; [|reflexivity].
  apply plus_head in E. destruct E as (c & s' & -> & Hc).
  simpl in Hw. apply andb_true_iff in Hw. destruct Hw as [Hw _].
  apply separator_is_no_word in Hc. congruence.
Qed.

Lemma lit_in_word l prev s (k : option ascii -> string -> option match_object) :
  (forall prev' rest, all_chars is_word rest = true -> k prev' rest = None) ->
  all_chars is_word s = true ->
  lit l prev s k = None.
Proof.
  intros Hk Hw.
  destruct (lit l prev s k) as [m|] eqn:E; [|reflexivity].
  apply lit_sound in E. destruct E as (prev' & rest & -> & Hm).
  rewrite all_chars_app in Hw. apply andb_true_iff in Hw. destruct Hw as [_ Hw].
  rewrite Hk in Hm by exact Hw. discriminate.
Qed.

Lemma keyword_not_in_word s : forall prev,
  all_chars is_word s = true -> search_from keyword_pattern prev s = None.
Proof.
  assert (forall s prev, all_chars is_word s = true ->
            exec keyword_pattern prev s None accept = None) as Hexec.
  { intros s0 prev Hw. unfold keyword_pattern. cbn [exec].
    rewrite !lit_in_word;
      [reflexivity | | assumption | | assumption | | assumption | | assumption];
      intros; apply separator_not_in_word; assumption. }
  induction s as [|c s IH]; intros prev Hw.
  - cbn [search_from]. rewrite Hexec by exact Hw. reflexivity.
  - cbn [search_from]. rewrite Hexec by exact Hw.
    apply IH. simpl in Hw. apply andb_true_iff in Hw. tauto.
Qed.

(** Inside or at the end of a word no bounded pattern starts. *)
Lemma bounded_not_inside p s : forall prev,
  word_at prev = true -> all_chars is_word s = true ->
  search_from (bounded p) prev s = None.
Proof.
  induction s as [|c s IH]; intros prev Hp Hw.
  - unfold bounded. cbn [search_from exec]. rewrite Hp. reflexivity.
  - simpl in Hw. apply andb_true_iff in Hw. destruct Hw as [Hc Hw].
    unfold bounded. cbn [search_from exec next_char word_at].
    fold (word_at prev). rewrite Hp, Hc. simpl xorb. cbv iota.
    fold (bounded p). apply IH; [exact Hc|exact Hw].
Qed.

Lemma bounded_at_start p s :
  all_chars is_word s = true ->
  exec (bounded p) None s None accept
  = if (String.length s =? 6)%nat && all_chars p s then Some (Some s) else None.
Proof.
  intros Hw. unfold bounded. cbn [exec word_at].
  destruct s as [|c0 s0] eqn:Hs; [reflexivity|]. rewrite <- Hs in *.
  assert (word_at (next_char s) = true) as ->.
  { subst s. simpl in *. apply andb_true_iff in Hw. tauto. }
  simpl xorb. cbv iota.
  destruct ((String.length s =? 6)%nat && all_chars p s) eqn:Hok.
  - apply andb_true_iff in Hok. destruct Hok as [Hl Hp].
    apply Nat.eqb_eq in Hl.
    match goal with
    | |- times 6 p None s ?K = _ =>
        pose proof (times_run p s None EmptyString K Hp) as Hrun
    end.
    rewrite append_empty_r, Hl in Hrun. rewrite ?Hl. rewrite Hrun.
    cbn [exec next_char word_at].
    rewrite end_of_word; [|exact Hw|right; subst s; discriminate].
    simpl xorb. cbv iota. unfold accept.
    pose proof (substring_prefix s EmptyString) as Hsub.
    rewrite append_empty_r, Hl in Hsub. rewrite Hsub. reflexivity.
  - destruct (times 6 p None s _) as [m|] eqn:E; [|reflexivity].
    apply times_last in E. destruct E as (w & rest & Hsplit & Hl & Hp & Hk).
    cbn [exec] in Hk.
    destruct rest as [|d rest].
    + rewrite append_empty_r in Hsplit. subst w.
      rewrite Hl, Hp in Hok. discriminate.
    + rewrite Hsplit, all_chars_app in Hw.
      apply andb_true_iff in Hw. destruct Hw as [Hww Hwr].
      simpl in Hwr. apply andb_true_iff in Hwr. destruct Hwr as [Hd _].
      rewrite end_of_word in Hk;
        [|exact Hww|right; destruct w; [discriminate|discriminate]].
      simpl in Hk. rewrite Hd in Hk. discriminate.
Qed.

Lemma bounded_search p s :
  all_chars is_word s = true ->
  re_search (bounded p) s
  = if (String.length s =? 6)%nat && all_chars p s then Some (Some s) else None.
Proof.
  intros Hw. unfold re_search. destruct s as [|c t]; [reflexivity|].
  cbn [search_from]. rewrite bounded_at_start by exact Hw.
  destruct ((String.length (String c t) =? 6)%nat && all_chars p (String c t));
    [reflexivity|].
  simpl in Hw. apply andb_true_iff in Hw. destruct Hw as [Hc Hw].
  apply bounded_not_inside; assumption.
Qed.

End OneWord.

Section OneWordExtraction.
Import PyStr Re ReMore Soup GeminiAuthHelper.

(** A text node has no elements for methods 1 and 2 to look at. *)
Lemma text_has_no_elements {A : Type} (test : A -> node -> bool) (s : string) l :
  first_found (fun x => first_code (find_all (test x) [Text s])) l = None.
Proof. induction l as [|x l IH]; [reflexivity|]. simpl. exact IH. Qed.

Lemma one_word_patterns s :
  all_chars is_word s = true -> first_match patterns s = one_word_answer s.
Proof.
  intros Hw. unfold patterns, one_word_answer. cbn [first_match].
  unfold re_search at 1. rewrite keyword_not_in_word by exact Hw.
  change digits_pattern with (bounded is_digit).
  change upper_pattern with (bounded is_upper_digit).
  change alnum_pattern with (bounded is_alnum).
  rewrite !bounded_search by exact Hw.
  destruct (String.length s =? 6)%nat; simpl; [|reflexivity].
  destruct (all_chars is_digit s) eqn:Hd.
  - rewrite (all_chars_mono is_digit is_alnum s is_alnum_of_digit Hd). reflexivity.
  - destruct (all_chars is_upper_digit s) eqn:Hu.
    + rewrite (all_chars_mono is_upper_digit is_alnum s is_alnum_of_upper_digit Hu).
      reflexivity.
    + destruct (all_chars is_alnum s); reflexivity.
Qed.

End OneWordExtraction.

(** X7.  On a body that is a single word (letters, digits, underscores;
    the parser makes one text node of it) the extraction returns the word
    itself when it is exactly six letters or digits, and nothing otherwise:
    a code extracted once is extracted again from itself, and six
    alphanumerics inside a longer word are not taken for a code. *)
Theorem one_word_is_extracted_iff_code (s : string) :
  PyStr.all_chars PyStr.is_word s = true ->
  GeminiAuthHelper._extract_code_from_html MailSamples.text_parser s
  = ReMore.one_word_answer s.
Proof.
  intros Hw. destruct s as [|c t]; [reflexivity|].
  unfold GeminiAuthHelper._extract_code_from_html, MailSamples.text_parser.
  cbn [PyStr.truthy negb].
  rewrite !text_has_no_elements.
  unfold Soup.soup_text. cbn [fold_right Soup.get_text].
  rewrite append_empty_r. apply one_word_patterns. exact Hw.
Qed.

Lemma one_word_is_extracted_iff_code_witness :
  GeminiAuthHelper._extract_code_from_html MailSamples.text_parser "AB12C9"
  = Some "AB12C9" /\
  GeminiAuthHelper._extract_code_from_html MailSamples.text_parser "order_1234567"
  = None.
Proof.
  split.
  - apply (one_word_is_extracted_iff_code "AB12C9"). reflexivity.
  - apply (one_word_is_extracted_iff_code "order_1234567"). reflexivity.
Defined.

(** ** More on waiting for the workspace *)

Section WorkspaceReturns.
Import Run GeminiAuthHelper.
Context {W : Type}.
Variable world : World W.

Lemma recover_returns url w :
  exists b w', _recover_from_crash world url w = (inr b, w').
Proof.
  unfold _recover_from_crash, try_except.
  match goal with
  | |- context [let (_, _) := ?m w in _] => destruct (m w) as [[e|b] w1]
  end; unfold ret; eauto.
Qed.

Lemma on_crash_returns cc max w :
  exists f cc' w',
    on_crash world cc max w = (inr (f, cc'), w') /\ f <> Return true.
Proof.
  unfold on_crash. destruct (max <=? cc + 1).
  - do 3 eexists. split; [reflexivity|discriminate].
  - destruct (recover_returns workspace_url w) as (b & w1 & Hr).
    unfold bind at 1. rewrite Hr. destruct b.
    + do 3 eexists. split; [reflexivity|discriminate].
    + do 3 eexists. split; [reflexivity|discriminate].
Qed.

(** A round never raises, and it answers True only on an address of the
    workspace that the driver has just shown. *)
Lemma workspace_round_returns cc max w :
  exists f cc' w',
    workspace_round world cc max w = (inr (f, cc'), w') /\
    (f = Return true ->
     exists w1 w2 url,
       current_url world w1 = (inr url, w2) /\ at_workspace url = true).
Proof.
  unfold workspace_round, bind at 1, sleep, effect, try_except.
  set (w0 := time_sleep world 1000 w).
  unfold bind at 1.
  destruct (page_source world w0) as [[e|source] w1].
  - destruct (looks_like_crash (PyStr.lower (str_exn e))).
    + destruct (on_crash_returns cc max w1) as (f & cc' & w2 & H & Hf).
      rewrite H. do 3 eexists. split; [reflexivity|]. intros; contradiction.
    + do 3 eexists. split; [reflexivity|]. discriminate.
  - destruct (is_crashed source).
    + destruct (on_crash world cc max w1) as [[e|[f cc']] w2] eqn:H.
      * destruct (looks_like_crash (PyStr.lower (str_exn e))).
        -- destruct (on_crash_returns cc max w2) as (f & cc' & w3 & H' & Hf).
           rewrite H'. do 3 eexists. split; [reflexivity|]. intros; contradiction.
        -- do 3 eexists. split; [reflexivity|]. discriminate.
      * destruct (on_crash_returns cc max w1) as (f' & cc'' & w3 & H' & Hf).
        rewrite H in H'. inversion H'; subst.
        do 3 eexists. split; [reflexivity|]. intros; contradiction.
    + unfold bind at 1. destruct (current_url world w1) as [[e|url] w2] eqn:Hu.
      * destruct (looks_like_crash (PyStr.lower (str_exn e))).
        -- destruct (on_crash_returns cc max w2) as (f & cc' & w3 & H' & Hf).
           rewrite H'. do 3 eexists. split; [reflexivity|]. intros; contradiction.
        -- do 3 eexists. split; [reflexivity|]. discriminate.
      * destruct (at_workspace url) eqn:Ha.
        -- do 3 eexists. split; [reflexivity|]. intros _. eauto.
        -- do 3 eexists. split; [reflexivity|]. discriminate.
Qed.

Lemma workspace_rounds_return n : forall cc max w,
  exists b cc' w',
    workspace_rounds world n cc max w = (inr (b, cc'), w') /\
    (b = true ->
     exists w1 w2 url,
       current_url world w1 = (inr url, w2) /\ at_workspace url = true).
Proof.
  induction n as [|n IH]; intros cc max w; simpl.
  - do 3 eexists. split; [reflexivity|]. discriminate.
  - destruct (workspace_round_returns cc max w) as (f & cc' & w1 & Hr & Hf).
    unfold bind at 1. rewrite Hr. destruct f as [b| |].
    + do 3 eexists. split; [reflexivity|]. intros ->. auto.
    + apply IH.
    + apply IH.
Qed.

End WorkspaceReturns.

(** X8.  wait_for_workspace never raises: driver errors and crashes end in
    an answer.  It answers True only when the driver has shown an address
    that contains business.gemini.google and /cid/; and with a timeout of 0
    or less it answers False without touching the driver. *)
Theorem wait_for_workspace_answers
    {W : Type} (world : World W) (timeout max_crash_retries : Z) (w : W) :
  exists b w',
    GeminiAuthHelper.wait_for_workspace world timeout max_crash_retries w
    = (inr b, w') /\
    (b = true ->
     exists w1 w2 url,
       current_url world w1 = (inr url, w2) /\
       PyStr.contains "business.gemini.google" url = true /\
       PyStr.contains "/cid/" url = true) /\
    (timeout <= 0 -> b = false /\ w' = w).
Proof.
  unfold GeminiAuthHelper.wait_for_workspace.
  destruct (workspace_rounds_return world (Z.to_nat timeout) 0 max_crash_retries w)
    as (b & cc' & w' & Hr & Hb).
  unfold Run.bind. rewrite Hr. exists b, w'. split; [reflexivity|]. split.
  - intros Ht. destruct (Hb Ht) as (w1 & w2 & url & Hu & Ha).
    unfold GeminiAuthHelper.at_workspace in Ha. apply andb_true_iff in Ha.
    exists w1, w2, url. tauto.
  - intros Hle. replace (Z.to_nat timeout) with O in Hr by lia.
    simpl in Hr. inversion Hr. auto.
Qed.

Lemma wait_for_workspace_answers_witness :
  exists b w',
    GeminiAuthHelper.wait_for_workspace BrowserSamples.world 0 3
      BrowserSamples.two_crashes = (inr b, w') /\
    b = false /\ w' = BrowserSamples.two_crashes.
Proof.
  destruct (wait_for_workspace_answers BrowserSamples.world 0 3
              BrowserSamples.two_crashes) as (b & w' & Hr & _ & Hz).
  exists b, w'. split; [exact Hr|]. apply Hz. lia.
Defined.

(** ** More on harvesting the credentials *)

Section AddressFacts.
Import PyStr GeminiAuthHelper Address.

Lemma split_on_nonempty sep s : split_on sep s <> [].
Proof.
  destruct s as [|c s]; simpl; [discriminate|].
  destruct (Ascii.eqb c sep); [discriminate|].
  destruct (split_on sep s); discriminate.
Qed.

(** Splitting distributes over a separator. *)
Lemma split_on_app sep a b :
  split_on sep (a +:+ String sep b) = (split_on sep a ++ split_on sep b)%list.
Proof.
  induction a as [|c a IH].
  - change (EmptyString +:+ String sep b) with (String sep b).
    simpl. rewrite Ascii.eqb_refl. reflexivity.
  - change (String c a +:+ String sep b) with (String c (a +:+ String sep b)).
    simpl. rewrite IH. destruct (Ascii.eqb c sep); [reflexivity|].
    pose proof (split_on_nonempty sep a).
    destruct (split_on sep a) as [|piece pieces]; [congruence|]. reflexivity.
Qed.

Lemma split_on_free sep s : free_of sep s = true -> split_on sep s = [s].
Proof.
  unfold free_of. induction s as [|c s IH]; simpl; [reflexivity|].
  intros H. apply andb_true_iff in H. destruct H as [Hc Hs].
  apply negb_true_iff in Hc. rewrite Hc, (IH Hs). reflexivity.
Qed.

(** The first piece of a text that begins with separator-free [a]. *)
Lemma split_on_head sep a b :
  free_of sep a = true ->
  List.hd EmptyString (split_on sep (a +:+ b))
  = a +:+ List.hd EmptyString (split_on sep b).
Proof.
  unfold free_of. induction a as [|c a IH]; intros H; [reflexivity|].
  simpl in H. apply andb_true_iff in H. destruct H as [Hc Ha].
  apply negb_true_iff in Hc.
  change (String c a +:+ b) with (String c (a +:+ b)).
  simpl. rewrite Hc. specialize (IH Ha).
  pose proof (split_on_nonempty sep (a +:+ b)).
  destruct (split_on sep (a +:+ b)) as [|piece pieces]; [congruence|].
  simpl in *. rewrite IH. reflexivity.
Qed.

(** Segments other than [cid] are passed over. *)
Lemma config_id_of_skip segs : forall l,
  Forall (fun p => p <> "cid") segs -> l <> [] ->
  config_id_of (segs ++ l)%list = config_id_of l.
Proof.
  induction segs as [|p segs IH]; intros l Hall Hl; [reflexivity|].
  inversion Hall as [|? ? Hp Hrest]; subst.
  change ((p :: segs) ++ l)%list with (p :: (segs ++ l))%list.
  cbn [config_id_of].
  destruct (segs ++ l)%list as [|next more] eqn:E.
  - destruct segs; [simpl in E; congruence|discriminate].
  - destruct (String.eqb_spec p "cid") as [|_]; [contradiction|].
    rewrite <- E. apply IH; assumption.
Qed.

End AddressFacts.

(** X9.  The config id read from an address is the path segment after the
    first segment cid, cut at the question mark: for an address
    <prefix>/cid/<id><rest>, where no segment of the prefix is cid, the id
    contains neither / nor ?, and the rest is empty or starts a query or a
    further path, config_id_of gives exactly <id>. *)
Theorem config_id_is_segment_after_cid (prefix cid rest : string) :
  Forall (fun p => p <> "cid") (GeminiAuthHelper.split_on "/" prefix) ->
  Address.free_of "/" cid = true ->
  Address.free_of "?" cid = true ->
  Address.follows_id rest = true ->
  GeminiAuthHelper.config_id_of
    (GeminiAuthHelper.split_on "/" (prefix +:+ "/cid/" +:+ cid +:+ rest))
  = Some cid.
Proof.
  intros Hpre Hslash Hq Hrest.
  change (prefix +:+ "/cid/" +:+ cid +:+ rest)
    with (prefix +:+ String "/" ("cid" +:+ String "/" (cid +:+ rest))).
  rewrite !split_on_app.
  rewrite config_id_of_skip; [|exact Hpre|].
  2:{ simpl. discriminate. }
  change (GeminiAuthHelper.split_on "/" "cid") with ["cid"].
  pose proof (split_on_nonempty "/" (cid +:+ rest)) as Hne.
  destruct (GeminiAuthHelper.split_on "/" (cid +:+ rest)) as [|next more] eqn:E;
    [congruence|].
  cbn [app GeminiAuthHelper.config_id_of]. simpl String.eqb. cbv iota.
  f_equal.
  assert (next = cid +:+ List.hd EmptyString (GeminiAuthHelper.split_on "/" rest))
    as ->.
  { pose proof (split_on_head "/" cid rest Hslash) as H. rewrite E in H. exact H. }
  destruct rest as [|c rest'].
  - simpl. rewrite append_empty_r, split_on_free by exact Hq. reflexivity.
  - simpl in Hrest. apply orb_true_iff in Hrest. destruct Hrest as [Hc|Hc];
      apply Ascii.eqb_eq in Hc; subst c.
    + assert (List.hd EmptyString (GeminiAuthHelper.split_on "/" (String "?" rest'))
              = String "?" (List.hd EmptyString (GeminiAuthHelper.split_on "/" rest')))
        as ->.
      { simpl. 
        pose proof (split_on_nonempty "/" rest').
        destruct (GeminiAuthHelper.split_on "/" rest'); [congruence|reflexivity]. }
      rewrite split_on_app, split_on_free by exact Hq. reflexivity.
    + simpl. rewrite append_empty_r, split_on_free by exact Hq. reflexivity.
Qed.

Lemma config_id_is_segment_after_cid_witness :
  GeminiAuthHelper.config_id_of
    (GeminiAuthHelper.split_on "/"
       ("https://business.gemini.google/home" +:+ "/cid/" +:+ "abc-123"
        +:+ "?csesidx=42"))
  = Some "abc-123".
Proof.
  apply (config_id_is_segment_after_cid
           "https://business.gemini.google/home" "abc-123" "?csesidx=42");
    [|reflexivity|reflexivity|reflexivity].
  vm_compute. repeat (constructor; [discriminate|]). constructor.
Defined.

Section CompleteConfig.
Import PyStr GeminiAuthHelper.
Variable utcoffset : Z -> Z.
Variable csesidx_of : string -> option string.

Lemma truthy_opt_nonempty o v : truthy_opt o = Some v -> v <> EmptyString.
Proof.
  unfold truthy_opt. destruct o as [x|]; [|discriminate].
  destruct x; simpl; intros H; inversion H; discriminate.
Qed.

Lemma truthy_value_of c v :
  truthy_value c = Some v ->
  v <> EmptyString /\ exists ck, c = Some ck /\ cookie_value ck = Some v.
Proof.
  unfold truthy_value. destruct c as [ck|]; [|discriminate].
  destruct (cookie_value ck) as [x|] eqn:E; [|discriminate].
  destruct x; simpl; intros H; inversion H; subst.
  split; [discriminate|eauto].
Qed.

(** What [config_from] puts into a config. *)
Lemma config_from_fields email url cookies cfg :
  config_from utcoffset csesidx_of email url cookies = inr (Some cfg) ->
  rc_id cfg = email /\
  rc_csesidx cfg <> EmptyString /\ rc_config_id cfg <> EmptyString /\
  rc_secure_c_ses cfg <> EmptyString /\ rc_host_c_oses cfg <> EmptyString /\
  (exists ck, cookie_named "__Secure-C_SES" cookies = Some ck /\
              cookie_value ck = Some (rc_secure_c_ses cfg)) /\
  (exists ck, cookie_named "__Host-C_OSES" cookies = Some ck /\
              cookie_value ck = Some (rc_host_c_oses cfg)).
Proof.
  unfold config_from.
  destruct (truthy_value (cookie_named "__Secure-C_SES" cookies)) as [ses|] eqn:E1;
    [|discriminate].
  destruct (truthy_value (cookie_named "__Host-C_OSES" cookies)) as [host|] eqn:E2;
    [|discriminate].
  destruct (truthy_opt (csesidx_of url)) as [cs|] eqn:E3; [|discriminate].
  destruct (truthy_opt (config_id_of _)) as [cid|] eqn:E4; [|discriminate].
  destruct (expires_at_of _ _) as [e|ex]; [discriminate|].
  intros H. inversion H; subst. simpl.
  apply truthy_value_of in E1. apply truthy_value_of in E2.
  apply truthy_opt_nonempty in E3. apply truthy_opt_nonempty in E4.
  tauto.
Qed.

(** The dict comprehension keeps the last cookie of a name. *)
Lemma cookie_named_none name cookies :
  cookie_named name cookies = None ->
  Forall (fun later => cookie_name later <> Some name) cookies.
Proof.
  induction cookies as [|c cookies IH]; simpl; intros H; [constructor|].
  destruct (cookie_named name cookies) as [later|]; [discriminate|].
  constructor; [|apply IH; reflexivity].
  destruct (cookie_name c) as [n|]; [|discriminate].
  destruct (String.eqb n name) eqn:En; [discriminate|].
  apply String.eqb_neq in En. congruence.
Qed.

Lemma cookie_named_unnamed name cookies :
  Forall (fun later => cookie_name later <> Some name) cookies ->
  cookie_named name cookies = None.
Proof.
  induction 1 as [|c cookies Hc _ IH]; simpl; [reflexivity|].
  rewrite IH. destruct (cookie_name c) as [n|]; [|reflexivity].
  destruct (String.eqb n name) eqn:En; [|reflexivity].
  apply String.eqb_eq in En. congruence.
Qed.

Lemma cookie_named_last name cookies c :
  cookie_named name cookies = Some c <-> Jar.last_named name cookies c.
Proof.
  unfold Jar.last_named. split.
  - revert c. induction cookies as [|c0 cookies IH]; simpl; intros c H;
      [discriminate|].
    destruct (cookie_named name cookies) as [later|] eqn:E.
    + inversion H; subst.
      destruct (IH c eq_refl) as (before & after & -> & Hn & Ha).
      exists (c0 :: before), after. auto.
    + destruct (cookie_name c0) as [n|] eqn:En; [|discriminate].
      destruct (String.eqb n name) eqn:Heq; [|discriminate].
      apply String.eqb_eq in Heq. subst n.
      inversion H; subst. exists [], cookies.
      split; [reflexivity|]. split; [exact En|]. apply cookie_named_none. exact E.
  - intros (before & after & -> & Hn & Ha).
    induction before as [|c0 before IH]; simpl.
    + rewrite (cookie_named_unnamed name after Ha), Hn, String.eqb_refl.
      reflexivity.
    + rewrite IH. reflexivity.
Qed.

End CompleteConfig.

(** X10.  extract_config_from_driver never hands out a partial credential:
    a config it returns carries the mailbox as id and non-empty csesidx,
    config id, __Secure-C_SES value and __Host-C_OSES value, the two values
    being those of the cookies of these names in a cookie list the driver
    showed; and of the cookies of one name in that list it is the last one
    whose value is used, wherever in the list it stands: a cookie is the
    one found under a name exactly when it carries the name and no cookie
    behind it does. *)
Theorem harvested_config_is_complete
    {W : Type} (world : World W) (utcoffset : Z -> Z)
    (csesidx_of : string -> option string) (email : string) (timeout : Z)
    (w w' : W) (cfg : GeminiAuthHelper.RegisterConfig) :
  GeminiAuthHelper.extract_config_from_driver world utcoffset csesidx_of
    email timeout w = (inr (Some cfg), w') ->
  GeminiAuthHelper.rc_id cfg = email /\
  GeminiAuthHelper.rc_csesidx cfg <> EmptyString /\
  GeminiAuthHelper.rc_config_id cfg <> EmptyString /\
  GeminiAuthHelper.rc_secure_c_ses cfg <> EmptyString /\
  GeminiAuthHelper.rc_host_c_oses cfg <> EmptyString /\
  (exists cookies wa wb ses host,
     get_cookies world wa = (inr cookies, wb) /\
     GeminiAuthHelper.cookie_named "__Secure-C_SES" cookies = Some ses /\
     cookie_value ses = Some (GeminiAuthHelper.rc_secure_c_ses cfg) /\
     GeminiAuthHelper.cookie_named "__Host-C_OSES" cookies = Some host /\
     cookie_value host = Some (GeminiAuthHelper.rc_host_c_oses cfg) /\
     Jar.last_named "__Secure-C_SES" cookies ses /\
     Jar.last_named "__Host-C_OSES" cookies host) /\
  (forall name cookies c,
     GeminiAuthHelper.cookie_named name cookies = Some c <->
     Jar.last_named name cookies c).
Proof.
  intros H.
  destruct (extracted_config_origin world utcoffset csesidx_of _ _ _ _ _ H)
    as (url & cookies & wa & wb & wc & Hurl & Hck & Hcf).
  apply config_from_fields in Hcf.
  destruct Hcf as (H1 & H2 & H3 & H4 & H5 & (ses & Hs & Hsv) & (host & Hh & Hhv)).
  repeat (split; [assumption|]). split.
  - exists cookies, wb, wc, ses, host.
    repeat (split; [assumption|]). split; apply cookie_named_last; assumption.
  - intros. apply cookie_named_last.
Qed.

Lemma harvested_config_is_complete_witness :
  GeminiAuthHelper.rc_id CookieSamples.expected_config = "u1@mail.test" /\
  GeminiAuthHelper.rc_csesidx CookieSamples.expected_config <> EmptyString /\
  GeminiAuthHelper.rc_config_id CookieSamples.expected_config <> EmptyString /\
  GeminiAuthHelper.rc_secure_c_ses CookieSamples.expected_config <> EmptyString /\
  GeminiAuthHelper.rc_host_c_oses CookieSamples.expected_config <> EmptyString.
Proof.
  destruct (harvested_config_is_complete BrowserSamples.world
              CookieSamples.utc CookieSamples.csesidx_of "u1@mail.test" 15
              (Stub.browser [Stub.workspace_page] Jar.renewed)
              (snd (GeminiAuthHelper.extract_config_from_driver BrowserSamples.world
                      CookieSamples.utc CookieSamples.csesidx_of "u1@mail.test" 15
                      (Stub.browser [Stub.workspace_page] Jar.renewed)))
              CookieSamples.expected_config)
    as (H1 & H2 & H3 & H4 & H5 & _).
  - vm_compute. reflexivity.
  - auto.
Defined.

(** ** The captcha solver and the mailbox allocation *)

Section RunMore.
Import Run.
Context {W : Type}.

Lemma bind_inl {A B : Type} (m : M W A) (k : A -> M W B) w e w' :
  bind m k w = (inl e, w') ->
  m w = (inl e, w') \/ exists a w1, m w = (inr a, w1) /\ k a w1 = (inl e, w').
Proof.
  unfold bind. destruct (m w) as [[e1|a] w1]; intros H.
  - left. inversion H. reflexivity.
  - right. eauto.
Qed.

Lemma attempt_returns (m : M W unit) w : exists w', attempt m w = (inr tt, w').
Proof.
  unfold attempt, try_except. destruct (m w) as [[e|[]] w1]; eexists; reflexivity.
Qed.

Lemma try_none_answers {A : Type} (m : M W (option A)) (w : W) :
  exists r w', try_except m (fun _ => ret None) w = (inr r, w') /\
    (forall a, r = Some a -> m w = (inr (Some a), w')).
Proof.
  unfold try_except. destruct (m w) as [[e|r] w1].
  - exists None, w1. split; [reflexivity|]. discriminate.
  - exists r, w1. split; [reflexivity|]. intros a ->. reflexivity.
Qed.

End RunMore.

Section SolverFacts.
Import Run YesCaptchaService.
Context {W : Type}.
Variable world : World W.
Variable gear : Gear W.
Variable api_key : string.

Lemma sleep_step {B : Type} (ms : Z) (k : unit -> M W B) w :
  bind (GeminiAuthHelper.sleep world ms) k w = k tt (time_sleep world ms w).
Proof. reflexivity. Qed.

Lemma poll_result_token task_id w r w' :
  poll_result world gear api_key task_id w = (inr (Some (Some r)), w') ->
  PyJson.truthy r = true.
Proof.
  unfold poll_result. intros H.
  repeat (apply bind_inr in H; destruct H as (? & ? & _ & H)).
  match type of H with
  | (if ?c then _ else _) _ = _ => destruct c
  end.
  - repeat (apply bind_inr in H; destruct H as (? & ? & _ & H)).
    match type of H with
    | (if ?c then _ else _) _ = _ => destruct c eqn:Ht
    end; apply ret_inr in H; destruct H as [H _]; inversion H; subst. exact Ht.
  - apply bind_inr in H. destruct H as (? & ? & _ & H).
    match type of H with
    | (if ?c then _ else _) _ = _ => destruct c
    end; apply ret_inr in H; destruct H as [H _]; inversion H.
Qed.

Lemma polling_token task_id fuel start timeout : forall w r w',
  while_before (time_time world) fuel start timeout
    (poll_result world gear api_key task_id) w = (inr (Some (Some r)), w') ->
  PyJson.truthy r = true.
Proof.
  intros w r w' H. apply while_before_some in H. destruct H as (w1 & H).
  eapply poll_result_token. eassumption.
Qed.

Lemma bind_fail {A B : Type} (m : M W A) (k : A -> M W B) w e w1 :
  m w = (inl e, w1) -> bind m k w = (inl e, w1).
Proof. unfold bind. intros ->. reflexivity. Qed.

Lemma bind_lift {A B : Type} (x : exn + A) (k : A -> M W B) w :
  bind (GeminiAuthHelper.lift x) k w
  = match x with inr a => k a w | inl e => (inl e, w) end.
Proof. destruct x; reflexivity. Qed.

(** What a round makes of the reply to getTaskResult. *)
Lemma poll_result_cases task_id w :
  match get_task_result gear api_key task_id (time_sleep world 3000 w) with
  | (inl e, w1) => poll_result world gear api_key task_id w = (inl e, w1)
  | (inr reply, w1) =>
      match reads reply "status" JNull with
      | inl e => poll_result world gear api_key task_id w = (inl e, w1)
      | inr status =>
          if PyJson.eq status (JStr "ready") then
            match token_of reply with
            | inl e => poll_result world gear api_key task_id w = (inl e, w1)
            | inr token =>
                poll_result world gear api_key task_id w
                = (inr (if PyJson.truthy token then Some (Some token) else None), w1)
            end
          else
            match reads reply "errorId" (JNum 0) with
            | inl e => poll_result world gear api_key task_id w = (inl e, w1)
            | inr error_id =>
                poll_result world gear api_key task_id w
                = (inr (if not_zero error_id then Some None else None), w1)
            end
      end
  end.
Proof.
  unfold poll_result. rewrite sleep_step.
  destruct (get_task_result gear api_key task_id (time_sleep world 3000 w))
    as [[e|reply] w1] eqn:Eg;
    [rewrite (bind_fail _ _ _ _ _ Eg); reflexivity|].
  rewrite (bind_step _ _ _ _ _ Eg).
  unfold reads, token_of, reads. rewrite bind_lift.
  destruct (json_body reply) as [e|data]; [reflexivity|].
  rewrite bind_lift.
  destruct (PyJson.get data "status" JNull) as [e|status]; [reflexivity|].
  destruct (PyJson.eq status (JStr "ready")).
  - rewrite bind_lift.
    destruct (PyJson.get data "solution" (JDict [])) as [e|solution]; [reflexivity|].
    rewrite bind_lift.
    destruct (PyJson.get solution "gRecaptchaResponse" JNull) as [e|token];
      [reflexivity|].
    destruct (PyJson.truthy token); reflexivity.
  - rewrite bind_lift.
    destruct (PyJson.get data "errorId" (JNum 0)) as [e|error_id]; [reflexivity|].
    destruct (not_zero error_id); reflexivity.
Qed.

(** What the call makes of the reply to createTask and of the polling. *)
Lemma get_recaptcha_token_cases page_action timeout w :
  api_key <> EmptyString ->
  match create_task gear api_key page_action w with
  | (inl e, w1) =>
      get_recaptcha_token world gear api_key page_action timeout w = (inr None, w1)
  | (inr reply, w1) =>
      match reads reply "errorId" (JNum 0) with
      | inl _ =>
          get_recaptcha_token world gear api_key page_action timeout w
          = (inr None, w1)
      | inr error_id =>
          if not_zero error_id then
            get_recaptcha_token world gear api_key page_action timeout w
            = (inr None, w1)
          else
            match reads reply "taskId" JNull with
            | inl _ =>
                get_recaptcha_token world gear api_key page_action timeout w
                = (inr None, w1)
            | inr task_id =>
                if PyJson.truthy task_id then
                  get_recaptcha_token world gear api_key page_action timeout w
                  = match await_result world gear api_key task_id timeout w1 with
                    | (inr (Some (Some token)), w2) => (inr (Some token), w2)
                    | (_, w2) => (inr None, w2)
                    end
                else
                  get_recaptcha_token world gear api_key page_action timeout w
                  = (inr None, w1)
            end
      end
  end.
Proof.
  intros Hkey. unfold get_recaptcha_token, is_enabled.
  destruct (PyStr.truthy api_key) eqn:Ht;
    [|destruct api_key; [congruence|discriminate]].
  cbn [negb]. unfold try_except.
  destruct (create_task gear api_key page_action w) as [[e|reply] w1] eqn:Ec;
    [rewrite (bind_fail _ _ _ _ _ Ec); reflexivity|].
  rewrite (bind_step _ _ _ _ _ Ec).
  unfold reads. rewrite bind_lift.
  destruct (json_body reply) as [e|data]; [reflexivity|].
  rewrite bind_lift.
  destruct (PyJson.get data "errorId" (JNum 0)) as [e|error_id]; [reflexivity|].
  destruct (not_zero error_id); [reflexivity|].
  rewrite bind_lift.
  destruct (PyJson.get data "taskId" JNull) as [e|task_id]; [reflexivity|].
  destruct (PyJson.truthy task_id); cbn [negb]; [|reflexivity].
  unfold await_result, read. unfold bind.
  destruct (while_before _ _ _ _ _ w1) as [[e|[[token|]|]] w2]; reflexivity.
Qed.

End SolverFacts.

(** X11.  get_recaptcha_token never raises, and a token it returns is never
    empty or null.  Without an API key it returns None and sends nothing.
    With a key: a createTask request that fails, a reply to it that is not
    JSON or not a dict, that carries a non-zero errorId or no taskId, each
    end in None; otherwise the answer is the token the polling hands out,
    and None when the polling raises, is refused or runs out of time.  In a
    polling round a getTaskResult request that fails, or a reply that
    cannot be read, raises (and so ends the call with None); a reply with
    status ready hands out its token when that is non-empty, whatever its
    errorId, and lets the polling go on when it is empty; a reply with
    another status ends the polling with None when its errorId is non-zero
    and lets it go on otherwise. *)
Theorem get_recaptcha_token_answers
    {W : Type} (world : World W) (gear : Gear W) (api_key page_action : string)
    (timeout : Z) (w : W) :
  (exists r w',
     YesCaptchaService.get_recaptcha_token world gear api_key page_action timeout w
     = (inr r, w') /\
     match r with
     | Some token => PyJson.truthy token = true
     | None => True
     end /\
     (api_key = EmptyString -> r = None /\ w' = w)) /\
  (api_key <> EmptyString ->
   match YesCaptchaService.create_task gear api_key page_action w with
   | (inl e, w1) =>
       YesCaptchaService.get_recaptcha_token world gear api_key page_action
         timeout w = (inr None, w1)
   | (inr reply, w1) =>
       match YesCaptchaService.reads reply "errorId" (JNum 0) with
       | inl _ =>
           YesCaptchaService.get_recaptcha_token world gear api_key page_action
             timeout w = (inr None, w1)
       | inr error_id =>
           if YesCaptchaService.not_zero error_id then
             YesCaptchaService.get_recaptcha_token world gear api_key
               page_action timeout w = (inr None, w1)
           else
             match YesCaptchaService.reads reply "taskId" JNull with
             | inl _ =>
                 YesCaptchaService.get_recaptcha_token world gear api_key
                   page_action timeout w = (inr None, w1)
             | inr task_id =>
                 if PyJson.truthy task_id then
                   YesCaptchaService.get_recaptcha_token world gear api_key
                     page_action timeout w
                   = match YesCaptchaService.await_result world gear api_key
                             task_id timeout w1 with
                     | (inr (Some (Some token)), w2) => (inr (Some token), w2)
                     | (_, w2) => (inr None, w2)
                     end
                 else
                   YesCaptchaService.get_recaptcha_token world gear api_key
                     page_action timeout w = (inr None, w1)
             end
       end
   end) /\
  (forall task_id w0,
     match YesCaptchaService.get_task_result gear api_key task_id
             (time_sleep world 3000 w0) with
     | (inl e, w1) =>
         YesCaptchaService.poll_result world gear api_key task_id w0 = (inl e, w1)
     | (inr reply, w1) =>
         match YesCaptchaService.reads reply "status" JNull with
         | inl e =>
             YesCaptchaService.poll_result world gear api_key task_id w0
             = (inl e, w1)
         | inr status =>
             if PyJson.eq status (JStr "ready") then
               match YesCaptchaService.token_of reply with
               | inl e =>
                   YesCaptchaService.poll_result world gear api_key task_id w0
                   = (inl e, w1)
               | inr token =>
                   YesCaptchaService.poll_result world gear api_key task_id w0
                   = (inr (if PyJson.truthy token then Some (Some token) else None),
                      w1)
               end
             else
               match YesCaptchaService.reads reply "errorId" (JNum 0) with
               | inl e =>
                   YesCaptchaService.poll_result world gear api_key task_id w0
                   = (inl e, w1)
               | inr error_id =>
                   YesCaptchaService.poll_result world gear api_key task_id w0
                   = (inr (if YesCaptchaService.not_zero error_id
                           then Some None else None), w1)
               end
         end
     end).
Proof.
  split; [|split;
    [apply get_recaptcha_token_cases | intros; apply poll_result_cases]].
  unfold YesCaptchaService.get_recaptcha_token, YesCaptchaService.is_enabled.
  destruct api_key as [|a key].
  - exists None, w. simpl. auto.
  - simpl negb. cbv iota.
    match goal with
    | |- context [Run.try_except ?m _] =>
        destruct (try_none_answers m w) as (r & w1 & E & Hr)
    end.
    exists r, w1. split; [exact E|]. split; [|discriminate].
    destruct r as [token|]; [|exact I].
    specialize (Hr token eq_refl). clear E. rename Hr into E.
    repeat (apply bind_inr in E; destruct E as (? & ? & _ & E)).
    match type of E with
    | (if ?c then _ else _) _ = _ => destruct c
    end; [apply ret_inr in E; destruct E; discriminate|].
    apply bind_inr in E. destruct E as (task_id & ? & _ & E).
    destruct (negb (PyJson.truthy task_id));
      [apply ret_inr in E; destruct E; discriminate|].
    apply bind_inr in E. destruct E as (? & ? & _ & E).
    apply bind_inr in E. destruct E as (found & ? & Hloop & E).
    apply ret_inr in E. destruct E as [E _].
    destruct found as [[t|]|]; inversion E; subst.
    eapply polling_token. eassumption.
Qed.

Lemma get_recaptcha_token_answers_witness :
  exists r w',
    YesCaptchaService.get_recaptcha_token BrowserSamples.world
      (GearSamples.gear Stub.no_mail) EmptyString "verify_oob_code" 60
      (Stub.browser [] []) = (inr r, w') /\
    r = None /\ w' = Stub.browser [] [].
Proof.
  destruct (get_recaptcha_token_answers BrowserSamples.world
              (GearSamples.gear Stub.no_mail) EmptyString "verify_oob_code" 60
              (Stub.browser [] [])) as ((r & w' & H & _ & Hoff) & _).
  exists r, w'. split; [exact H|]. apply Hoff. reflexivity.
Defined.

(** A round whose reply has status ready, a token and a non-zero errorId:
    the token is handed out. *)
Example ready_token_is_taken_despite_error_id :
  fst (YesCaptchaService.poll_result BrowserSamples.world
         (GearSamples.gear
            {| status_code := 200;
               json_body :=
                 inr (JDict [("errorId", JNum 1); ("status", JStr "ready");
                             ("solution",
                              JDict [("gRecaptchaResponse", JStr "tok-1")])]) |})
         "key" (JStr "task-1") (Stub.browser [] []))
  = inr (Some (Some (JStr "tok-1"))).
Proof. vm_compute. reflexivity. Qed.

Section MailboxFacts.
Import Run AuthRest.
Context {W : Type}.
Variable world : World W.
Variable gear : Gear W.
Variable config : GeminiAuthHelper.GeminiAuthConfig.

Lemma generate_email_truthy w email w' :
  generate_email world config w = (inr (Some email), w') ->
  PyJson.truthy email = true.
Proof.
  unfold generate_email. intros H.
  apply bind_inr in H. destruct H as (r & w1 & _ & H).
  destruct (status_code r =? 200);
    [|apply ret_inr in H; destruct H; discriminate].
  apply bind_inr in H. destruct H as (data & ? & _ & H).
  apply bind_inr in H. destruct H as (success & ? & _ & H).
  apply bind_inr in H. destruct H as (found & ? & Hfound & H).
  destruct found as [e|].
  - apply ret_inr in H. destruct H as [H _]. inversion H; subst.
    destruct (PyJson.truthy success);
      [|apply ret_inr in Hfound; destruct Hfound; discriminate].
    apply bind_inr in Hfound. destruct Hfound as (inner & ? & _ & Hfound).
    apply bind_inr in Hfound. destruct Hfound as (e' & ? & _ & Hfound).
    apply ret_inr in Hfound. destruct Hfound as [Hfound _].
    destruct (PyJson.truthy e') eqn:Ht; inversion Hfound; subst. exact Ht.
  - repeat (apply bind_inr in H; destruct H as (? & ? & _ & H)).
    apply ret_inr in H. destruct H; discriminate.
Qed.

Lemma new_address_truthy domain w email w' :
  new_address gear config domain w = (inr (Some email), w') ->
  PyJson.truthy email = true.
Proof.
  unfold new_address. intros H.
  apply bind_inr in H. destruct H as (d & ? & _ & H).
  apply bind_inr in H. destruct H as (name & ? & _ & H).
  apply bind_inr in H. destruct H as (r & ? & _ & H).
  destruct (status_code r =? 200);
    [|apply ret_inr in H; destruct H; discriminate].
  apply bind_inr in H. destruct H as (data & ? & _ & H).
  apply bind_inr in H. destruct H as (e & ? & _ & H).
  apply ret_inr in H. destruct H as [H _].
  destruct (PyJson.truthy e) eqn:Ht; inversion H; subst. exact Ht.
Qed.

Lemma create_email_cases domain w :
  exists r w', create_email world gear config domain w = (inr r, w') /\
    (forall email, r = Some email -> PyJson.truthy email = true).
Proof.
  unfold create_email.
  destruct (negb (PyStr.truthy (GeminiAuthHelper.mail_api config))
            || negb (PyStr.truthy (GeminiAuthHelper.admin_key config))).
  - exists None, w. split; [reflexivity|]. discriminate.
  - destruct (try_none_answers (generate_email world config) w)
      as (way1 & w1 & E1 & H1).
    rewrite (bind_step _ _ _ _ _ E1).
    destruct way1 as [email|].
    + exists (Some email), w1. split; [reflexivity|].
      intros e He. inversion He; subst.
      eapply generate_email_truthy. apply H1. reflexivity.
    + destruct (GeminiAuthHelper.email_domains config) as [|d ds].
      * exists None, w1. split; [reflexivity|]. discriminate.
      * destruct (try_none_answers (new_address gear config domain) w1)
          as (way2 & w2 & E2 & H2).
        rewrite (bind_step _ _ _ _ _ E2).
        exists way2, w2. split; [reflexivity|].
        intros e He. eapply new_address_truthy. apply H2. exact He.
Qed.

End MailboxFacts.

(** X12.  create_email never raises, whatever the two mail APIs answer or
    throw, and an address it returns is never empty or null.  When the mail
    API address or the admin key is missing it returns None without sending
    any request. *)
Theorem create_email_answers
    {W : Type} (world : World W) (gear : Gear W)
    (config : GeminiAuthHelper.GeminiAuthConfig) (domain : option string) (w : W) :
  exists r w',
    AuthRest.create_email world gear config domain w = (inr r, w') /\
    match r with
    | Some email => PyJson.truthy email = true
    | None => True
    end /\
    (GeminiAuthHelper.mail_api config = EmptyString \/
     GeminiAuthHelper.admin_key config = EmptyString -> r = None /\ w' = w).
Proof.
  destruct (create_email_cases world gear config domain w) as (r & w' & E & Ht).
  exists r, w'. split; [exact E|]. split.
  - destruct r as [email|]; [|exact I]. apply Ht. reflexivity.
  - intros Hoff. unfold AuthRest.create_email in E.
    assert (Hc : negb (PyStr.truthy (GeminiAuthHelper.mail_api config))
                 || negb (PyStr.truthy (GeminiAuthHelper.admin_key config)) = true).
    { destruct Hoff as [-> | ->]; simpl; [reflexivity|apply orb_true_r]. }
    rewrite Hc in E. apply ret_inr in E. destruct E as [E1 E2]. auto.
Qed.

(** X13.  _get_email serves the queued addresses first, oldest first, one
    per call, without touching the mail API: as many calls as there are
    queued addresses return exactly those addresses in order and leave
    whatever was queued behind them. *)
Theorem queued_emails_are_served_in_order
    {W : Type} (world : World W) (gear : Gear W)
    (config : GeminiAuthHelper.GeminiAuthConfig)
    (s : RS.Service) (served left : list string) (w : W) :
  RegisterRest.get_emails world gear config (length served)
    (RegisterRest.set_queue s (served ++ left)%list) w
  = (inr (List.map (fun e => Some (JStr e)) served,
          RegisterRest.set_queue s left), w).
Proof.
  revert s. induction served as [|e served IH]; intros s.
  - reflexivity.
  - cbn [length RegisterRest.get_emails]. unfold Run.bind at 1.
    unfold RegisterRest._get_email at 1. cbn.
    change (RegisterRest.set_queue (RegisterRest.set_queue s ((e :: served) ++ left)%list)
              (served ++ left)%list)
      with (RegisterRest.set_queue s (served ++ left)%list).
    unfold Run.bind at 1. rewrite IH. reflexivity.
Qed.

(** ** Typing into a field *)

Section PyStrMore.
Import PyStr.

Lemma rstrip_idempotent s : rstrip (rstrip s) = rstrip s.
Proof.
  induction s as [|c s IH]; [reflexivity|].
  cbn [rstrip]. destruct (rstrip s) as [|b r] eqn:E.
  - destruct (is_space c) eqn:Hc; [reflexivity|].
    cbn [rstrip]. rewrite Hc. reflexivity.
  - cbn [rstrip]. cbn [rstrip] in IH. rewrite IH. reflexivity.
Qed.

Lemma lstrip_head s : lstrip s = EmptyString \/
  exists c t, lstrip s = String c t /\ is_space c = false.
Proof.
  induction s as [|c s IH]; [left; reflexivity|].
  cbn [lstrip]. destruct (is_space c) eqn:Hc; [exact IH|].
  right. exists c, s. auto.
Qed.

Lemma lstrip_rstrip c t : is_space c = false ->
  lstrip (rstrip (String c t)) = rstrip (String c t).
Proof.
  intros Hc. cbn [rstrip]. destruct (rstrip t) as [|b r].
  - rewrite Hc. cbn [lstrip]. rewrite Hc. reflexivity.
  - cbn [lstrip]. rewrite Hc. reflexivity.
Qed.

Lemma strip_idempotent s : strip (strip s) = strip s.
Proof.
  unfold strip. destruct (lstrip_head s) as [E | (c & t & E & Hc)]; rewrite E.
  - reflexivity.
  - rewrite (lstrip_rstrip c t Hc). apply rstrip_idempotent.
Qed.

End PyStrMore.

Section TypingFacts.
Import Run GeminiAuthHelper AuthRest.
Context {W : Type}.
Variable world : World W.
Variable gear : Gear W.

Lemma wipe_returns element w : exists w', wipe world element w = (inr tt, w').
Proof.
  unfold wipe, try_except.
  match goal with |- context [match ?m w with _ => _ end] => destruct (m w) as [[e|[]] w1] end.
  - apply attempt_returns.
  - eexists; reflexivity.
Qed.

Lemma reading_returns (m : M W (option string)) w :
  exists v w', reading m w = (inr v, w').
Proof.
  unfold reading, try_except. destruct (m w) as [[e|v] w1]; eexists; eexists; reflexivity.
Qed.

Lemma get_input_value_returns element w :
  exists v w', _get_input_value world gear element w = (inr v, w').
Proof.
  unfold _get_input_value.
  destruct (reading_returns (get_property gear element "value") w) as (v1 & w1 & E1).
  rewrite (bind_step _ _ _ _ _ E1). destruct v1 as [s|]; [eexists; eexists; reflexivity|].
  destruct (reading_returns (get_attribute world element "value") w1) as (v2 & w2 & E2).
  rewrite (bind_step _ _ _ _ _ E2). destruct v2 as [s|]; [eexists; eexists; reflexivity|].
  destruct (reading_returns (script_value gear VALUE_JS [element]) w2) as (v3 & w3 & E3).
  rewrite (bind_step _ _ _ _ _ E3). eexists; eexists; reflexivity.
Qed.

Lemma reads_back_returns element text w :
  exists b w', reads_back world gear element text w = (inr b, w').
Proof.
  unfold reads_back.
  destruct (get_input_value_returns element w) as (v & w1 & E).
  rewrite (bind_step _ _ _ _ _ E). eexists; eexists; reflexivity.
Qed.

Lemma reads_back_true element text w w' :
  reads_back world gear element text w = (inr true, w') ->
  exists v, _get_input_value world gear element w = (inr v, w') /\
            PyStr.strip v = text.
Proof.
  unfold reads_back. intros H.
  apply bind_inr in H. destruct H as (v & w1 & E & H).
  apply ret_inr in H. destruct H as [H ->].
  exists v. split; [exact E|]. apply String.eqb_eq. symmetry. exact H.
Qed.

Lemma type_text_raises element delay text : forall w e w',
  type_text world element text delay w = (inl e, w') ->
  typing_fault world element text delay e w'.
Proof.
  assert (Hgen : forall text w e w',
            type_text world element text delay w = (inl e, w') ->
            text <> EmptyString /\
            ((exists ch w1, send_keys world element [ch] w1 = (inl e, w')) \/
             (delay < 0 /\ e = NEGATIVE_SLEEP))).
  { induction text0 as [|ch text0 IH]; intros w e w' H; cbn [type_text] in H.
    - discriminate.
    - split; [discriminate|].
      apply bind_inl in H. destruct H as [H | (a & w1 & _ & H)].
      + left. eauto.
      + apply bind_inl in H. destruct H as [H | (a2 & w2 & _ & H)].
        * destruct (delay =? 0); [discriminate|].
          unfold sleep_for in H. destruct (Z.ltb_spec delay 0) as [Hneg|Hpos].
          -- right. unfold raise in H. inversion H. auto.
          -- discriminate.
        * apply IH in H. tauto. }
  intros w e w' H. apply Hgen in H. unfold typing_fault. tauto.
Qed.

(** With a negative delay no character gets typed without an exception. *)
Lemma type_text_returns element delay text w w' :
  type_text world element text delay w = (inr tt, w') ->
  delay < 0 -> text = EmptyString.
Proof.
  destruct text as [|ch text]; [reflexivity|]. cbn [type_text]. intros H Hneg.
  apply bind_inr in H. destruct H as (? & w1 & _ & H).
  apply bind_inr in H. destruct H as (? & w2 & H & _).
  destruct (Z.eqb_spec delay 0) as [Hz|Hnz]; [lia|].
  unfold sleep_for in H. destruct (Z.ltb_spec delay 0); [discriminate|lia].
Qed.

(** What one pass can do: raise from a keystroke, or answer, and answer
    [true] only after a matching reading. *)
Lemma typing_round_cases element text delay w :
  (exists e w',
     typing_round world gear element text delay w = (inl e, w') /\
     typing_fault world element text delay e w') \/
  (exists b w',
     typing_round world gear element text delay w = (inr b, w') /\
     (b = true -> exists v w1,
        _get_input_value world gear element w1 = (inr v, w') /\
        PyStr.strip v = text) /\
     (delay < 0 -> text = EmptyString)).
Proof.
  assert (Hlate : forall w0 w1,
            type_text world element text delay w0 = (inr tt, w1) ->
            delay < 0 -> text = EmptyString)
    by (intros w0 w1; apply type_text_returns).
  unfold typing_round.
  destruct (attempt_returns (execute_script world SCROLL_JS [element] ;;; ret tt)%run w)
    as (w1 & E1).
  rewrite (bind_step _ _ _ _ _ E1).
  assert (exists w2, try_except (click world element)
            (fun _ => attempt (execute_script world CLICK_JS [element] ;;; ret tt)%run) w1
            = (inr tt, w2)) as (w2 & E2).
  { unfold try_except. destruct (click world element w1) as [[e|[]] wx].
    - apply attempt_returns.
    - eexists; reflexivity. }
  rewrite (bind_step _ _ _ _ _ E2).
  rewrite sleep_step.
  destruct (wipe_returns element (time_sleep world 150 w2)) as (w3 & E3).
  rewrite (bind_step _ _ _ _ _ E3).
  rewrite sleep_step.
  destruct (type_text world element text delay (time_sleep world 50 w3))
    as [[e|[]] w4] eqn:E4.
  - left. apply type_text_raises in E4 as Hk.
    exists e, w4. split; [|exact Hk].
    unfold bind at 1. rewrite E4. reflexivity.
  - right. pose proof (Hlate _ _ E4) as Hempty. rewrite (bind_step _ _ _ _ _ E4).
    destruct (attempt_returns (execute_script world DISPATCH_JS [element] ;;; ret tt)%run w4)
      as (w5 & E5).
    unfold _dispatch_input_change at 1.
    rewrite (bind_step _ _ _ _ _ E5).
    destruct (reads_back_returns element text w5) as (b1 & w6 & E6).
    rewrite (bind_step _ _ _ _ _ E6).
    destruct b1.
    { exists true, w6. split; [reflexivity|]. split; [|exact Hempty]. intros _.
      apply reads_back_true in E6. destruct E6 as (v & E6 & Hv). eauto. }
    match goal with
    | |- context [bind (try_except ?m ?h)] =>
        destruct (try_except m h w6) as [[e|b2] w7] eqn:E7
    end.
    { exfalso. unfold try_except in E7.
      match type of E7 with
      | match ?m with _ => _ end = _ => destruct m as [[e'|b'] wy]
      end; discriminate. }
    rewrite (bind_step _ _ _ _ _ E7).
    destruct b2.
    { exists true, w7. split; [reflexivity|]. split; [|exact Hempty]. intros _.
      unfold try_except in E7.
      match type of E7 with
      | match ?m with _ => _ end = _ => destruct m as [[e'|b'] wy] eqn:Em
      end; [discriminate|]. inversion E7; subst.
      do 3 (apply bind_inr in Em; destruct Em as (? & ? & _ & Em)).
      apply reads_back_true in Em. destruct Em as (v & Em & Hv). eauto. }
    match goal with
    | |- context [bind (try_except ?m ?h)] =>
        destruct (try_except m h w7) as [[e|b3] w8] eqn:E8
    end.
    { exfalso. unfold try_except in E8.
      match type of E8 with
      | match ?m with _ => _ end = _ => destruct m as [[e'|b'] wy]
      end; discriminate. }
    rewrite (bind_step _ _ _ _ _ E8).
    destruct b3.
    { exists true, w8. split; [reflexivity|]. split; [|exact Hempty]. intros _.
      unfold try_except in E8.
      match type of E8 with
      | match ?m with _ => _ end = _ => destruct m as [[e'|b'] wy] eqn:Em
      end; [discriminate|]. inversion E8; subst.
      do 2 (apply bind_inr in Em; destruct Em as (? & ? & _ & Em)).
      apply reads_back_true in Em. destruct Em as (v & Em & Hv). eauto. }
    eexists false, _. split; [reflexivity|]. split; [discriminate|exact Hempty].
Qed.

Lemma typing_rounds_cases element text delay k : forall w,
  (exists e w',
     typing_rounds world gear k element text delay w = (inl e, w') /\
     typing_fault world element text delay e w') \/
  (exists b w',
     typing_rounds world gear k element text delay w = (inr b, w') /\
     (b = true -> exists v w1,
        _get_input_value world gear element w1 = (inr v, w') /\
        PyStr.strip v = text) /\
     (k <> O -> delay < 0 -> text = EmptyString)).
Proof.
  induction k as [|k IH]; intros w; cbn [typing_rounds].
  - right. exists false, w. split; [reflexivity|]. split; [discriminate|].
    intros H. congruence.
  - destruct (typing_round_cases element text delay w)
      as [(e & w' & E & Hk) | (b & w' & E & Hb & Hempty)].
    + left. exists e, w'. split; [|exact Hk].
      unfold bind. rewrite E. reflexivity.
    + rewrite (bind_step _ _ _ _ _ E). destruct b.
      * right. exists true, w'. split; [reflexivity|]. split; [exact Hb|].
        intros _. exact Hempty.
      * destruct (IH w') as [Hl | (b & w2 & E2 & Hb2 & _)]; [left; exact Hl|].
        right. exists b, w2. split; [exact E2|]. split; [exact Hb2|].
        intros _. exact Hempty.
Qed.

End TypingFacts.

(** X14.  With require_match on, clear_and_type answers True only after it
    has read the field back and the reading, stripped of surrounding white
    space, equals the text; so a text that itself begins or ends with white
    space is never confirmed. *)
Theorem strict_typing_needs_matching_readback
    {W : Type} (world : World W) (gear : Gear W)
    (element text : string) (delay attempts : Z) (w w' : W) :
  AuthRest.clear_and_type world gear element text delay attempts true w
  = (inr true, w') ->
  PyStr.strip text = text /\
  exists v w1, AuthRest._get_input_value world gear element w1 = (inr v, w') /\
               PyStr.strip v = text.
Proof.
  unfold AuthRest.clear_and_type. intros H.
  apply bind_inr in H. destruct H as (done & w1 & E & H).
  destruct done; [|apply ret_inr in H; destruct H; discriminate].
  apply ret_inr in H. destruct H as [_ ->].
  destruct (typing_rounds_cases world gear element text delay
              (Z.to_nat (Z.max 1 attempts)) w)
    as [(e & wx & E' & _) | (b & wx & E' & Hb & _)];
    rewrite E' in E; inversion E; subst.
  destruct (Hb eq_refl) as (v & wr & Hv & Hs).
  split; [|eauto]. rewrite <- Hs. apply strip_idempotent.
Qed.

Lemma strict_typing_needs_matching_readback_witness :
  PyStr.strip "James Smith" = "James Smith" /\
  exists v w1,
    AuthRest._get_input_value BrowserSamples.world
      (FieldSamples.gear " James Smith ") "input#mat-input-0" w1
    = (inr v, Stub.set_clock 530 (Stub.browser [] [])) /\
    PyStr.strip v = "James Smith".
Proof.
  apply (strict_typing_needs_matching_readback BrowserSamples.world
           (FieldSamples.gear " James Smith ") "input#mat-input-0"
           "James Smith" 30 3 (Stub.browser [] [])).
  vm_compute. reflexivity.
Defined.

(** X15.  The only exceptions clear_and_type lets out are one raised by
    sending a character of the text to the element, and the ValueError of
    time.sleep when the delay is negative and there is a character to type;
    every other driver call is guarded.  With a negative delay it returns
    only for the empty text, and with require_match off it never answers
    False. *)
Theorem clear_and_type_raises_only_from_keystrokes
    {W : Type} (world : World W) (gear : Gear W)
    (element text : string) (delay attempts : Z) (require_match : bool) (w : W) :
  match AuthRest.clear_and_type world gear element text delay attempts
          require_match w with
  | (inl e, w') =>
      (exists ch w1, send_keys world element [ch] w1 = (inl e, w')) \/
      (delay < 0 /\ text <> EmptyString /\ e = AuthRest.NEGATIVE_SLEEP)
  | (inr b, _) =>
      (require_match = false -> b = true) /\
      (delay < 0 -> text = EmptyString)
  end.
Proof.
  unfold AuthRest.clear_and_type.
  destruct (typing_rounds_cases world gear element text delay
              (Z.to_nat (Z.max 1 attempts)) w)
    as [(e & wx & E & Hk) | (b & wx & E & _ & Hempty)].
  - unfold Run.bind. rewrite E. exact Hk.
  - rewrite (bind_step _ _ _ _ _ E).
    assert (Hrounds : Z.to_nat (Z.max 1 attempts) <> O) by lia.
    destruct b; [split; [intros _; reflexivity|auto]|].
    destruct require_match; (split; [|auto]); [discriminate|intros _; reflexivity].
Qed.

(** A name typed with a negative delay: the first keystroke goes through
    and the sleep behind it raises. *)
Example negative_delay_raises :
  fst (AuthRest.clear_and_type BrowserSamples.world
         (FieldSamples.gear "James Smith") "input#mat-input-0" "James Smith"
         (-30) 3 true (Stub.browser [] []))
  = inl AuthRest.NEGATIVE_SLEEP.
Proof. vm_compute. reflexivity. Qed.

(** ** Pressing a button *)

Section ClickFacts.
Import Run GeminiAuthHelper AuthRest.
Context {W : Type}.
Variable world : World W.
Variable gear : Gear W.

Lemma while_before_total {A : Type} (now : W -> Z) (body : M W (option A))
    start timeout :
  (forall w, exists r w', body w = (inr r, w')) ->
  forall fuel w, exists r w',
    while_before now fuel start timeout body w = (inr r, w').
Proof.
  intros Hbody. induction fuel as [|fuel IH]; intros w; cbn [while_before].
  - eexists; eexists; reflexivity.
  - destruct (now w - start <? timeout); [|eexists; eexists; reflexivity].
    destruct (Hbody w) as (r & w1 & E). rewrite (bind_step _ _ _ _ _ E).
    destruct r as [a|]; [eexists; eexists; reflexivity|apply IH].
Qed.

Lemma try_button_cases allow deny skip_blank b w :
  exists r w', try_button world gear allow deny skip_blank b w = (inr r, w') /\
    (r = true -> pressed world gear allow deny b w').
Proof.
  unfold try_button, try_except.
  match goal with
  | |- context [match ?m w with _ => _ end] => destruct (m w) as [[e|r] w1] eqn:E
  end.
  - exists false, w1. split; [reflexivity|discriminate].
  - exists r, w1. split; [reflexivity|]. intros ->.
    apply bind_inr in E. destruct E as (shown & wa & Hshown & E).
    destruct shown; cbn [negb] in E;
      [|apply ret_inr in E; destruct E; discriminate].
    apply bind_inr in E. destruct E as (enabled & wb & Henabled & E).
    destruct enabled; cbn [negb] in E;
      [|apply ret_inr in E; destruct E; discriminate].
    apply bind_inr in E. destruct E as (l & wc & Hlabel & E).
    unfold label in Hlabel.
    apply bind_inr in Hlabel. destruct Hlabel as (t & wd & Htext & Hlabel).
    apply ret_inr in Hlabel. destruct Hlabel as [-> ->].
    destruct (skip_blank && negb (PyStr.truthy _));
      [apply ret_inr in E; destruct E; discriminate|].
    destruct (mentions deny _) eqn:Hdeny;
      [apply ret_inr in E; destruct E; discriminate|].
    destruct (mentions allow _) eqn:Hallow;
      [|apply ret_inr in E; destruct E; discriminate].
    apply bind_inr in E. destruct E as (z & we & Hclick & E).
    apply ret_inr in E. destruct E as [_ ->].
    exists w, wa, wb, t, wd, z. auto 10.
Qed.

Lemma try_buttons_cases allow deny skip_blank buttons : forall w,
  exists r w', try_buttons world gear allow deny skip_blank buttons w = (inr r, w') /\
    (r = true -> exists b, In b buttons /\ pressed world gear allow deny b w').
Proof.
  induction buttons as [|b buttons IH]; intros w; cbn [try_buttons].
  - exists false, w. split; [reflexivity|discriminate].
  - destruct (try_button_cases allow deny skip_blank b w) as (r & w1 & E & Hr).
    rewrite (bind_step _ _ _ _ _ E). destruct r.
    + exists true, w1. split; [reflexivity|]. intros _. exists b.
      split; [left; reflexivity|auto].
    + destruct (IH w1) as (r & w2 & E2 & Hr2). exists r, w2.
      split; [exact E2|]. intros Ht. destruct (Hr2 Ht) as (b' & Hin & Hp).
      exists b'. split; [right; exact Hin|exact Hp].
Qed.

Lemma scan_cases (find : M W (list string)) allow deny skip_blank w :
  exists r w', scan world gear find allow deny skip_blank w = (inr r, w') /\
    (r = true -> exists b, pressed world gear allow deny b w').
Proof.
  unfold scan, try_except, bind. destruct (find w) as [[e|buttons] w1].
  - exists false, w1. split; [reflexivity|discriminate].
  - destruct (try_buttons_cases allow deny skip_blank buttons w1)
      as (r & w2 & E & Hr).
    rewrite E. exists r, w2. split; [reflexivity|].
    intros Ht. destruct (Hr Ht) as (b & _ & Hp). eauto.
Qed.

Lemma until_deadline_cases timeout (body : M W (option bool)) allow deny w :
  (forall w, exists r w', body w = (inr r, w') /\
     (forall b, r = Some b -> b = true /\ exists btn, pressed world gear allow deny btn w')) ->
  exists r w', until_deadline world timeout body w = (inr r, w') /\
    (r = true -> exists btn, pressed world gear allow deny btn w').
Proof.
  intros Hbody. unfold until_deadline, read.
  cbv beta delta [bind] iota.
  destruct (while_before_total (time_time world) body (time_time world w)
              (1000 * timeout)
              (fun w0 => let (r, H) := Hbody w0 in
                         let (w1, H1) := H in
                         ex_intro _ r (ex_intro _ w1 (proj1 H1)))
              (rounds (1000 * timeout) 200) w) as (r & w1 & E).
  rewrite E. cbv beta delta [ret] iota.
  eexists; eexists; split; [reflexivity|].
  destruct r as [b|]; [|discriminate]. intros ->.
  apply while_before_some in E. destruct E as (w0 & E).
  destruct (Hbody w0) as (r' & w2 & E' & Hr'). rewrite E in E'.
  inversion E'; subst. destruct (Hr' true eq_refl) as [_ Hp]. exact Hp.
Qed.

End ClickFacts.

(** X16.  click_verify_only never raises, and it answers True only after it
    has pressed a button that was displayed and enabled and whose label
    names Verify and none of the resend-like words. *)
Theorem click_verify_only_presses_verify
    {W : Type} (world : World W) (gear : Gear W) (timeout : Z) (w : W) :
  exists r w',
    AuthRest.click_verify_only world gear timeout w = (inr r, w') /\
    (r = true ->
     exists b, AuthRest.pressed world gear AuthRest.VERIFY_TEXTS
                 AuthRest.DENY_TEXTS b w').
Proof.
  unfold AuthRest.click_verify_only. apply until_deadline_cases. intros w0.
  match goal with
  | |- context [Run.bind (AuthRest.scan _ _ ?f ?a ?d ?s)] =>
      destruct (scan_cases world gear f a d s w0) as (r & w1 & E & Hr)
  end.
  rewrite (bind_step _ _ _ _ _ E). destruct r.
  - eexists; eexists; split; [reflexivity|]. intros b Hb. inversion Hb. auto.
  - eexists; eexists; split; [reflexivity|]. discriminate.
Qed.

(** X17.  click_primary_action never raises, and it answers True only after
    it has pressed a button that was displayed and enabled and whose label
    names one of the thirteen continue-like words and none of the
    resend-like words. *)
Theorem click_primary_action_presses_primary
    {W : Type} (world : World W) (gear : Gear W) (timeout : Z) (w : W) :
  exists r w',
    AuthRest.click_primary_action world gear timeout w = (inr r, w') /\
    (r = true ->
     exists b, AuthRest.pressed world gear AuthRest.PRIMARY_TEXTS
                 AuthRest.DENY_TEXTS b w').
Proof.
  unfold AuthRest.click_primary_action. apply until_deadline_cases. intros w0.
  match goal with
  | |- context [Run.bind (AuthRest.scan _ _ ?f ?a ?d ?s)] =>
      destruct (scan_cases world gear f a d s w0) as (r & w1 & E & Hr)
  end.
  rewrite (bind_step _ _ _ _ _ E). destruct r.
  - eexists; eexists; split; [reflexivity|]. intros b Hb. inversion Hb. auto.
  - match goal with
    | |- context [Run.bind (AuthRest.scan _ _ ?f ?a ?d ?s)] =>
        destruct (scan_cases world gear f a d s w1) as (r2 & w2 & E2 & Hr2)
    end.
    rewrite (bind_step _ _ _ _ _ E2). destruct r2.
    + eexists; eexists; split; [reflexivity|]. intros b Hb. inversion Hb. auto.
    + eexists; eexists; split; [reflexivity|]. discriminate.
Qed.

(** On a page with a resend button before the verify button, the verify
    button is the one pressed. *)
Example verify_button_is_pressed :
  fst (AuthRest.click_verify_only BrowserSamples.world ClickSamples.gear 3
         (Stub.browser [] [])) = inr true /\
  AuthRest.try_button BrowserSamples.world ClickSamples.gear
    AuthRest.VERIFY_TEXTS AuthRest.DENY_TEXTS true "btn-resend"
    (Stub.browser [] []) = (inr false, Stub.browser [] []).
Proof. vm_compute. split; reflexivity. Qed.

(** ** Harvesting the configuration from the workspace *)

Section WorkspaceHarvest.
Import Run PyStr GeminiAuthHelper AuthRest.
Context {W : Type}.
Variable world : World W.
Variable gear : Gear W.
Variable utcoffset : Z -> Z.
Variable csesidx_of : string -> option string.

Lemma try_except_cases {A : Type} (m : M W A) (h : exn -> M W A) w a w' :
  try_except m h w = (inr a, w') ->
  m w = (inr a, w') \/ exists e w1, m w = (inl e, w1) /\ h e w1 = (inr a, w').
Proof.
  unfold try_except. destruct (m w) as [[e|x] w1]; intros H.
  - right. eauto.
  - left. exact H.
Qed.

Lemma try_except_returns {A : Type} (m : M W A) (h : exn -> M W A) w :
  (forall e w1, exists a w', h e w1 = (inr a, w')) ->
  exists a w', try_except m h w = (inr a, w').
Proof.
  intros Hh. unfold try_except. destruct (m w) as [[e|x] w1].
  - apply Hh.
  - eexists; eexists; reflexivity.
Qed.

(** What the [try] body yields once the driver has answered. *)
Lemma workspace_result_shape url cookies r :
  workspace_result utcoffset csesidx_of url cookies = inr r ->
  (success r = true /\ error r = None /\
   exists cfg, config_data r = Some cfg /\
     wc_csesidx cfg <> EmptyString /\ wc_config_id cfg <> EmptyString /\
     wc_secure_c_ses cfg <> EmptyString /\ wc_host_c_oses cfg <> EmptyString) \/
  r = failed "配置数据不完整".
Proof.
  unfold workspace_result.
  destruct (negb (all_named cookies)); [discriminate|].
  destruct (truthy_value (cookie_named "__Secure-C_SES" cookies)) as [ses|] eqn:E1;
    [|intros H; inversion H; auto].
  destruct (truthy_value (cookie_named "__Host-C_OSES" cookies)) as [host|] eqn:E2;
    [|intros H; inversion H; auto].
  destruct (truthy_opt (csesidx_of url)) as [cs|] eqn:E3;
    [|intros H; inversion H; auto].
  destruct (truthy_opt (config_id_of _)) as [cid|] eqn:E4;
    [|intros H; inversion H; auto].
  destruct (expires_at_of _ _) as [e|ex]; [discriminate|].
  intros H. inversion H; subst. left. cbn.
  split; [reflexivity|]. split; [reflexivity|].
  eexists. split; [reflexivity|]. cbn.
  apply truthy_value_of in E1. apply truthy_value_of in E2.
  apply truthy_opt_nonempty in E3. apply truthy_opt_nonempty in E4.
  tauto.
Qed.

Lemma from_workspace_cases w :
  exists r w', extract_config_from_workspace world utcoffset csesidx_of w = (inr r, w') /\
    (success r = true ->
     exists url cookies, workspace_result utcoffset csesidx_of url cookies = inr r).
Proof.
  unfold extract_config_from_workspace.
  match goal with
  | |- context [try_except ?m ?h] =>
      destruct (try_except m h w) as [[e|r] w'] eqn:E
  end.
  - unfold try_except in E.
    match type of E with
    | match ?m with _ => _ end = _ => destruct m as [[e'|b'] wy]
    end; discriminate.
  - exists r, w'. split; [reflexivity|]. intros Hs.
    apply try_except_cases in E. destruct E as [E | (e & w1 & _ & E)].
    + rewrite sleep_step in E.
      apply bind_inr in E. destruct E as (cookies & ? & _ & E).
      apply bind_inr in E. destruct E as (url & ? & _ & E).
      apply lift_inr in E. destruct E as [E _]. eauto.
    + apply ret_inr in E. destruct E as [-> _]. discriminate.
Qed.

Lemma refresh_guarded_returns (h : M W unit) w :
  (forall w1, exists w', h w1 = (inr tt, w')) ->
  exists w', try_except (refresh gear ;;; sleep world 3000)%run (fun _ => h) w
             = (inr tt, w').
Proof.
  intros Hh. unfold try_except.
  destruct ((refresh gear ;;; sleep world 3000)%run w) as [[e|[]] w1].
  - apply Hh.
  - eexists; reflexivity.
Qed.

Lemma on_error_returns last_error e w :
  exists le w', on_error world gear last_error e w = (inr le, w') /\
    (le = last_error \/ le = Some (str_exn e)).
Proof.
  unfold on_error.
  destruct (contains "crash" (lower (str_exn e)) || contains "tab" (lower (str_exn e))).
  - destruct (refresh_guarded_returns
                (attempt (get world "https://business.gemini.google/" ;;;
                          sleep world 5000)%run) w) as (w1 & E).
    { intros w1. apply attempt_returns. }
    rewrite (bind_step _ _ _ _ _ E). eexists; eexists; split; [reflexivity|auto].
  - destruct (attempt_returns (refresh gear ;;; sleep world 3000)%run w) as (w1 & E).
    rewrite (bind_step _ _ _ _ _ E). eexists; eexists; split; [reflexivity|auto].
Qed.

Lemma on_error_continues last_error e w :
  exists le w',
    (le0 <- on_error world gear last_error e ;;
     ret (@None ExtractResult, le0))%run w = (inr (None, le), w').
Proof.
  destruct (on_error_returns last_error e w) as (le & w' & E & _).
  rewrite (bind_step _ _ _ _ _ E). eexists; eexists; reflexivity.
Qed.

(** One pass never raises, and what it returns is a success of
    [extract_config_from_workspace]. *)
Lemma retry_round_cases last_error w :
  exists res le w',
    retry_round world gear utcoffset csesidx_of last_error w = (inr (res, le), w') /\
    (forall r, res = Some r ->
       success r = true /\
       exists w1, extract_config_from_workspace world utcoffset csesidx_of w1
                  = (inr r, w')).
Proof.
  unfold retry_round. unfold try_except at 1.
  match goal with
  | |- context [match ?m w with _ => _ end] => destruct (m w) as [[e|[res le]] w1] eqn:E
  end.
  - destruct (on_error_continues last_error e w1) as (le & w' & E').
    exists None, le, w'. split; [exact E'|]. discriminate.
  - exists res, le, w1. split; [reflexivity|]. intros r ->.
    apply bind_inr in E. destruct E as (source & wa & _ & E).
    destruct (is_crashed source).
    + do 2 (apply bind_inr in E; destruct E as (? & ? & _ & E)).
      apply ret_inr in E. destruct E; discriminate.
    + apply bind_inr in E. destruct E as (r' & wb & Hx & E).
      destruct (success r') eqn:Hs.
      * apply ret_inr in E. destruct E as [E ->]. inversion E; subst. eauto.
      * exfalso. apply try_except_cases in E.
        destruct E as [E | (e & w2 & _ & E)].
        -- do 2 (apply bind_inr in E; destruct E as (? & ? & _ & E)).
           apply ret_inr in E. destruct E; discriminate.
        -- apply bind_inr in E. destruct E as (? & ? & _ & E).
           apply ret_inr in E. destruct E; discriminate.
Qed.

Lemma final_error_nonempty last_error : final_error last_error <> EmptyString.
Proof.
  unfold final_error. destruct last_error as [[|c m]|]; simpl; discriminate.
Qed.

Lemma retry_rounds_cases k : forall last_error w,
  exists r w',
    retry_rounds world gear utcoffset csesidx_of k last_error w = (inr r, w') /\
    (if success r
     then exists w1, extract_config_from_workspace world utcoffset csesidx_of w1
                     = (inr r, w')
     else config_data r = None /\
          exists m, error r = Some m /\ m <> EmptyString).
Proof.
  induction k as [|k IH]; intros last_error w; cbn [retry_rounds].
  - eexists; eexists; split; [reflexivity|]. cbn.
    split; [reflexivity|]. eexists; split; [reflexivity|apply final_error_nonempty].
  - destruct (retry_round_cases last_error w) as (res & le & w1 & E & Hres).
    rewrite (bind_step _ _ _ _ _ E). cbn [fst snd].
    destruct res as [r|].
    + exists r, w1. split; [reflexivity|].
      destruct (Hres r eq_refl) as [Hs Hx]. rewrite Hs. exact Hx.
    + apply IH.
Qed.

End WorkspaceHarvest.

(** X18.  extract_config_from_workspace never raises.  A result with
    success set carries no error and a config whose csesidx, config id and
    two cookie values are all non-empty; any other result carries no config
    and an error text. *)
Theorem extract_config_from_workspace_answers
    {W : Type} (world : World W) (utcoffset : Z -> Z)
    (csesidx_of : string -> option string) (w : W) :
  exists r w',
    AuthRest.extract_config_from_workspace world utcoffset csesidx_of w = (inr r, w') /\
    if AuthRest.success r
    then AuthRest.error r = None /\
         exists cfg, AuthRest.config_data r = Some cfg /\
           AuthRest.wc_csesidx cfg <> EmptyString /\
           AuthRest.wc_config_id cfg <> EmptyString /\
           AuthRest.wc_secure_c_ses cfg <> EmptyString /\
           AuthRest.wc_host_c_oses cfg <> EmptyString
    else AuthRest.config_data r = None /\ AuthRest.error r <> None.
Proof.
  destruct (from_workspace_cases world utcoffset csesidx_of w) as (r & w' & E & Hr).
  exists r, w'. split; [exact E|].
  destruct (AuthRest.success r) eqn:Hs.
  - destruct (Hr eq_refl) as (url & cookies & Hw).
    apply workspace_result_shape in Hw. destruct Hw as [(_ & He & Hc) | ->].
    + auto.
    + discriminate.
  - unfold AuthRest.extract_config_from_workspace in E.
    apply try_except_cases in E. destruct E as [E | (e & w1 & _ & E)].
    + rewrite sleep_step in E.
      apply bind_inr in E. destruct E as (cookies & ? & _ & E).
      apply bind_inr in E. destruct E as (url & ? & _ & E).
      apply lift_inr in E. destruct E as [E _].
      apply workspace_result_shape in E. destruct E as [(Ht & _) | ->].
      * congruence.
      * split; [reflexivity|discriminate].
    + apply ret_inr in E. destruct E as [-> _]. split; [reflexivity|discriminate].
Qed.

(** X19.  extract_config_with_retry never raises.  A success it returns is
    the very result of a call of extract_config_from_workspace; a failure
    carries no config and a non-empty error text.  With max_retries zero or
    negative it fails at once with the default text and never touches the
    driver. *)
Theorem extract_config_with_retry_answers
    {W : Type} (world : World W) (gear : Gear W) (utcoffset : Z -> Z)
    (csesidx_of : string -> option string) (max_retries : Z) (w : W) :
  exists r w',
    AuthRest.extract_config_with_retry world gear utcoffset csesidx_of max_retries w
    = (inr r, w') /\
    (if AuthRest.success r
     then exists w1,
            AuthRest.extract_config_from_workspace world utcoffset csesidx_of w1
            = (inr r, w')
     else AuthRest.config_data r = None /\
          exists m, AuthRest.error r = Some m /\ m <> EmptyString) /\
    (max_retries <= 0 -> r = AuthRest.failed AuthRest.RETRY_FAILED /\ w' = w).
Proof.
  unfold AuthRest.extract_config_with_retry.
  destruct (retry_rounds_cases world gear utcoffset csesidx_of
              (Z.to_nat max_retries) None w) as (r & w' & E & Hr).
  exists r, w'. split; [exact E|]. split; [exact Hr|].
  intros Hle. replace (Z.to_nat max_retries) with O in E by lia.
  cbn in E. inversion E. auto.
Qed.

(** X20.  On the same address and cookies, all of them named,
    extract_config_from_workspace and extract_config_from_driver harvest
    the same fields: the one succeeds exactly when the other finds a config,
    with equal csesidx, config id, cookie values and expiry text, and an
    expiry that cannot be converted fails with the same error in both (the
    one reports it as its error text, the other raises it). *)
Theorem workspace_and_driver_harvest_agree
    (utcoffset : Z -> Z) (csesidx_of : string -> option string)
    (email url : string) (cookies : list cookie) :
  AuthRest.all_named cookies = true ->
  match GeminiAuthHelper.config_from utcoffset csesidx_of email url cookies with
  | inr (Some c) =>
      AuthRest.workspace_result utcoffset csesidx_of url cookies
      = inr {| AuthRest.success := true;
               AuthRest.config_data :=
                 Some {| AuthRest.wc_csesidx := GeminiAuthHelper.rc_csesidx c;
                         AuthRest.wc_config_id := GeminiAuthHelper.rc_config_id c;
                         AuthRest.wc_secure_c_ses := GeminiAuthHelper.rc_secure_c_ses c;
                         AuthRest.wc_host_c_oses := GeminiAuthHelper.rc_host_c_oses c;
                         AuthRest.wc_expires_at := GeminiAuthHelper.rc_expires_at c |};
               AuthRest.error := None |}
  | inr None =>
      AuthRest.workspace_result utcoffset csesidx_of url cookies
      = inr (AuthRest.failed "配置数据不完整")
  | inl e => AuthRest.workspace_result utcoffset csesidx_of url cookies = inl e
  end.
Proof.
  intros Hn. unfold GeminiAuthHelper.config_from, AuthRest.workspace_result.
  rewrite Hn. cbn [negb].
  destruct (GeminiAuthHelper.truthy_value
              (GeminiAuthHelper.cookie_named "__Secure-C_SES" cookies));
    [|reflexivity].
  destruct (GeminiAuthHelper.truthy_value
              (GeminiAuthHelper.cookie_named "__Host-C_OSES" cookies));
    [|reflexivity].
  destruct (GeminiAuthHelper.truthy_opt (csesidx_of url)); [|reflexivity].
  destruct (GeminiAuthHelper.truthy_opt (GeminiAuthHelper.config_id_of _));
    [|reflexivity].
  destruct (GeminiAuthHelper.expires_at_of _ _); reflexivity.
Qed.

Lemma workspace_and_driver_harvest_agree_witness :
  AuthRest.workspace_result CookieSamples.utc CookieSamples.csesidx_of
    (Stub.url Stub.workspace_page) (CookieSamples.session (Some 1700000000))
  = inr {| AuthRest.success := true;
           AuthRest.config_data :=
             Some {| AuthRest.wc_csesidx := "42";
                     AuthRest.wc_config_id := "abc-123";
                     AuthRest.wc_secure_c_ses := "ses-secret";
                     AuthRest.wc_host_c_oses := "host-secret";
                     AuthRest.wc_expires_at := Some "2023-11-14 10:13:20" |};
           AuthRest.error := None |}.
Proof.
  apply (workspace_and_driver_harvest_agree CookieSamples.utc
           CookieSamples.csesidx_of "u1@mail.test"
           (Stub.url Stub.workspace_page) (CookieSamples.session (Some 1700000000))).
  vm_compute. reflexivity.
Defined.

(** ** The accounts file *)

Section AccountsFacts.
Import Accounts.

Lemma save_all_appends items : forall d l,
  mkdir_raises d = None -> write_raises d = None ->
  accounts_file d = Holds (inr (JList l)) ->
  save_all items d
  = match items with
    | [] => d
    | _ :: _ =>
        set_file d
          (Holds (inr (JList (l ++ List.map (fun i => record_of (fst i) (snd i)) items))))
    end.
Proof.
  induction items as [|[email data] items IH]; intros d l Hm Hw Hf; [reflexivity|].
  cbn [save_all]. unfold _save_config. rewrite Hm, Hf, Hw.
  cbn [load_accounts append snd].
  rewrite (IH _ (l ++ [record_of email data])%list) by (try reflexivity; assumption).
  destruct items as [|i items]; cbn [List.map fst snd].
  - reflexivity.
  - rewrite <- app_assoc. reflexivity.
Qed.

End AccountsFacts.

(** X21.  _save_config only ever appends.  On a data directory where mkdir
    and the write go through: when the accounts file is absent, unreadable
    or holds a JSON array, a run of saves leaves the array as it was read
    with the new records behind it in the order of the saves; when the file
    holds JSON that is not an array, a save raises and leaves the disk as it
    is. *)
Theorem save_config_only_appends
    (first : string * GeminiAuthHelper.RegisterConfig)
    (more : list (string * GeminiAuthHelper.RegisterConfig)) (d : Accounts.disk) :
  Accounts.mkdir_raises d = None ->
  Accounts.write_raises d = None ->
  match Accounts.load_accounts (Accounts.accounts_file d) with
  | JList l =>
      Accounts.save_all (first :: more) d
      = Accounts.set_file d
          (Accounts.Holds
             (inr (JList (l ++ List.map (fun i => Accounts.record_of (fst i) (snd i))
                                        (first :: more)))))
  | _ =>
      exists e, Accounts._save_config (fst first) (snd first) d = (inl e, d)
  end.
Proof.
  intros Hm Hw. destruct first as [email data].
  destruct (Accounts.load_accounts (Accounts.accounts_file d)) as [| | | |l|] eqn:E;
    try (eexists; unfold Accounts._save_config; rewrite Hm, E; reflexivity).
  cbn [Accounts.save_all]. unfold Accounts._save_config. rewrite Hm, E, Hw.
  cbn [Accounts.append snd].
  rewrite (save_all_appends more _ (l ++ [Accounts.record_of email data])%list)
    by (try reflexivity; assumption).
  destruct more as [|i more]; cbn [List.map fst snd].
  - reflexivity.
  - rewrite <- app_assoc. reflexivity.
Qed.

Lemma save_config_only_appends_witness :
  Accounts.save_all
    [("u1@mail.test", CookieSamples.expected_config);
     ("u2@mail.test", CookieSamples.expected_config)] Accounts.fresh
  = Accounts.set_file Accounts.fresh
      (Accounts.Holds
         (inr (JList ([] ++ [Accounts.record_of "u1@mail.test" CookieSamples.expected_config;
                       Accounts.record_of "u2@mail.test" CookieSamples.expected_config])))).
Proof.
  apply (save_config_only_appends
           ("u1@mail.test", CookieSamples.expected_config)
           [("u2@mail.test", CookieSamples.expected_config)] Accounts.fresh);
    reflexivity.
Defined.

(** ** The verification flow *)

Lemma verification_cases
    {W : Type} (world : World W) (gear : Gear W)
    (config : GeminiAuthHelper.GeminiAuthConfig)
    (BeautifulSoup : string -> list Soup.node)
    (json_loads : string -> exn + json) (str_of : json -> string)
    (email : string) (w : W) :
  exists r w',
    Verification.perform_email_verification world gear config BeautifulSoup
      json_loads str_of email w = (inr r, w') /\
    if Verification.verified r
    then
      Verification.verify_error r = None /\
      (exists inp w1 w2,
         AuthRest.clear_and_type world gear inp email 30 3 true w1 = (inr true, w2)) /\
      (exists code w1 w2 w3 w4,
         GeminiAuthHelper.get_verification_code world config BeautifulSoup
           json_loads email 60 JNull w1 = (inr (Some code), w2) /\
         PyJson.truthy code = true /\
         GeminiAuthHelper.fill_verification_code world (str_of code) w3
         = (inr true, w4))
    else Verification.verify_error r <> None.
Proof.
  unfold Verification.perform_email_verification.
  match goal with
  | |- context [Run.try_except ?m ?h w] =>
      destruct (try_except_returns m h w) as (r & w' & E);
        [intros e w1; eexists; eexists; reflexivity|]
  end.
  exists r, w'. split; [exact E|].
  apply try_except_cases in E. destruct E as [E | (e & w1 & _ & E)].
  2:{ apply ret_inr in E. destruct E as [-> _]. cbn [Verification.verified Verification.refused Verification.verify_error]. discriminate. }
  apply bind_inr in E. destruct E as (inp & wa & _ & E).
  destruct inp as [inp|];
    [|apply ret_inr in E; destruct E as [-> _]; cbn [Verification.verified Verification.refused Verification.verify_error]; discriminate].
  apply bind_inr in E. destruct E as (typed & wb & Htyped & E).
  destruct typed; cbn [negb] in E;
    [|apply ret_inr in E; destruct E as [-> _]; cbn [Verification.verified Verification.refused Verification.verify_error]; discriminate].
  rewrite sleep_step in E.
  apply bind_inr in E. destruct E as (continued & wc & _ & E).
  destruct continued; cbn [negb] in E;
    [|apply ret_inr in E; destruct E as [-> _]; cbn [Verification.verified Verification.refused Verification.verify_error]; discriminate].
  rewrite sleep_step in E.
  apply bind_inr in E. destruct E as (? & wd & _ & E).
  rewrite sleep_step in E.
  apply bind_inr in E. destruct E as (code & we & Hcode & E).
  destruct code as [code|];
    [|apply ret_inr in E; destruct E as [-> _]; cbn [Verification.verified Verification.refused Verification.verify_error]; discriminate].
  destruct (PyJson.truthy code) eqn:Ht; cbn [negb] in E;
    [|apply ret_inr in E; destruct E as [-> _]; cbn [Verification.verified Verification.refused Verification.verify_error]; discriminate].
  rewrite sleep_step in E.
  apply bind_inr in E. destruct E as (? & wf & _ & E).
  apply bind_inr in E. destruct E as (filled & wg & Hfilled & E).
  destruct filled; cbn [negb] in E;
    [|apply ret_inr in E; destruct E as [-> _]; cbn [Verification.verified Verification.refused Verification.verify_error]; discriminate].
  apply bind_inr in E. destruct E as (? & wh & _ & E).
  rewrite sleep_step in E.
  apply bind_inr in E. destruct E as (? & wi & _ & E).
  apply ret_inr in E. destruct E as [-> _]. cbn [Verification.verified Verification.verify_error].
  split; [reflexivity|]. split; [eauto|].
  exists code. eauto 10.
Qed.

(** X22.  perform_email_verification never raises.  When it reports
    success it has typed the address into the input with the reading
    confirmed, has been handed a non-empty code by get_verification_code,
    and fill_verification_code has answered True for that code; the result
    then carries no error.  Every other result carries an error text. *)
Theorem verification_success_means_typed_fetched_filled
    {W : Type} (world : World W) (gear : Gear W)
    (config : GeminiAuthHelper.GeminiAuthConfig)
    (BeautifulSoup : string -> list Soup.node)
    (json_loads : string -> exn + json) (str_of : json -> string)
    (email : string) (w : W) :
  exists r w',
    Verification.perform_email_verification world gear config BeautifulSoup
      json_loads str_of email w = (inr r, w') /\
    if Verification.verified r
    then
      Verification.verify_error r = None /\
      (exists inp w1 w2,
         AuthRest.clear_and_type world gear inp email 30 3 true w1 = (inr true, w2)) /\
      (exists code w1 w2 w3 w4,
         GeminiAuthHelper.get_verification_code world config BeautifulSoup
           json_loads email 60 JNull w1 = (inr (Some code), w2) /\
         PyJson.truthy code = true /\
         GeminiAuthHelper.fill_verification_code world (str_of code) w3
         = (inr true, w4))
    else Verification.verify_error r <> None.
Proof. apply verification_cases. Qed.


(** ** One registration *)

Section InnerFacts.
Import Run GeminiAuthHelper AuthRest Verification RegisterService RegisterInner.
Context {W : Type}.
Variable world : World W.
Variable gear : Gear W.
Variable config : GeminiAuthConfig.
Variable BeautifulSoup : string -> list Soup.node.
Variable json_loads : string -> exn + json.
Variable utcoffset : Z -> Z.
Variable csesidx_of : string -> option string.
Variable str_of : json -> string.

Lemma get_email_returns s w :
  exists r w', RegisterRest._get_email world gear config s w = (inr r, w').
Proof.
  unfold RegisterRest._get_email. destruct (_email_queue s) as [|e q].
  - destruct (create_email_cases world gear config (_specified_domain s) w)
      as (r & w' & E & _).
    rewrite (bind_step _ _ _ _ _ E). eexists; eexists; reflexivity.
  - eexists; eexists; reflexivity.
Qed.

(** The browser part stops only with an error text. *)
Lemma browser_flow_stop email w error w' :
  browser_flow world gear config BeautifulSoup json_loads utcoffset csesidx_of
    str_of email w = (inr (Stop error), w') ->
  error <> None.
Proof.
  unfold browser_flow. intros E.
  apply bind_inr in E. destruct E as (? & wa & _ & E).
  rewrite sleep_step in E.
  apply bind_inr in E. destruct E as (vr & wb & Hv & E).
  destruct (verified vr) eqn:Hvr; cbn [negb] in E.
  2:{ apply ret_inr in E. destruct E as [E _]. inversion E; subst.
      destruct (verification_cases world gear config BeautifulSoup json_loads
                  str_of email (time_sleep world 2000 wa)) as (r & w1 & E1 & Hr).
      rewrite Hv in E1. inversion E1; subst. rewrite Hvr in Hr. exact Hr. }
  rewrite sleep_step in E.
  apply bind_inr in E. destruct E as (name_inp & wc & _ & E).
  apply bind_inr in E. destruct E as (shown & wd & _ & E).
  destruct name_inp as [name_inp|];
    [|apply ret_inr in E; destruct E as [E _]; inversion E; discriminate].
  destruct shown;
    [|apply ret_inr in E; destruct E as [E _]; inversion E; discriminate].
  apply bind_inr in E. destruct E as (name & we & _ & E).
  apply bind_inr in E. destruct E as (typed & wf & _ & E).
  destruct typed; cbn [negb] in E;
    [|apply ret_inr in E; destruct E as [E _]; inversion E; discriminate].
  rewrite sleep_step in E.
  apply bind_inr in E. destruct E as (? & wg & _ & E).
  rewrite sleep_step in E.
  apply bind_inr in E. destruct E as (? & wh & _ & E).
  apply bind_inr in E. destruct E as (arrived & wi & _ & E).
  destruct arrived; cbn [negb] in E;
    [|apply ret_inr in E; destruct E as [E _]; inversion E; discriminate].
  apply bind_inr in E. destruct E as (config_data & wj & _ & E).
  destruct config_data as [data|];
    apply ret_inr in E; destruct E as [E _]; inversion E; discriminate.
Qed.

(** What [conclude] makes of a stage whose stop carries an error text. *)
Lemma conclude_cases email st d :
  (forall error, st = Stop error -> error <> None) ->
  let (r, d') := conclude email st d in
  if success r
  then RegisterService.email r = Some email /\ error r = None /\
       exists c l, RegisterService.config r = Some c /\ cfg_id c = email /\
         Accounts.load_accounts (Accounts.accounts_file d) = JList l /\
         Accounts.accounts_file d'
         = Accounts.Holds (inr (JList (l ++ [Accounts.to_json c])))
  else RegisterService.config r = None /\ error r <> None /\
       (d' = d \/
        exists e, Accounts.write_raises d = Some (Accounts.DumpFails e) /\
          error r = Some (str_exn e) /\
          d' = Accounts.set_file d (Accounts.Holds (inl Accounts.CUT_SHORT))).
Proof.
  intros Hstop. unfold conclude. destruct st as [err|data].
  - cbn. split; [reflexivity|]. split; [|left; reflexivity].
    apply Hstop. reflexivity.
  - unfold Accounts._save_config.
    destruct (Accounts.mkdir_raises d);
      [cbn; split; [reflexivity|]; split; [discriminate|left; reflexivity]|].
    destruct (Accounts.load_accounts (Accounts.accounts_file d)) eqn:El;
      cbn [Accounts.append];
      try (cbn; split; [reflexivity|]; split; [discriminate|left; reflexivity]).
    destruct (Accounts.write_raises d) as [[e|e]|] eqn:Ew.
    + cbn. split; [reflexivity|]. split; [discriminate|left; reflexivity].
    + cbn. split; [reflexivity|]. split; [discriminate|].
      right. exists e. auto.
    + cbn. split; [reflexivity|]. split; [reflexivity|].
      eexists; eexists. repeat split.
Qed.

End InnerFacts.

(** X23.  _register_one_sync_inner lets out no exception but one raised by
    its imports that is not an ImportError.  A result with success set
    names the address, carries no error, and its config is the record that
    the call has just appended to the accounts file under that address as
    id.  Any other result carries no config and an error text; the call has
    then left the disk as it was, unless json.dump failed after the open had
    emptied the accounts file: then the result carries the text of that
    failure, and the file is left empty or cut short, the records it held
    gone. *)
Theorem registration_is_saved_or_explained
    {W : Type} (world : World W) (gear : Gear W)
    (config : GeminiAuthHelper.GeminiAuthConfig)
    (BeautifulSoup : string -> list Soup.node)
    (json_loads : string -> exn + json)
    (utcoffset : Z -> Z) (csesidx_of : string -> option string)
    (str_of : json -> string)
    (s : RS.Service) (d : Accounts.disk) (w : W) :
  match RegisterInner._register_one_sync_inner world gear config BeautifulSoup
          json_loads utcoffset csesidx_of str_of s d w with
  | (inr (r, _, d'), _) =>
      if RS.success r
      then exists e c l,
             RS.email r = Some e /\ RS.error r = None /\
             RS.config r = Some c /\ RS.cfg_id c = e /\
             Accounts.load_accounts (Accounts.accounts_file d) = JList l /\
             Accounts.accounts_file d'
             = Accounts.Holds (inr (JList (l ++ [Accounts.to_json c])))
      else RS.config r = None /\ RS.error r <> None /\
           (d' = d \/
            exists e, Accounts.write_raises d = Some (Accounts.DumpFails e) /\
              RS.error r = Some (str_exn e) /\
              d' = Accounts.set_file d (Accounts.Holds (inl Accounts.CUT_SHORT)))
  | (inl e, _) =>
      RegisterInner.is_import_error e = false /\
      exists w1 w2, import_selenium gear w1 = (inl e, w2)
  end.
Proof.
  unfold RegisterInner._register_one_sync_inner.
  unfold Run.try_except at 1. unfold Run.bind at 1. unfold Run.bind at 1.
  destruct (import_selenium gear w) as [[e|[]] w1] eqn:Ei.
  - destruct (RegisterInner.is_import_error e) eqn:Hie.
    + cbn. split; [reflexivity|]. split; [discriminate|left; reflexivity].
    + unfold Run.raise. split; [exact Hie|eauto].
  - cbv beta iota delta [Run.ret].
    destruct (get_email_returns world gear config s w1) as ([address s1] & w2 & Eg).
    rewrite (bind_step _ _ _ _ _ Eg). cbn [fst snd].
    destruct address as [address|]; [|cbn; split; [reflexivity|]; split; [discriminate|left; reflexivity]].
    destruct (PyJson.truthy address); cbn [negb];
      [|cbn; split; [reflexivity|]; split; [discriminate|left; reflexivity]].
    match goal with
    | |- context [Run.bind (Run.try_except ?m ?h)] =>
        destruct (try_except_returns m h w2) as (started & w3 & Es);
          [intros e0 w0; eexists; eexists; reflexivity|]
    end.
    rewrite (bind_step _ _ _ _ _ Es).
    destruct started as [e|]; [cbn; split; [reflexivity|]; split; [discriminate|left; reflexivity]|].
    match goal with
    | |- context [Run.bind (Run.try_except ?m ?h)] =>
        destruct (try_except_returns m h w3) as (st & w4 & Eb);
          [intros e0 w0; eexists; eexists; reflexivity|]
    end.
    rewrite (bind_step _ _ _ _ _ Eb).
    destruct (attempt_returns (quit gear) w4) as (w5 & Eq).
    rewrite (bind_step _ _ _ _ _ Eq).
    pose proof (conclude_cases (str_of address) st d) as Hc.
    destruct (RegisterInner.conclude (str_of address) st d) as [r d'].
    cbv beta iota delta [Run.ret].
    assert (Hstop : forall error, st = RegisterInner.Stop error -> error <> None).
    { intros error ->. apply try_except_cases in Eb.
      destruct Eb as [Eb | (e0 & w0 & _ & Eb)].
      - eapply browser_flow_stop. exact Eb.
      - apply ret_inr in Eb. destruct Eb as [Eb _]. inversion Eb. discriminate. }
    specialize (Hc Hstop).
    destruct (RS.success r).
    + destruct Hc as (He & Herr & c & l & Hcfg & Hid & Hl & Hf).
      exists (str_of address), c, l. auto 10.
    + exact Hc.
Qed.

(** The same registration on a full disk: it is reported as failed, and the
    two records that were on file are gone. *)
Example failed_write_empties_the_file :
  fst (RegisterInner._register_one_sync_inner HappyPath.world HappyPath.gear
         InboxSamples.config MailSamples.text_parser InboxSamples.json_loads
         CookieSamples.utc CookieSamples.csesidx_of HappyPath.text_of
         (GearSamples.queued ["u1@mail.test"]) Accounts.full_disk HappyPath.start)
  = inr (RegisterInner.failure (Some "u1@mail.test")
           (Some "No space left on device"),
         GearSamples.queued [],
         Accounts.set_file Accounts.full_disk
           (Accounts.Holds (inl Accounts.CUT_SHORT))).
Proof. vm_compute. reflexivity. Qed.

(** A registration that goes through: the queued address is used, and the
    returned config is the one record of the accounts file. *)
Example registration_goes_through :
  fst (RegisterInner._register_one_sync_inner HappyPath.world HappyPath.gear
         InboxSamples.config MailSamples.text_parser InboxSamples.json_loads
         CookieSamples.utc CookieSamples.csesidx_of HappyPath.text_of
         (GearSamples.queued ["u1@mail.test"]) Accounts.fresh HappyPath.start)
  = inr (RS.mkAttemptResult (Some "u1@mail.test") true
           (Some (Accounts.saved_config "u1@mail.test" CookieSamples.expected_config))
           None,
         GearSamples.queued [],
         Accounts.set_file Accounts.fresh
           (Accounts.Holds
              (inr (JList [Accounts.record_of "u1@mail.test"
                             CookieSamples.expected_config])))).
Proof. vm_compute. reflexivity. Qed.

(** ** Recovery in a new tab *)

Section RecoveryFacts.
Import Run GeminiAuthHelper.

Lemma str_in_spec h l : str_in h l = true <-> In h l.
Proof.
  unfold str_in. rewrite existsb_exists. split.
  - intros (x & Hin & Hx). apply String.eqb_eq in Hx. subst. exact Hin.
  - intros Hin. exists h. split; [exact Hin|apply String.eqb_refl].
Qed.

Lemma first_new_spec new_handles original_handles h :
  first_new new_handles original_handles = Some h ->
  In h new_handles /\ ~ In h original_handles.
Proof.
  induction new_handles as [|x rest IH]; cbn [first_new]; [discriminate|].
  destruct (str_in x original_handles) eqn:Hx; cbn [negb].
  - intros H. destruct (IH H) as [Hin Hout]. split; [right; exact Hin|exact Hout].
  - intros H. inversion H; subst. split; [left; reflexivity|].
    intros Hin. apply str_in_spec in Hin. congruence.
Qed.

End RecoveryFacts.

(** X24.  _recover_from_crash never raises, and it answers True only after
    it has loaded the target address in a window whose handle is listed
    after window.open and was not listed before it: a window that was open
    at the crash is never the one reused. *)
Theorem recovery_uses_a_new_window
    {W : Type} (world : World W) (target_url : string) (w : W) :
  exists b w',
    GeminiAuthHelper._recover_from_crash world target_url w = (inr b, w') /\
    (b = true ->
     exists original_handles w1 new_handles w2 w3 handle w4 w5 w6,
       window_handles world w = (inr original_handles, w1) /\
       window_handles world w2 = (inr new_handles, w3) /\
       In handle new_handles /\ ~ In handle original_handles /\
       switch_to_window world handle w4 = (inr tt, w5) /\
       get world target_url w5 = (inr tt, w6) /\
       w' = time_sleep world 3000 w6).
Proof.
  unfold GeminiAuthHelper._recover_from_crash.
  match goal with
  | |- context [Run.try_except ?m ?h w] =>
      destruct (try_except_returns m h w) as (b & w' & E);
        [intros e w1; eexists; eexists; reflexivity|]
  end.
  exists b, w'. split; [exact E|]. intros ->.
  apply try_except_cases in E. destruct E as [E | (e & w1 & _ & E)];
    [|apply ret_inr in E; destruct E; discriminate].
  apply bind_inr in E. destruct E as (original_handles & w1 & Ho & E).
  apply bind_inr in E. destruct E as (? & w2 & _ & E).
  rewrite sleep_step in E.
  apply bind_inr in E. destruct E as (new_handles & w3 & Hn & E).
  destruct (GeminiAuthHelper.first_new new_handles original_handles)
    as [handle|] eqn:Hf; [|apply ret_inr in E; destruct E; discriminate].
  destruct (negb (PyStr.truthy handle));
    [apply ret_inr in E; destruct E; discriminate|].
  apply bind_inr in E. destruct E as (? & w4 & _ & E).
  apply bind_inr in E. destruct E as (? & w5 & _ & E).
  apply bind_inr in E. destruct E as ([] & w6 & Hs & E).
  apply bind_inr in E. destruct E as ([] & w7 & Hg & E).
  rewrite sleep_step in E. apply ret_inr in E. destruct E as [_ ->].
  apply first_new_spec in Hf. destruct Hf as [Hin Hout].
  exists original_handles, w1, new_handles, (time_sleep world 500 w2), w3,
    handle, w5, w6, w7.
  repeat split; try assumption.
Qed.

(** On the stub browser the recovery goes through. *)
Example recovery_goes_through :
  fst (GeminiAuthHelper._recover_from_crash BrowserSamples.world
         GeminiAuthHelper.workspace_url (Stub.browser [] [])) = inr true.
Proof. vm_compute. reflexivity. Qed.

(** ** Giving up takes the whole timeout *)

Section ClockFacts.
Import Run Clock GeminiAuthHelper.
Context {W : Type}.
Variable world : World W.
Hypothesis Hsleep : sleeps_advance world.

Lemma steady_ret {A : Type} (a : A) : steady world (ret a).
Proof. intros w r w' H. inversion H. lia. Qed.

Lemma steady_lift {A : Type} (x : exn + A) : steady world (lift x).
Proof. intros w r w' H. destruct x; inversion H; lia. Qed.

Lemma steady_read {A : Type} (f : W -> A) : steady world (read f).
Proof. intros w r w' H. inversion H. lia. Qed.

Lemma steady_bind {A B : Type} (m : M W A) (k : A -> M W B) :
  steady world m -> (forall a, steady world (k a)) -> steady world (bind m k).
Proof.
  intros Hm Hk w r w' H. unfold bind in H.
  destruct (m w) as [[e|a] w1] eqn:E.
  - inversion H; subst. eapply Hm. exact E.
  - apply Hm in E. apply Hk in H. lia.
Qed.

Lemma steady_try_except {A : Type} (m : M W A) (h : exn -> M W A) :
  steady world m -> (forall e, steady world (h e)) -> steady world (try_except m h).
Proof.
  intros Hm Hh w r w' H. unfold try_except in H.
  destruct (m w) as [[e|a] w1] eqn:E.
  - apply Hm in E. apply Hh in H. lia.
  - inversion H; subst. eapply Hm. exact E.
Qed.

Lemma steady_attempt (m : M W unit) : steady world m -> steady world (attempt m).
Proof. intros Hm. apply steady_try_except; [exact Hm|intros e; apply steady_ret]. Qed.

Lemma steady_sleep ms : 0 <= ms -> steady world (sleep world ms).
Proof.
  intros Hms w r w' H. unfold sleep, effect in H. inversion H; subst.
  rewrite Hsleep. lia.
Qed.

Lemma steady_if {A : Type} (b : bool) (m1 m2 : M W A) :
  steady world m1 -> steady world m2 -> steady world (if b then m1 else m2).
Proof. destruct b; auto. Qed.

(** A deadline loop whose rounds sleep for [step] when they go on gives
    [None] only once the deadline has passed. *)
Lemma while_before_none_late {A : Type} (body : M W (option A)) step start timeout :
  0 < step ->
  (forall w w', body w = (inr None, w') ->
     time_time world w + step <= time_time world w') ->
  forall fuel w w',
    start + timeout - time_time world w < step * Z.of_nat fuel ->
    while_before (time_time world) fuel start timeout body w = (inr None, w') ->
    timeout <= time_time world w' - start.
Proof.
  intros Hstep Hround. induction fuel as [|fuel IH]; intros w w' Hfuel H.
  - cbn in H. inversion H; subst. lia.
  - cbn [while_before] in H.
    destruct (Z.ltb_spec (time_time world w - start) timeout) as [Hlt|Hge].
    + unfold bind in H. destruct (body w) as [[e|[a|]] w1] eqn:E;
        try discriminate.
      apply Hround in E. apply (IH w1 w'); [nia|exact H].
    + inversion H; subst. lia.
Qed.

Lemma rounds_cover step timeout :
  0 < step -> timeout < step * Z.of_nat (rounds timeout step).
Proof.
  intros Hstep. unfold rounds.
  destruct (Z.le_gt_cases 0 timeout) as [Hpos|Hneg].
  - rewrite Nat2Z.inj_add, Z2Nat.id by (apply Z.div_pos; lia).
    pose proof (Z.mul_succ_div_gt timeout step Hstep). lia.
  - assert (timeout / step < 0) by (apply Z.div_lt_upper_bound; lia).
    destruct (timeout / step) eqn:Hq; lia.
Qed.

End ClockFacts.

Section PollingClock.
Import Run Clock GeminiAuthHelper.
Context {W : Type}.
Variable world : World W.
Variable config : GeminiAuthConfig.
Variable BeautifulSoup : string -> list Soup.node.
Variable json_loads : string -> exn + json.
Hypothesis Hsleep : sleeps_advance world.
Hypothesis Hget : forall url params headers,
  steady world (requests_get world url params headers).

Lemma steady_capture_baseline email old_email_id :
  steady world (capture_baseline world config email old_email_id).
Proof.
  unfold capture_baseline.
  destruct old_email_id; try apply steady_ret.
  apply steady_try_except; [|intros e; apply steady_ret].
  apply steady_bind; [apply Hget|]. intros r.
  apply steady_if; [|apply steady_ret].
  apply steady_bind; [apply steady_lift|]. intros data.
  apply steady_bind; [apply steady_lift|]. intros emails.
  apply steady_if; [|apply steady_ret].
  apply steady_bind; [apply steady_lift|]. intros first. apply steady_lift.
Qed.

Lemma steady_poll_api_emails email old_email_id :
  steady world (poll_api_emails world config BeautifulSoup email old_email_id).
Proof.
  unfold poll_api_emails.
  apply steady_bind; [apply Hget|]. intros r.
  apply steady_if; [|apply steady_ret].
  apply steady_bind; [apply steady_lift|]. intros data.
  apply steady_bind; [apply steady_lift|]. intros emails.
  apply steady_if; [|apply steady_ret].
  apply steady_bind; [apply steady_lift|]. intros latest.
  apply steady_bind; [apply steady_lift|]. intros new_id.
  apply steady_if.
  - apply steady_bind; [apply steady_sleep; [exact Hsleep|lia]|].
    intros _. apply steady_ret.
  - apply steady_bind; [apply steady_lift|]. intros content.
    apply steady_bind; [apply steady_lift|]. intros code.
    destruct code as [c|]; [|apply steady_ret].
    apply steady_if; apply steady_ret.
Qed.

Lemma poll_api_emails_continue_slept email old_email_id w w' :
  poll_api_emails world config BeautifulSoup email old_email_id w
  = (inr Continue, w') ->
  time_time world w + 2000 <= time_time world w'.
Proof.
  unfold poll_api_emails. intros E.
  apply bind_inr in E. destruct E as (r & w1 & Hr & E). apply Hget in Hr.
  destruct (status_code r =? 200);
    [|apply ret_inr in E; destruct E; discriminate].
  apply bind_inr in E. destruct E as (data & w2 & Hl & E).
  apply lift_inr in Hl. destruct Hl as [_ ->].
  apply bind_inr in E. destruct E as (emails & w2 & Hl & E).
  apply lift_inr in Hl. destruct Hl as [_ ->].
  destruct (PyJson.truthy emails);
    [|apply ret_inr in E; destruct E; discriminate].
  apply bind_inr in E. destruct E as (latest & w2 & Hl & E).
  apply lift_inr in Hl. destruct Hl as [_ ->].
  apply bind_inr in E. destruct E as (new_id & w2 & Hl & E).
  apply lift_inr in Hl. destruct Hl as [_ ->].
  destruct (PyJson.truthy old_email_id && PyJson.eq new_id old_email_id).
  - rewrite sleep_step in E. apply ret_inr in E. destruct E as [_ ->].
    rewrite Hsleep. lia.
  - apply bind_inr in E. destruct E as (content & w2 & Hl & E).
    apply bind_inr in E. destruct E as (code & w3 & Hl2 & E).
    destruct code as [c|]; [destruct (PyStr.truthy c)|];
      apply ret_inr in E; destruct E; discriminate.
Qed.

Lemma steady_poll_admin_mails email :
  steady world (poll_admin_mails world config json_loads email).
Proof.
  unfold poll_admin_mails.
  apply steady_bind; [apply Hget|]. intros r.
  apply steady_if; [|apply steady_ret].
  apply steady_bind; [apply steady_lift|]. intros data.
  apply steady_bind; [apply steady_lift|]. intros results.
  apply steady_bind; [apply steady_lift|]. intros mails. apply steady_lift.
Qed.

(** A round that hands out no code has slept two seconds. *)
Lemma poll_round_slept email old_email_id w w' :
  poll_round world config BeautifulSoup json_loads email old_email_id w
  = (inr None, w') ->
  time_time world w + 2000 <= time_time world w'.
Proof.
  unfold poll_round. intros E.
  apply bind_inr in E. destruct E as (way1 & w1 & H1 & E).
  destruct way1 as [code| |].
  - apply ret_inr in E. destruct E; discriminate.
  - apply ret_inr in E. destruct E as [_ ->].
    apply try_except_cases in H1. destruct H1 as [H1 | (e & w0 & _ & H1)].
    + eapply poll_api_emails_continue_slept. exact H1.
    + apply ret_inr in H1. destruct H1; discriminate.
  - assert (Hs1 : time_time world w <= time_time world w1).
    { revert H1. apply steady_try_except;
        [apply steady_poll_api_emails|intros e; apply steady_ret]. }
    apply bind_inr in E. destruct E as (way2 & w2 & H2 & E).
    assert (Hs2 : time_time world w1 <= time_time world w2).
    { revert H2. apply steady_try_except;
        [apply steady_poll_admin_mails|intros e; apply steady_ret]. }
    destruct way2 as [code|]; [apply ret_inr in E; destruct E; discriminate|].
    rewrite sleep_step in E. apply ret_inr in E. destruct E as [_ ->].
    rewrite Hsleep. lia.
Qed.

End PollingClock.

(** X25.  get_verification_code gives up only when its time is over: with a
    clock that sleeping moves on and that no request sets back, a call that
    returns None has taken at least the timeout. *)
Theorem no_code_only_after_timeout
    {W : Type} (world : World W) (config : GeminiAuthHelper.GeminiAuthConfig)
    (BeautifulSoup : string -> list Soup.node)
    (json_loads : string -> exn + json)
    (email : string) (timeout : Z) (old_email_id : json) (w w' : W) :
  Clock.sleeps_advance world ->
  (forall url params headers,
     Clock.steady world (requests_get world url params headers)) ->
  GeminiAuthHelper.get_verification_code world config BeautifulSoup json_loads
    email timeout old_email_id w = (inr None, w') ->
  1000 * timeout <= time_time world w' - time_time world w.
Proof.
  intros Hsleep Hget E. unfold GeminiAuthHelper.get_verification_code in E.
  apply bind_inr in E. destruct E as (start & w0 & Hstart & E).
  inversion Hstart; subst. clear Hstart.
  apply bind_inr in E. destruct E as (baseline & w1 & Hb & E).
  apply (steady_capture_baseline world config Hget) in Hb.
  eapply (while_before_none_late world _ 2000) in E.
  - exact E.
  - lia.
  - intros w2 w3. apply poll_round_slept; assumption.
  - pose proof (rounds_cover 2000 (1000 * timeout)). lia.
Qed.

Lemma no_code_only_after_timeout_witness :
  1000 * 60 <=
  time_time BrowserSamples.world
    (snd (GeminiAuthHelper.get_verification_code BrowserSamples.world
            InboxSamples.config MailSamples.text_parser InboxSamples.json_loads
            "u1@mail.test" 60 JNull (Stub.browser [] [])))
  - time_time BrowserSamples.world (Stub.browser [] []).
Proof.
  apply (no_code_only_after_timeout BrowserSamples.world InboxSamples.config
           MailSamples.text_parser InboxSamples.json_loads "u1@mail.test" 60 JNull).
  - intros ms w. reflexivity.
  - intros url params headers w r w' H. cbn in H.
    destruct (PyStr.contains "/api/emails" url); inversion H; lia.
  - vm_compute. reflexivity.
Defined.

Section HarvestClock.
Import Run Clock GeminiAuthHelper AuthRest.
Context {W : Type}.
Variable world : World W.
Variable gear : Gear W.
Hypothesis Hsleep : sleeps_advance world.

Lemma steady_try_button allow deny skip_blank b :
  steady world (is_displayed gear b) -> steady world (is_enabled gear b) ->
  steady world (text gear b) ->
  (forall js args, steady world (execute_script world js args)) ->
  steady world (try_button world gear allow deny skip_blank b).
Proof.
  intros Hd He Ht Hx. unfold try_button.
  apply steady_try_except; [|intros e; apply steady_ret].
  apply steady_bind; [exact Hd|]. intros shown.
  apply steady_if; [apply steady_ret|].
  apply steady_bind; [exact He|]. intros enabled.
  apply steady_if; [apply steady_ret|].
  apply steady_bind.
  { unfold label. apply steady_bind; [exact Ht|]. intros t. apply steady_ret. }
  intros t. apply steady_if; [apply steady_ret|].
  apply steady_if; [apply steady_ret|].
  apply steady_if; [|apply steady_ret].
  apply steady_bind; [apply Hx|]. intros _. apply steady_ret.
Qed.

Lemma steady_scan (find : M W (list string)) allow deny skip_blank :
  steady world find ->
  (forall b, steady world (is_displayed gear b)) ->
  (forall b, steady world (is_enabled gear b)) ->
  (forall b, steady world (text gear b)) ->
  (forall js args, steady world (execute_script world js args)) ->
  steady world (scan world gear find allow deny skip_blank).
Proof.
  intros Hf Hd He Ht Hx. unfold scan.
  apply steady_try_except; [|intros e; apply steady_ret].
  apply steady_bind; [exact Hf|]. intros buttons.
  induction buttons as [|b buttons IH]; cbn [try_buttons]; [apply steady_ret|].
  apply steady_bind; [apply steady_try_button; auto|].
  intros clicked. apply steady_if; [apply steady_ret|exact IH].
Qed.

(** A deadline loop that answers False has run out its time. *)
Lemma until_deadline_false_late timeout (body : M W (option bool)) w w' :
  (forall w0 w1, body w0 = (inr None, w1) ->
     time_time world w0 + 200 <= time_time world w1) ->
  (forall w0 w1, body w0 <> (inr (Some false), w1)) ->
  until_deadline world timeout body w = (inr false, w') ->
  1000 * timeout <= time_time world w' - time_time world w.
Proof.
  intros Hround Hnever E. unfold until_deadline in E.
  apply bind_inr in E. destruct E as (start & w0 & Hstart & E).
  inversion Hstart; subst. clear Hstart.
  apply bind_inr in E. destruct E as (r & w1 & Hloop & E).
  apply ret_inr in E. destruct E as [Hr ->].
  destruct r as [b|].
  - subst b. apply while_before_some in Hloop. destruct Hloop as (w2 & Hloop).
    exfalso. eapply Hnever. exact Hloop.
  - eapply (while_before_none_late world _ 200) in Hloop.
    + exact Hloop.
    + lia.
    + exact Hround.
    + pose proof (rounds_cover 200 (1000 * timeout)). lia.
Qed.

End HarvestClock.

(** X26.  extract_config_from_driver gives up only when its time is over:
    with a clock that sleeping moves on and that the driver does not set
    back, a call that returns None has taken at least the timeout. *)
Theorem no_config_only_after_timeout
    {W : Type} (world : World W) (utcoffset : Z -> Z)
    (csesidx_of : string -> option string)
    (email : string) (timeout : Z) (w w' : W) :
  Clock.sleeps_advance world ->
  Clock.steady world (current_url world) ->
  Clock.steady world (get_cookies world) ->
  GeminiAuthHelper.extract_config_from_driver world utcoffset csesidx_of
    email timeout w = (inr None, w') ->
  1000 * timeout <= time_time world w' - time_time world w.
Proof.
  intros Hsleep Hurl Hjar E. unfold GeminiAuthHelper.extract_config_from_driver in E.
  apply bind_inr in E. destruct E as (start & w0 & Hstart & E).
  inversion Hstart; subst. clear Hstart.
  apply bind_inr in E. destruct E as (found & w1 & Hloop & E).
  destruct found as [cfg|]; [apply ret_inr in E; destruct E; discriminate|].
  apply bind_inr in E. destruct E as (? & w2 & H2 & E). apply Hurl in H2.
  apply bind_inr in E. destruct E as (? & w3 & H3 & E). apply Hjar in H3.
  apply ret_inr in E. destruct E as [_ ->].
  eapply (while_before_none_late world _ 500) in Hloop.
  - lia.
  - lia.
  - intros wa wb Hbody.
    apply bind_inr in Hbody. destruct Hbody as (url & wc & Hc & Hbody).
    apply Hurl in Hc.
    apply bind_inr in Hbody. destruct Hbody as (cookies & wd & Hd & Hbody).
    apply Hjar in Hd.
    apply bind_inr in Hbody. destruct Hbody as (r & we & Hl & Hbody).
    apply lift_inr in Hl. destruct Hl as [_ ->].
    destruct r as [cfg|]; [apply ret_inr in Hbody; destruct Hbody; discriminate|].
    rewrite sleep_step in Hbody. apply ret_inr in Hbody.
    destruct Hbody as [_ ->]. rewrite Hsleep. lia.
  - pose proof (rounds_cover 500 (1000 * timeout)). lia.
Qed.

Lemma no_config_only_after_timeout_witness :
  1000 * 15 <=
  time_time BrowserSamples.world
    (snd (GeminiAuthHelper.extract_config_from_driver BrowserSamples.world
            CookieSamples.utc CookieSamples.csesidx_of "u1@mail.test" 15
            (Stub.browser [] [])))
  - time_time BrowserSamples.world (Stub.browser [] []).
Proof.
  apply (no_config_only_after_timeout BrowserSamples.world CookieSamples.utc
           CookieSamples.csesidx_of "u1@mail.test" 15).
  - intros ms w. reflexivity.
  - intros w r w' H. cbn in H. unfold Stub.driver_call in H.
    destruct (Stub.alive w); inversion H; lia.
  - intros w r w' H. cbn in H. unfold Stub.driver_call in H.
    destruct (Stub.alive w); inversion H; lia.
  - vm_compute. reflexivity.
Defined.

(** X27.  click_verify_only and click_primary_action give up only when
    their time is over: with a clock that sleeping moves on and that the
    driver does not set back, a call that answers False has taken at least
    the timeout. *)
Theorem no_click_only_after_timeout
    {W : Type} (world : World W) (gear : Gear W) (timeout : Z) (w w' : W) :
  Clock.sleeps_advance world ->
  (forall sel, Clock.steady world (find_elements world sel)) ->
  (forall tag, Clock.steady world (find_by_tag gear tag)) ->
  (forall b, Clock.steady world (is_displayed gear b)) ->
  (forall b, Clock.steady world (is_enabled gear b)) ->
  (forall b, Clock.steady world (text gear b)) ->
  (forall js args, Clock.steady world (execute_script world js args)) ->
  (AuthRest.click_verify_only world gear timeout w = (inr false, w') ->
   1000 * timeout <= time_time world w' - time_time world w) /\
  (AuthRest.click_primary_action world gear timeout w = (inr false, w') ->
   1000 * timeout <= time_time world w' - time_time world w).
Proof.
  intros Hsleep Hfind Htag Hd He Ht Hx. split; intros E.
  - unfold AuthRest.click_verify_only in E.
    eapply until_deadline_false_late; [ | |exact E].
    + intros w0 w1 Hbody.
      apply bind_inr in Hbody. destruct Hbody as (any & w2 & Hs & Hbody).
      apply (steady_scan world gear) in Hs; auto.
      destruct any; [apply ret_inr in Hbody; destruct Hbody; discriminate|].
      rewrite sleep_step in Hbody. apply ret_inr in Hbody.
      destruct Hbody as [_ ->]. rewrite Hsleep. lia.
    + intros w0 w1 Hbody.
      apply bind_inr in Hbody. destruct Hbody as (any & w2 & Hs & Hbody).
      destruct any; [|rewrite sleep_step in Hbody];
        apply ret_inr in Hbody; destruct Hbody; discriminate.
  - unfold AuthRest.click_primary_action in E.
    eapply until_deadline_false_late; [ | |exact E].
    + intros w0 w1 Hbody.
      apply bind_inr in Hbody. destruct Hbody as (submit & w2 & Hs & Hbody).
      apply (steady_scan world gear) in Hs; auto.
      destruct submit; [apply ret_inr in Hbody; destruct Hbody; discriminate|].
      apply bind_inr in Hbody. destruct Hbody as (any & w3 & Hs2 & Hbody).
      apply (steady_scan world gear) in Hs2; auto.
      destruct any; [apply ret_inr in Hbody; destruct Hbody; discriminate|].
      rewrite sleep_step in Hbody. apply ret_inr in Hbody.
      destruct Hbody as [_ ->]. rewrite Hsleep. lia.
    + intros w0 w1 Hbody.
      apply bind_inr in Hbody. destruct Hbody as (submit & w2 & Hs & Hbody).
      destruct submit; [apply ret_inr in Hbody; destruct Hbody; discriminate|].
      apply bind_inr in Hbody. destruct Hbody as (any & w3 & Hs2 & Hbody).
      destruct any; [|rewrite sleep_step in Hbody];
        apply ret_inr in Hbody; destruct Hbody; discriminate.
Qed.

Lemma no_click_only_after_timeout_witness :
  1000 * 3 <=
  time_time BrowserSamples.world
    (snd (AuthRest.click_verify_only BrowserSamples.world
            (GearSamples.gear Stub.no_mail) 3 (Stub.browser [] [])))
  - time_time BrowserSamples.world (Stub.browser [] []).
Proof.
  assert (Hcall : forall (A : Type) (a : A),
            Clock.steady BrowserSamples.world
              (fun s => Stub.driver_call s (inr a, s))).
  { intros A a w r w' H. unfold Stub.driver_call in H.
    destruct (Stub.alive w); inversion H; lia. }
  destruct (no_click_only_after_timeout BrowserSamples.world
              (GearSamples.gear Stub.no_mail) 3 (Stub.browser [] [])
              (snd (AuthRest.click_verify_only BrowserSamples.world
                      (GearSamples.gear Stub.no_mail) 3 (Stub.browser [] []))))
    as [Hverify _].
  - intros ms w. reflexivity.
  - intros sel. apply (Hcall (list string)).
  - intros tag. apply (Hcall (list string)).
  - intros b. apply (Hcall bool).
  - intros b. apply (Hcall bool).
  - intros b. apply (Hcall (option string)).
  - intros js args w r w' H. cbn in H. unfold Stub.driver_call, Stub.run_script in H.
    destruct (Stub.alive w); [|inversion H; lia].
    destruct (String.eqb js "window.open('');"); inversion H; cbn; lia.
  - apply Hverify. vm_compute. reflexivity.
Defined.

(** ** The baseline message, on the clock *)

(** C6 (amended).  For every mailbox and every supplied, non-empty baseline
    id such as m1: while the feed answers each poll with a newest message
    of that id, every polling round asks the feed, sleeps two seconds and
    ends without a code, the administrative feed not being asked; so
    get_verification_code returns no code, and it returns only when its
    timeout is over (on a clock that sleeping moves on and no request sets
    back).  A round that finds a newest message of another id hands out the
    code found in its body.  The baseline is checked on this path alone:
    what the administrative path does when the feed cannot be read is not
    covered. *)
Theorem baseline_message_never_reported
    {W : Type} (world : World W) (config : GeminiAuthHelper.GeminiAuthConfig)
    (BeautifulSoup : string -> list Soup.node) (json_loads : string -> exn + json)
    (email mid : string) (timeout : Z) :
  mid <> EmptyString ->
  ((forall w, GeminiAuthHelper.newest_id_is world config email mid w) ->
   Clock.sleeps_advance world ->
   (forall url params headers,
      Clock.steady world (requests_get world url params headers)) ->
   forall w,
     GeminiAuthHelper.poll_round world config BeautifulSoup json_loads
       email (JStr mid) w
     = (inr None,
        time_sleep world 2000
          (snd (GeminiAuthHelper.get_api_emails world config email w))) /\
     exists w',
       GeminiAuthHelper.get_verification_code world config BeautifulSoup
         json_loads email timeout (JStr mid) w = (inr None, w') /\
       1000 * timeout <= time_time world w' - time_time world w) /\
  (forall w new_id body c,
     FeedShapes.newest_message_is world config email new_id body w ->
     PyJson.eq new_id (JStr mid) = false ->
     GeminiAuthHelper._extract_code_from_html BeautifulSoup body = Some c ->
     GeminiAuthHelper.poll_round world config BeautifulSoup json_loads
       email (JStr mid) w
     = (inr (Some (JStr c)),
        snd (GeminiAuthHelper.get_api_emails world config email w))).
Proof.
  intros Hmid. split.
  - intros Hfeed Hsleep Hget w.
    assert (Ht : PyJson.truthy (JStr mid) = true)
      by (destruct mid; [congruence|reflexivity]).
    assert (He : PyJson.eq (JStr mid) (JStr mid) = true)
      by (simpl; apply String.eqb_refl).
    assert (Hround : forall w0,
              GeminiAuthHelper.poll_round world config BeautifulSoup json_loads
                email (JStr mid) w0
              = (inr None,
                 time_sleep world 2000
                   (snd (GeminiAuthHelper.get_api_emails world config email w0))))
      by (intros w0; apply poll_round_continues; assumption).
    split; [apply Hround|].
    unfold GeminiAuthHelper.get_verification_code, Run.bind at 1, Run.read.
    cbn [GeminiAuthHelper.capture_baseline]. unfold Run.bind at 1, Run.ret at 1.
    destruct (polling_never_returns world config BeautifulSoup json_loads
                email (JStr mid) Ht He Hfeed
                (Run.rounds (1000 * timeout) 2000) (time_time world w)
                (1000 * timeout) w) as [w' H].
    exists w'. split; [exact H|].
    eapply (while_before_none_late world _ 2000) in H.
    + lia.
    + lia.
    + intros w0 w1 Hr. rewrite Hround in Hr. inversion Hr; subst.
      rewrite Hsleep.
      assert (time_time world w0
              <= time_time world
                   (snd (GeminiAuthHelper.get_api_emails world config email w0))).
      { unfold GeminiAuthHelper.get_api_emails.
        destruct (requests_get world _ _ _ w0) as [r wr] eqn:Er.
        apply Hget in Er. exact Er. }
      lia.
    + pose proof (rounds_cover 2000 (1000 * timeout)). lia.
  - intros w new_id body c Hmsg Hne Hc.
    apply (fresh_message_is_reported world config BeautifulSoup json_loads
             email (JStr mid) new_id body c w Hmsg); [|exact Hc].
    rewrite Hne. apply andb_false_r.
Qed.

Lemma baseline_message_never_reported_witness :
  exists w',
    GeminiAuthHelper.get_verification_code
      (Stub.world InboxSamples.feed InboxSamples.admin) InboxSamples.config
      MailSamples.text_parser InboxSamples.json_loads
      "u1@mail.test" 60 (JStr "m1") (Stub.browser [] []) = (inr None, w') /\
    1000 * 60 <=
    time_time (Stub.world InboxSamples.feed InboxSamples.admin) w'
    - time_time (Stub.world InboxSamples.feed InboxSamples.admin)
        (Stub.browser [] []).
Proof.
  destruct (baseline_message_never_reported
              (Stub.world InboxSamples.feed InboxSamples.admin) InboxSamples.config
              MailSamples.text_parser InboxSamples.json_loads
              "u1@mail.test" "m1" 60) as [Hstale _]; [discriminate|].
  apply Hstale.
  - intro s. do 5 eexists. repeat split; reflexivity.
  - intros ms w. reflexivity.
  - intros url params headers w r w' H. cbn in H.
    destruct (PyStr.contains "/api/emails" url); inversion H; lia.
Defined.

(** C6 as stated fails for the second polling path.  On a relay that does
    not serve the mailbox feed (here: HTTP 500) the round goes on to the
    administrative feed, which has no check against the baseline: the one
    message listed there is the baseline message m1, and the code extracted
    from it is returned. *)
Lemma baseline_message_reported_by_admin_path :
  (exists mail,
     json_body InboxSamples.admin = inr (JDict [("results", JList [mail])]) /\
     PyJson.get mail "id" JNull = inr (JStr "m1")) /\
  fst (GeminiAuthHelper.get_verification_code
         (Stub.world {| status_code := 500; json_body := inr JNull |}
            InboxSamples.admin)
         InboxSamples.config MailSamples.text_parser InboxSamples.json_loads
         "u1@mail.test" 60 (JStr "m1") (Stub.browser [] []))
  = inr (Some (JStr "111111")).
Proof.
  split.
  - eexists. split; reflexivity.
  - vm_compute. reflexivity.
Qed.
